(** * git-gtool: the renovate-bot merge loop and its paged list generator

    A shallow embedding of
      - the paged list generator of package [model]
        (src/unnamed/part_005, and the copy in src/unnamed/part_006), and
      - package [renovatepr] (src/internal/renovatepr/renovatepr.go),
    together with the properties the design document states about them.

    Go code mutates a generator through its pointer receiver and talks to
    the GitHub API through a client.  Both are modelled by explicit state
    passing: a generator method takes the generator value and returns the
    updated one, and every call that leaves the process is a transformer
    of an abstract state [W] of the outside world.  What a computation
    did (the client calls it made, in order, and the pauses of the merge
    loop) is returned next to its value.  A Go run-time panic and a loop
    that has not finished within its fuel are outcomes of their own. *)

From Stdlib Require Import ZArith String List Bool Lia DecimalString.
From stdpp Require Import base option list gmap strings fin_maps.

Local Open Scope string_scope.
Local Open Scope list_scope.
Local Open Scope Z_scope.

Set Warnings "-clear-no-such-hyp".

(** ** Go values shared by both packages *)

(** The [error] values the program distinguishes.  The three sentinels are
    package-level variables compared with [==]; every other error (what
    [fmt.Errorf] builds at a call site, what the GitHub client returns) is
    an [Errorf] carrying its message, and is never equal to a sentinel. *)
Inductive error : Type :=
| EndOfList
| ErrFailedCheck
| ErrMissingCheck
| Errorf (msg : string).

#[global] Instance error_eq_dec : EqDecision error.
Proof. solve_decision. Defined.

(** The text of an error, as [%v] prints it. *)
Definition Error (e : error) : string :=
  match e with
  | EndOfList => "EndOfList"
  | ErrFailedCheck => "check failed"
  | ErrMissingCheck => "check missing"
  | Errorf msg => msg
  end.

(** [%v] and [%d] of an integer. *)
Definition itoa (n : Z) : string := NilZero.string_of_int (Z.to_int n).

(** ** The part of go-github v51 the program uses

    Pointer fields that may be nil are options and the [Get...] accessors
    return the zero value for them, as the generated accessors do.  The
    client is bound to its context, owner and repository name, which never
    change during a run and are left out of the calls. *)
Module github.

Record ListOptions : Type := { Page : Z; PerPage : Z }.

(** The field of [Response] that is read. *)
Record Response : Type := { NextPage : Z }.

Record PullRequest : Type := {
  Number : Z;
  NodeID : option string;
  Title : string;
  State : string;
  Login : string;           (* [GetUser().GetLogin()] *)
  HeadRef : string;         (* [Head.GetRef()] *)
  HeadSHA : string;         (* [Head.SHA] *)
  Mergeable : option bool;
  Rebaseable : option bool
}.

Definition GetNumber (pr : option PullRequest) : Z :=
  from_option Number 0 pr.
Definition GetTitle (pr : option PullRequest) : string :=
  from_option Title "" pr.
Definition GetState (pr : option PullRequest) : string :=
  from_option State "" pr.
Definition GetMergeable (pr : PullRequest) : bool :=
  default false (Mergeable pr).
Definition GetRebaseable (pr : option PullRequest) : bool :=
  default false (pr ≫= Rebaseable).

Record PullRequestListOptions : Type := {
  list_State : string;
  list_Base : string;
  list_Sort : string;
  list_ListOptions : ListOptions
}.

Record PullRequestReview : Type := { review_ID : Z; review_State : string }.

Definition GetID (r : option PullRequestReview) : Z :=
  from_option review_ID 0 r.

Record PullRequestReviewRequest : Type := {
  req_NodeID : option string;
  req_CommitID : string;
  req_Body : string;
  req_Event : string
}.

Record PullRequestOptions : Type := {
  MergeMethod : string;
  CommitTitle : string
}.

Record PullRequestMergeResult : Type := {
  Merged : option bool;
  Message : string
}.

Definition GetMerged (r : PullRequestMergeResult) : bool :=
  default false (Merged r).

Record RequiredStatusCheck : Type := {
  check_Context : string;
  check_AppID : option Z
}.

Record RequiredStatusChecks : Type := { Checks : list RequiredStatusCheck }.

Record RepoStatus : Type := { status_Context : string; status_State : string }.

Record CombinedStatus : Type := { Statuses : list RepoStatus }.

(** [run_App] is the [App] pointer, and inside it the [ID] pointer. *)
Record CheckRun : Type := {
  run_Name : string;
  run_Status : string;
  run_Conclusion : string;
  run_App : option (option Z)
}.

Record ListCheckRunsResults : Type := { CheckRuns : list CheckRun }.

Record WorkflowRun : Type := { wf_HeadSHA : string; wf_URL : string }.

Record WorkflowRuns : Type := { runs_WorkflowRuns : list WorkflowRun }.

Record ListWorkflowRunsOptions : Type := {
  runs_Event : string;
  runs_Status : string;
  runs_Branch : string;
  runs_ListOptions : ListOptions
}.

(** The client methods the program calls, each with the type of what it
    returns. *)
Inductive call : Type -> Type :=
| PullRequests_List (o : PullRequestListOptions)
  : call (list PullRequest * option Response * option error)
| PullRequests_Get (number : Z)
  : call (option PullRequest * option error)
| PullRequests_ListReviews (number : Z) (o : ListOptions)
  : call (list PullRequestReview * option Response * option error)
| PullRequests_CreateReview (number : Z) (r : PullRequestReviewRequest)
  : call (option PullRequestReview * option error)
| PullRequests_SubmitReview (number id : Z) (r : PullRequestReviewRequest)
  : call (option PullRequestReview * option error)
| PullRequests_Merge (number : Z) (commitMessage : string)
    (o : PullRequestOptions)
  : call (option PullRequestMergeResult * option error)
| Repositories_GetRequiredStatusChecks (branch : string)
  : call (option RequiredStatusChecks * option error)
| Repositories_GetCombinedStatus (ref : string) (o : ListOptions)
  : call (option CombinedStatus * option Response * option error)
| Checks_ListCheckRunsForRef (ref : string) (o : ListOptions)
  : call (option ListCheckRunsResults * option Response * option error)
| Actions_ListRepositoryWorkflowRuns (o : ListWorkflowRunsOptions)
  : call (option WorkflowRuns * option Response * option error)
| NewRequest (method url : string) : call (option error)
| Do (method url : string) : call (option error).

(** The platform behind the client: what each call returns, and how it
    changes the world. *)
Definition platform (W : Type) : Type := forall T, call T -> W -> T * W.

End github.

(** ** Running Go code *)

(** What a run leaves behind for an observer. *)
Inductive event : Type :=
| Called {T} (c : github.call T)
| Iteration (i : Z)      (* the log line at the head of the merge loop *)
| Slept (minutes : Z).   (* [time.Sleep] *)

(** Why the Go run time stopped the goroutine. *)
Inductive panic : Type :=
| IndexOutOfRange
| NilDereference.

(** What running a piece of Go code from a state of the world gives: a
    value, the new state and the events in order; a panic; or no answer
    within the fuel given to its loops. *)
Inductive outcome (W A : Type) : Type :=
| Returns (a : A) (w : W) (t : list event)
| Panics (p : panic)
| OutOfFuel.

Arguments Returns {W A} a w t.
Arguments Panics {W A} p.
Arguments OutOfFuel {W A}.

Definition Go (W A : Type) : Type := W -> outcome W A.

(** The events [t] happened before the outcome [o]. *)
Definition after {W A} (t : list event) (o : outcome W A) : outcome W A :=
  match o with
  | Returns a w t' => Returns a w (t ++ t')
  | Panics p => Panics p
  | OutOfFuel => OutOfFuel
  end.

#[global] Instance Go_ret {W} : MRet (Go W) := fun A a w => Returns a w [].

#[global] Instance Go_bind {W} : MBind (Go W) := fun A B f m w =>
  match m w with
  | Returns a w' t => after t (f a w')
  | Panics p => Panics p
  | OutOfFuel => OutOfFuel
  end.

Definition raise {W A} (p : panic) : Go W A := fun _ => Panics p.

Definition timeout {W A} : Go W A := fun _ => OutOfFuel.

Definition emit {W} (e : event) : Go W unit := fun w => Returns tt w [e].

(** A client call: the platform answers and the call is recorded. *)
Definition perform {W T} (P : github.platform W) (c : github.call T)
  : Go W T :=
  fun w => let '(r, w') := P T c w in Returns r w' [Called c].

(** [len] of a slice, as a Go [int]. *)
Definition len {A} (l : list A) : Z := Z.of_nat (length l).

(** [l[i]]: the element, or nothing where Go panics with an index out of
    range. *)
Definition at_index {A} (l : list A) (i : Z) : option A :=
  if (0 <=? i) && (i <? len l) then l !! Z.to_nat i else None.

(** ** Package model: the paged list generator *)

Module model.

Import github.

Section PagedListGenerator.
Context {W GithubType ItemType : Type}.

(** The four values a [Retrieve] function returns. *)
Definition retrieved : Type :=
  option GithubType * list ItemType * option Response * option error.

(** The [Retrieve] field: a closure over the client, hence over the
    world. *)
Variable Retrieve : ListOptions -> Go W retrieved.

(** The mutable fields of [PagedListGenerator].  [index] and [nextPage]
    are Go [int]s: [index] is reset to 0 by every fetch and grows by one
    per item returned, so it stays within the length of a slice and does
    not wrap around. *)
Record PagedListGenerator : Type := {
  index : Z;
  nextPage : Z;
  page : option GithubType;
  items : list ItemType;
  opts : ListOptions;
  endOfList : bool;
  lastPage : bool
}.

(** The zero value [&PagedListGenerator{Retrieve: ...}]. *)
Definition new : PagedListGenerator :=
  {| index := 0; nextPage := 0; page := None; items := [];
     opts := {| Page := 0; PerPage := 0 |};
     endOfList := false; lastPage := false |}.

Definition getNextPage (g : PagedListGenerator)
  : Go W (PagedListGenerator * option error) :=
  if negb (lastPage g) && (len (items g) <=? index g) then
    (* reset page index to 0, retrieve the next page *)
    let o := {| Page := nextPage g; PerPage := PerPage (opts g) |} in
    '(pg, its, res, err) ← Retrieve o;
    let g1 := {| index := 0; nextPage := nextPage g; page := pg;
                 items := its; opts := o;
                 endOfList := endOfList g; lastPage := lastPage g |} in
    match err with
    | Some e => mret (g1, Some e)
    | None =>
      match res with
      | None => raise NilDereference
      | Some r =>
        let last := (NextPage r =? 0) in
        mret ({| index := 0; nextPage := NextPage r; page := pg;
                 items := its; opts := o;
                 endOfList := (len its <=? 0) && last;
                 lastPage := last |}, None)
      end
    end
  else mret (g, None).

(** [HasNext] drops the error [getNextPage] returns. *)
Definition HasNext (g : PagedListGenerator)
  : Go W (PagedListGenerator * bool) :=
  if negb (endOfList g) then
    '(g', _) ← getNextPage g;
    mret (g', negb (endOfList g'))
  else mret (g, negb (endOfList g)).

Definition with_endOfList (b : bool) (g : PagedListGenerator) :=
  {| index := index g; nextPage := nextPage g; page := page g;
     items := items g; opts := opts g; endOfList := b;
     lastPage := lastPage g |}.

Definition with_index (i : Z) (g : PagedListGenerator) :=
  {| index := i; nextPage := nextPage g; page := page g;
     items := items g; opts := opts g; endOfList := endOfList g;
     lastPage := lastPage g |}.

(** What [Next] returns: the page, the item and the error. *)
Definition yielded : Type :=
  option GithubType * option ItemType * option error.

(** [Next] of src/unnamed/part_005 (the same text is in part_004). *)
Definition Next (g : PagedListGenerator)
  : Go W (PagedListGenerator * yielded) :=
  if endOfList g then mret (g, (None, None, Some EndOfList))
  else
    '(g, err) ← getNextPage g;
    match err with
    | Some e => mret (g, (None, None, Some e))
    | None =>
      if (len (items g) <=? index g) && lastPage g then
        mret (with_endOfList true g, (None, None, Some EndOfList))
      else
        let thisIndex := index g in
        let g := with_index (index g + 1) g in
        let g := with_endOfList
                   ((len (items g) <=? index g) && lastPage g) g in
        match at_index (items g) thisIndex with
        | Some it => mret (g, (page g, Some it, None))
        | None => raise IndexOutOfRange
        end
    end.

(** [Next] of src/unnamed/part_006: the copy with the doc comments, which
    has no test between [getNextPage] and the index. *)
Definition Next_part_006 (g : PagedListGenerator)
  : Go W (PagedListGenerator * yielded) :=
  if endOfList g then mret (g, (None, None, Some EndOfList))
  else
    '(g, err) ← getNextPage g;
    match err with
    | Some e => mret (g, (None, None, Some e))
    | None =>
      let thisIndex := index g in
      let g := with_index (index g + 1) g in
      let g := with_endOfList
                 ((len (items g) <=? index g) && lastPage g) g in
      match at_index (items g) thisIndex with
      | Some it => mret (g, (page g, Some it, None))
      | None => raise IndexOutOfRange
      end
    end.

End PagedListGenerator.

Arguments PagedListGenerator : clear implicits.
Arguments retrieved : clear implicits.
Arguments yielded : clear implicits.

(** [ListGenerator]: the specialization that yields items only.  Its
    hidden [pg] is a nil pointer until [init] has run. *)
Section ListGenerator.
Context {W ItemType : Type}.

Variable Retrieve :
  ListOptions -> Go W (list ItemType * option Response * option error).

Record ListGenerator : Type := {
  pg : option (PagedListGenerator string ItemType)
}.

Definition ListGenerator_new : ListGenerator := {| pg := None |}.

(** The [Retrieve] closure [init] gives to the hidden generator. *)
Definition ListGenerator_Retrieve (o : ListOptions)
  : Go W (retrieved string ItemType) :=
  '(v, res, err) ← Retrieve o;
  mret (None, v, res, err).

Definition ListGenerator_init (g : ListGenerator)
  : PagedListGenerator string ItemType :=
  match pg g with
  | Some p => p
  | None => new
  end.

Definition ListGenerator_HasNext (g : ListGenerator)
  : Go W (ListGenerator * bool) :=
  '(p, b) ← HasNext ListGenerator_Retrieve (ListGenerator_init g);
  mret ({| pg := Some p |}, b).

Definition ListGenerator_Next (g : ListGenerator)
  : Go W (ListGenerator * (option ItemType * option error)) :=
  '(p, (_, v, err)) ← Next ListGenerator_Retrieve (ListGenerator_init g);
  mret ({| pg := Some p |}, (v, err)).

End ListGenerator.

Arguments ListGenerator : clear implicits.

(** *** A paged listing and a caller

    What the properties of the generator are stated over: a listing cut
    into pages, served the way the GitHub API numbers pages (page 1 is the
    first one and is also what page 0 asks for; [NextPage] is the number of
    the following page, 0 on the last one), and a caller making any
    sequence of [HasNext] and [Next] calls. *)
Section Listing.
Context {W GithubType ItemType : Type}.

(** One page: the page object and its items. *)
Definition listing : Type := list (GithubType * list ItemType).

Definition pageIndex (o : ListOptions) : nat := Z.to_nat (Z.max (Page o) 1 - 1).

Definition serve (pages : listing) (o : ListOptions)
  : Go W (retrieved GithubType ItemType) :=
  let n := pageIndex o in
  match pages !! n with
  | Some (p, its) =>
    let next := if bool_decide (S n < length pages)%nat
                then Z.of_nat n + 2 else 0 in
    mret (Some p, its, Some {| NextPage := next |}, None)
  | None => mret (None, [], Some {| NextPage := 0 |}, None)
  end.

(** Every item of the listing with the page it is on, in order. *)
Definition tagged (pages : listing) : list (GithubType * ItemType) :=
  flat_map (fun '(p, its) => map (pair p) its) pages.

(** Every page but the last has an item. *)
Fixpoint fullPages (pages : listing) : bool :=
  match pages with
  | [] => true
  | [_] => true
  | (_, its) :: rest => negb (len its =? 0) && fullPages rest
  end.

Inductive method : Type := CallHasNext | CallNext.

Inductive seen : Type :=
| SawHasNext (b : bool)
| SawNext (y : yielded GithubType ItemType).

(** The caller: makes the calls in turn and records what each returns. *)
Fixpoint drive (Retrieve : ListOptions -> Go W (retrieved GithubType ItemType))
    (calls : list method) (g : PagedListGenerator GithubType ItemType)
  : Go W (PagedListGenerator GithubType ItemType * list seen) :=
  match calls with
  | [] => mret (g, [])
  | CallHasNext :: rest =>
    '(g, b) ← HasNext Retrieve g;
    '(g, l) ← drive Retrieve rest g;
    mret (g, SawHasNext b :: l)
  | CallNext :: rest =>
    '(g, y) ← Next Retrieve g;
    '(g, l) ← drive Retrieve rest g;
    mret (g, SawNext y :: l)
  end.

(** What a sequence yielding [rest] answers to the calls: [Next] gives the
    items in order and then [EndOfList] for good, [HasNext] tells whether an
    item is left. *)
Fixpoint answers (rest : list (GithubType * ItemType)) (calls : list method)
  : list seen :=
  match calls, rest with
  | [], _ => []
  | CallHasNext :: cs, [] => SawHasNext false :: answers rest cs
  | CallHasNext :: cs, _ :: _ => SawHasNext true :: answers rest cs
  | CallNext :: cs, [] =>
    SawNext (None, None, Some EndOfList) :: answers [] cs
  | CallNext :: cs, (p, it) :: rest' =>
    SawNext (Some p, Some it, None) :: answers rest' cs
  end.

End Listing.

Arguments listing : clear implicits.
Arguments seen : clear implicits.

End model.

(** ** Package renovatepr *)

Module renovatepr.

Import github model.

Definition approve : string := "APPROVE".
Definition lgtm : string := "LGTM".

Record runResult : Type := {
  appId : option Z;
  context : string;
  conclusion : string
}.

(** [chooseActivePr]: the loop keeps the last pull request whose
    [GetMergeable] holds; with none, the first of the slice is taken, which
    panics on an empty slice ([None] here). *)
Definition chooseActivePr (renovatePrs : list PullRequest)
  : option PullRequest :=
  let activePr :=
    fold_left (fun activePr pr =>
                 if GetMergeable pr then Some pr else activePr)
              renovatePrs None in
  match activePr with
  | Some pr => Some pr
  | None => at_index renovatePrs 0
  end.

(** *** The combined check results of [checkStatusChecks]

    [checkResults] is a [map[string]string]. *)

(** The key of a required check: the context, with the app id after a
    slash when there is one. *)
Definition requiredContext (c : RequiredStatusCheck) : string :=
  match check_AppID c with
  | Some id => check_Context c +:+ "/" +:+ itoa id
  | None => check_Context c
  end.

(** The loop over [requiredChecks.Checks]. *)
Definition seedChecks (checks : list RequiredStatusCheck)
    (checkResults : gmap string string) : gmap string string :=
  fold_left (fun m c => <[requiredContext c := "missing"]> m)
            checks checkResults.

(** The loop over the statuses: the assignment, then the same assignment
    again under the test that the key is present. *)
Definition foldStatuses (statuses : list runResult)
    (checkResults : gmap string string) : gmap string string :=
  fold_left (fun m check =>
               let m := <[context check := conclusion check]> m in
               match m !! context check with
               | Some _ => <[context check := conclusion check]> m
               | None => m
               end)
            statuses checkResults.

Definition runContext (check : runResult) : string :=
  match appId check with
  | Some id => context check +:+ "/" +:+ itoa id
  | None => context check
  end.

(** The loop over the check runs. *)
Definition foldCheckRuns (checks : list runResult)
    (checkResults : gmap string string) : gmap string string :=
  fold_left (fun m check =>
               match m !! runContext check with
               | Some _ => <[runContext check := conclusion check]> m
               | None => m
               end)
            checks checkResults.

(** The [switch] of the last loop, on the flags [(failedCheck,
    missingCheck)]. *)
Definition scanResult (flags : bool * bool) (entry : string * string)
  : bool * bool :=
  if String.eqb (snd entry) "success" then flags
  else if String.eqb (snd entry) "failed" then (true, snd flags)
  else (fst flags, true).

(** The last loop and the returns after it.  Go ranges over a map in an
    order of its choosing: [entries] is the order taken. *)
Definition classify (checkResults : gmap string string)
    (entries : list (string * string)) : option error :=
  let '(failedCheck, missingCheck) :=
    fold_left scanResult entries (false, false) in
  if failedCheck then Some ErrFailedCheck
  else if missingCheck || (Z.of_nat (size checkResults) =? 0)
       then Some ErrMissingCheck
       else None.

Section Client.
Context {W : Type}.

(** [r.Client], [r.Owner], [r.Name] and [r.GithubRepo.GetDefaultBranch()]. *)
Variable client : platform W.
Variables org repo defaultBranch : string.

(** The tail of the messages that name the pull request. *)
Definition describe (activePr : PullRequest) (err : error) : string :=
  org +:+ "/" +:+ repo +:+ " " +:+ itoa (Number activePr) +:+ " " +:+
  Title activePr +:+ " " +:+ Error err.

(** *** checkStatuses *)

Definition checkStatuses_Retrieve (activePr : PullRequest) (o : ListOptions)
  : Go W (retrieved CombinedStatus RepoStatus) :=
  '(pg, res, err) ←
    perform client (Repositories_GetCombinedStatus (HeadSHA activePr) o);
  match err with
  | Some e => mret (None, [], res, Some e)
  | None =>
    match pg with
    | Some c => mret (Some c, Statuses c, res, None)
    | None => raise NilDereference
    end
  end.

Fixpoint checkStatuses_loop (fuel : nat) (activePr : PullRequest)
    (g : PagedListGenerator CombinedStatus RepoStatus)
    (results : list runResult) : Go W (list runResult * option error) :=
  match fuel with
  | O => timeout
  | S fuel =>
    '(g, more) ← HasNext (checkStatuses_Retrieve activePr) g;
    if (more : bool) then
      '(g, (_, status, err)) ← Next (checkStatuses_Retrieve activePr) g;
      match err with
      | Some e =>
        mret ([], Some (Errorf ("can't list workflows: " +:+
                                describe activePr e)))
      | None =>
        checkStatuses_loop fuel activePr g
          (results ++
           [{| appId := None;
               context := from_option status_Context "" status;
               conclusion := from_option status_State "" status |}])
      end
    else mret (results, None)
  end.

Definition checkStatuses (fuel : nat) (activePr : PullRequest) (count : Z)
  : Go W (list runResult * option error) :=
  checkStatuses_loop fuel activePr new [].

(** *** approveWorkflowRuns *)

Definition approveWorkflowRuns_Retrieve (activePr : PullRequest)
    (o : ListOptions) : Go W (retrieved WorkflowRuns WorkflowRun) :=
  '(r, req, err) ←
    perform client
      (Actions_ListRepositoryWorkflowRuns
         {| runs_Event := "pull_request"; runs_Status := "action_required";
            runs_Branch := HeadRef activePr; runs_ListOptions := o |});
  match err with
  | Some e => mret (None, [], req, Some e)
  | None =>
    match r with
    | Some runs => mret (Some runs, runs_WorkflowRuns runs, req, None)
    | None => raise NilDereference
    end
  end.

Fixpoint approveWorkflowRuns_loop (fuel : nat) (activePr : PullRequest)
    (g : PagedListGenerator WorkflowRuns WorkflowRun)
  : Go W (option error) :=
  match fuel with
  | O => timeout
  | S fuel =>
    '(g, more) ← HasNext (approveWorkflowRuns_Retrieve activePr) g;
    if (more : bool) then
      '(g, (_, r, err)) ← Next (approveWorkflowRuns_Retrieve activePr) g;
      match err with
      | Some e => mret (Some e)
      | None =>
        if negb (String.eqb (from_option wf_HeadSHA "" r) (HeadSHA activePr))
        then approveWorkflowRuns_loop fuel activePr g
        else
          let url := from_option wf_URL "" r +:+ "/approve" in
          err ← perform client (NewRequest "POST" url);
          match err with
          | Some e => mret (Some e)
          | None =>
            err ← perform client (Do "POST" url);
            match err with
            | Some e =>
              mret (Some (Errorf ("Can't approve workflow: " +:+ Error e)))
            | None => approveWorkflowRuns_loop fuel activePr g
            end
          end
      end
    else mret None
  end.

Definition approveWorkflowRuns (fuel : nat) (activePr : PullRequest)
  : Go W (option error) :=
  approveWorkflowRuns_loop fuel activePr new.

(** *** checkCheckRuns *)

Definition checkCheckRuns_Retrieve (activePr : PullRequest) (o : ListOptions)
  : Go W (retrieved ListCheckRunsResults CheckRun) :=
  '(pg, res, err) ←
    perform client (Checks_ListCheckRunsForRef (HeadSHA activePr) o);
  match err with
  | Some e => mret (None, [], res, Some e)
  | None =>
    match pg with
    | Some c => mret (Some c, CheckRuns c, res, None)
    | None => raise NilDereference
    end
  end.

Fixpoint checkCheckRuns_loop (fuel : nat) (activePr : PullRequest)
    (g : PagedListGenerator ListCheckRunsResults CheckRun)
    (results : list runResult) : Go W (list runResult * option error) :=
  match fuel with
  | O => timeout
  | S fuel =>
    '(g, more) ← HasNext (checkCheckRuns_Retrieve activePr) g;
    if (more : bool) then
      '(g, (_, status, err)) ← Next (checkCheckRuns_Retrieve activePr) g;
      match err with
      | Some e =>
        mret ([], Some (Errorf ("can't list check runs: " +:+
                                describe activePr e)))
      | None =>
        let conclusion0 := from_option run_Conclusion "" status in
        let conclusion1 :=
          if String.eqb conclusion0 "" then from_option run_Status "" status
          else conclusion0 in
        match status ≫= run_App with
        | None => raise NilDereference   (* [status.GetApp().ID] *)
        | Some id =>
          checkCheckRuns_loop fuel activePr g
            (results ++
             [{| appId := id;
                 context := from_option run_Name "" status;
                 conclusion := conclusion1 |}])
        end
      end
    else mret (results, None)
  end.

Definition checkCheckRuns (fuel : nat) (activePr : PullRequest)
  : Go W (list runResult * option error) :=
  checkCheckRuns_loop fuel activePr new [].

(** *** checkStatusChecks *)

Definition checkStatusChecks (fuel : nat) (base : string)
    (activePr : PullRequest) : Go W (option error) :=
  '(requiredChecks, err) ←
    perform client (Repositories_GetRequiredStatusChecks base);
  match err with
  | Some e => mret (Some e)
  | None =>
    match requiredChecks with
    | None => raise NilDereference
    | Some rc =>
      let checkResults := seedChecks (Checks rc) ∅ in
      '(statuses, err) ← checkStatuses fuel activePr 0;
      match err with
      | Some e => mret (Some e)
      | None =>
        let checkResults := foldStatuses statuses checkResults in
        '(checks, err) ← checkCheckRuns fuel activePr;
        match err with
        | Some e => mret (Some e)
        | None =>
          let checkResults := foldCheckRuns checks checkResults in
          mret (classify checkResults (map_to_list checkResults))
        end
      end
    end
  end.

(** *** approvePr *)

Definition approvePr_Retrieve (activePr : PullRequest) (o : ListOptions)
  : Go W (list PullRequestReview * option Response * option error) :=
  perform client (PullRequests_ListReviews (Number activePr) o).

Fixpoint approvePr_loop (fuel : nat) (activePr : PullRequest)
    (rg : ListGenerator PullRequestReview) (approved : bool)
  : Go W (bool * option error) :=
  match fuel with
  | O => timeout
  | S fuel =>
    '(rg, more) ← ListGenerator_HasNext (approvePr_Retrieve activePr) rg;
    if (more : bool) then
      '(rg, (review, err)) ←
        ListGenerator_Next (approvePr_Retrieve activePr) rg;
      match err with
      | Some e =>
        mret (approved, Some (Errorf ("Can't get review: " +:+ Error e)))
      | None =>
        approvePr_loop fuel activePr rg
          (if String.eqb (from_option review_State "" review) "APPROVED"
           then true else approved)
      end
    else mret (approved, None)
  end.

Definition lgtmRequest (activePr : PullRequest) : PullRequestReviewRequest :=
  {| req_NodeID := NodeID activePr; req_CommitID := HeadSHA activePr;
     req_Body := lgtm; req_Event := approve |}.

(** After [SubmitReview], whose results are dropped, [err] is still what
    [CreateReview] returned. *)
Definition approvePr (fuel : nat) (activePr : PullRequest)
  : Go W (option error) :=
  '(approved, err) ← approvePr_loop fuel activePr ListGenerator_new false;
  match err with
  | Some e => mret (Some e)
  | None =>
    if (approved : bool) then mret None
    else
      '(lgtmReview, err) ←
        perform client
          (PullRequests_CreateReview (Number activePr) (lgtmRequest activePr));
      match err with
      | Some e =>
        mret (Some (Errorf ("can't create LGTM review: " +:+
                            describe activePr e)))
      | None =>
        _ ← perform client
              (PullRequests_SubmitReview (Number activePr) (GetID lgtmReview)
                 (lgtmRequest activePr));
        match err with
        | Some e =>
          mret (Some (Errorf ("can't submit LGTM review: " +:+
                              describe activePr e)))
        | None => mret None
        end
      end
  end.

(** *** mergePr *)

Definition mergePr (activePr : PullRequest) : Go W (option error) :=
  '(activePr, err) ← perform client (PullRequests_Get (Number activePr));
  match err with
  | Some e => mret (Some e)
  | None =>
    if negb (GetRebaseable activePr) then
      mret (Some (Errorf ("unable to merge " +:+ itoa (GetNumber activePr) +:+
                          " via squash method, it is not rebaseable")))
    else
      '(mergeResult, err) ←
        perform client
          (PullRequests_Merge (GetNumber activePr) (GetState activePr)
             {| MergeMethod := "squash";
                CommitTitle := GetTitle activePr |});
      match mergeResult with
      | Some result =>
        if GetMerged result then mret None
        else
          mret (Some (Errorf ("unable to merge " +:+
                              itoa (GetNumber activePr) +:+
                              " via squash method: " +:+ Message result)))
      | None =>
        match err with
        | Some e =>
          mret (Some (Errorf ("unable to merge " +:+
                              itoa (GetNumber activePr) +:+
                              " via squash method: " +:+ Error e)))
        | None => mret None
        end
      end
  end.

(** *** mergeStep *)

Definition mergeStep_Retrieve (o : ListOptions)
  : Go W (list PullRequest * option Response * option error) :=
  perform client
    (PullRequests_List
       {| list_Sort := "created"; list_State := "open";
          list_Base := defaultBranch; list_ListOptions := o |}).

(** The loop that filters the open pull requests down to those of
    renovate-bot. *)
Fixpoint renovatePrs_loop (fuel : nat) (g : ListGenerator PullRequest)
    (renovatePrs : list PullRequest)
  : Go W (list PullRequest * option error) :=
  match fuel with
  | O => timeout
  | S fuel =>
    '(g, more) ← ListGenerator_HasNext mergeStep_Retrieve g;
    if (more : bool) then
      '(g, (pr, err)) ← ListGenerator_Next mergeStep_Retrieve g;
      match err with
      | Some e => mret (renovatePrs, Some e)
      | None =>
        renovatePrs_loop fuel g
          (if String.eqb (from_option Login "" pr) "renovate-bot"
           then renovatePrs ++ option_list pr else renovatePrs)
      end
    else mret (renovatePrs, None)
  end.

Definition mergeStep (fuel : nat) : Go W (bool * option error) :=
  '(renovatePrs, err) ← renovatePrs_loop fuel ListGenerator_new [];
  match err with
  | Some e => mret (false, Some e)
  | None =>
    if len renovatePrs =? 0 then mret (false, None)
    else
      match chooseActivePr renovatePrs with
      | None => raise IndexOutOfRange
      | Some activePr =>
        err ← approveWorkflowRuns fuel activePr;
        match err with
        | Some e => mret (true, Some e)
        | None =>
          err ← checkStatusChecks fuel defaultBranch activePr;
          if decide (err = Some ErrMissingCheck) then mret (true, err)
          else
            match err with
            | Some e => mret (false, Some e)
            | None =>
              err ← approvePr fuel activePr;
              match err with
              | Some e => mret (true, Some e)
              | None =>
                err ← mergePr activePr;
                mret (true, err)
              end
            end
        end
      end
  end.

End Client.

(** *** MergePRs

    [n] bounds the unfoldings of the [for] loop; the loop itself stops on
    [i < 100 && errCount < 10] or on the [break]. *)
Section MergePRs.
Context {W : Type}.
Variable step : Go W (bool * option error).

Fixpoint MergePRs_loop (n : nat) (i errCount : Z) (err : option error)
  : Go W (option error) :=
  match n with
  | O => timeout
  | S n =>
    if (i <? 100) && (errCount <? 10) then
      _ ← emit (Iteration i);
      '(hasMore, err) ← step;
      if negb (hasMore : bool) then mret err
      else
        match err with
        | Some _ =>
          _ ← emit (Slept 2);
          MergePRs_loop n (i + 1) (errCount + 1) err
        | None => MergePRs_loop n (i + 1) 0 err
        end
    else mret err
  end.

End MergePRs.

Definition MergePRs {W} (client : platform W)
    (org repo defaultBranch : string) (fuel : nat) : Go W (option error) :=
  MergePRs_loop (mergeStep client org repo defaultBranch fuel) 100 1 0 None.

End renovatepr.

(** ** Listings, fetch functions and a scripted repository to try the
    statements on *)

Module examples.

Import github model renovatepr.

Definition twoPages : listing string string :=
  [("page 1", ["a"; "b"]); ("page 2", ["c"])].

(** A listing whose second page, not the last one, has no item. *)
Definition gapped : listing string string :=
  [("page 1", ["a"]); ("page 2", []); ("page 3", ["b"])].

(** One page, the last one, without items. *)
Definition emptyPage : listing string string := [("page 1", [])].

(** A fetch function that fails on its first call and serves one page on
    every later call.  The world is the number of calls made so far. *)
Definition flaky (o : ListOptions) : Go nat (retrieved string string) :=
  fun calls =>
    match calls with
    | O => Returns (None, [], None, Some (Errorf "connection reset")) 1%nat []
    | S _ =>
      Returns (Some "page 1", ["a"], Some {| NextPage := 0 |}, None)
              (S calls) []
    end.

(** A fetch function that fails on every call. *)
Definition broken (o : ListOptions) : Go unit (retrieved string string) :=
  fun w => Returns (None, [], None, Some (Errorf "connection refused")) w [].

(** The loop of the tests in src/internal/model/generator_test.go:
    [for g.HasNext() { g.Next(); got++ }]. *)
Fixpoint countItems {W} (fuel : nat)
    (Retrieve : ListOptions -> Go W (list string * option Response * option error))
    (g : ListGenerator string) (got : Z) : Go W (ListGenerator string * Z) :=
  match fuel with
  | O => timeout
  | S fuel =>
    '(g, more) ← ListGenerator_HasNext Retrieve g;
    if (more : bool) then
      '(g, _) ← ListGenerator_Next Retrieve g;
      countItems fuel Retrieve g (got + 1)
    else mret (g, got)
  end.

(** The [Retrieve] closure of [TestGenerator]; the world is [r.NextPage]. *)
Definition TestGenerator_Retrieve (o : ListOptions)
  : Go Z (list string * option Response * option error) :=
  fun nextPage =>
    let n := nextPage + 1 in
    let n := if n =? 2 then 0 else n in
    Returns (["one"; "two"; "three"], Some {| NextPage := n |}, None) n [].

(** The [Retrieve] closure of [TestGeneratorEmptyList]. *)
Definition TestGeneratorEmptyList_Retrieve (o : ListOptions)
  : Go Z (list string * option Response * option error) :=
  fun _ => Returns ([], Some {| NextPage := 0 |}, None) 0 [].

(** A repository whose pull requests fit on one page.  The world is the
    list of open pull requests; a merge that succeeds closes its pull
    request, everything else answers from the script. *)
Record script : Type := {
  workflowRuns : list WorkflowRun;
  requiredChecks : option RequiredStatusChecks * option error;
  statuses : list RepoStatus;
  checkRuns : list CheckRun;
  reviews : list PullRequestReview;
  created : option PullRequestReview * option error;
  submitted : option PullRequestReview * option error;
  mergeAnswer : option PullRequestMergeResult * option error
}.

Definition onePage {A} (a : A) : A * option Response * option error :=
  (a, Some {| NextPage := 0 |}, None).

Definition scripted (s : script) : platform (list PullRequest) :=
  fun T c =>
    match c in call T return list PullRequest -> T * list PullRequest with
    | PullRequests_List _ => fun w => (onePage w, w)
    | PullRequests_Get n => fun w =>
      (match find (fun pr => Number pr =? n) w with
       | Some pr => (Some pr, None)
       | None => (None, Some (Errorf "404 Not Found"))
       end, w)
    | PullRequests_ListReviews _ _ => fun w => (onePage (reviews s), w)
    | PullRequests_CreateReview _ _ => fun w => (created s, w)
    | PullRequests_SubmitReview _ _ _ => fun w => (submitted s, w)
    | PullRequests_Merge n _ _ => fun w =>
      (mergeAnswer s,
       if from_option GetMerged false (fst (mergeAnswer s))
       then List.filter (fun pr => negb (Number pr =? n)) w else w)
    | Repositories_GetRequiredStatusChecks _ => fun w => (requiredChecks s, w)
    | Repositories_GetCombinedStatus _ _ => fun w =>
      (onePage (Some {| Statuses := statuses s |}), w)
    | Checks_ListCheckRunsForRef _ _ => fun w =>
      (onePage (Some {| CheckRuns := checkRuns s |}), w)
    | Actions_ListRepositoryWorkflowRuns _ => fun w =>
      (onePage (Some {| runs_WorkflowRuns := workflowRuns s |}), w)
    | NewRequest _ _ => fun w => (None, w)
    | Do _ _ => fun w => (None, w)
    end.

Definition renovate (number : Z) (mergeable : option bool) : PullRequest :=
  {| Number := number; NodeID := None; Title := "Update dependency";
     State := "open"; Login := "renovate-bot"; HeadRef := "renovate/dep";
     HeadSHA := "abc123"; Mergeable := mergeable; Rebaseable := Some true |}.

Definition prA := renovate 1 (Some false).
Definition prB := renovate 2 (Some true).
Definition prC := renovate 3 (Some true).

(** One required check, reported successful by a status; no review yet;
    the platform accepts the review and the merge. *)
Definition green : script :=
  {| workflowRuns := [];
     requiredChecks :=
       (Some {| Checks := [{| check_Context := "build";
                              check_AppID := None |}] |}, None);
     statuses := [{| status_Context := "build"; status_State := "success" |}];
     checkRuns := [];
     reviews := [];
     created := (Some {| review_ID := 7; review_State := "PENDING" |}, None);
     submitted := (Some {| review_ID := 7; review_State := "APPROVED" |}, None);
     mergeAnswer := (Some {| Merged := Some true;
                             Message := "Pull Request successfully merged" |},
                     None) |}.

(** The platform takes the review but fails to submit it. *)
Definition unsubmitted : script :=
  {| workflowRuns := workflowRuns green;
     requiredChecks := requiredChecks green;
     statuses := statuses green;
     checkRuns := checkRuns green;
     reviews := reviews green;
     created := created green;
     submitted := (None, Some (Errorf "422 Unprocessable Entity"));
     mergeAnswer := mergeAnswer green |}.

(** The required status checks cannot be fetched. *)
Definition outage : script :=
  {| workflowRuns := workflowRuns green;
     requiredChecks := (None, Some (Errorf "502 Bad Gateway"));
     statuses := statuses green;
     checkRuns := checkRuns green;
     reviews := reviews green;
     created := created green;
     submitted := submitted green;
     mergeAnswer := mergeAnswer green |}.

(** The required check has not reported yet. *)
Definition pending : script :=
  {| workflowRuns := workflowRuns green;
     requiredChecks := requiredChecks green;
     statuses := [];
     checkRuns := checkRuns green;
     reviews := reviews green;
     created := created green;
     submitted := submitted green;
     mergeAnswer := mergeAnswer green |}.

(** The required check has failed. *)
Definition red : script :=
  {| workflowRuns := workflowRuns green;
     requiredChecks := requiredChecks green;
     statuses := [{| status_Context := "build"; status_State := "failed" |}];
     checkRuns := checkRuns green;
     reviews := reviews green;
     created := created green;
     submitted := submitted green;
     mergeAnswer := mergeAnswer green |}.

(** The branch requires no check, and a status that nobody requires
    reports success. *)
Definition unrequired : script :=
  {| workflowRuns := workflowRuns green;
     requiredChecks := (Some {| Checks := [] |}, None);
     statuses := [{| status_Context := "lint"; status_State := "success" |}];
     checkRuns := checkRuns green;
     reviews := reviews green;
     created := created green;
     submitted := submitted green;
     mergeAnswer := mergeAnswer green |}.

(** The events of one step on an open pull request whose required check
    has not reported: the listing and the fetches of the check phase. *)
Definition pendingEvents : list event :=
  [Called (PullRequests_List
             {| list_State := "open"; list_Base := "main";
                list_Sort := "created";
                list_ListOptions := {| Page := 0; PerPage := 0 |} |});
   Called (Actions_ListRepositoryWorkflowRuns
             {| runs_Event := "pull_request";
                runs_Status := "action_required";
                runs_Branch := "renovate/dep";
                runs_ListOptions := {| Page := 0; PerPage := 0 |} |});
   Called (Repositories_GetRequiredStatusChecks "main");
   Called (Repositories_GetCombinedStatus "abc123"
             {| Page := 0; PerPage := 0 |});
   Called (Checks_ListCheckRunsForRef "abc123" {| Page := 0; PerPage := 0 |})].

End examples.

(** ** Reasoning about [Go] computations *)

Lemma after_nil {W A} (o : outcome W A) : after [] o = o.
Proof. now destruct o. Qed.

Lemma after_after {W A} (t1 t2 : list event) (o : outcome W A) :
  after t1 (after t2 o) = after (t1 ++ t2) o.
Proof. destruct o; simpl; [|done..]. now rewrite app_assoc. Qed.

Lemma bind_Returns {W A B} (m : Go W A) (f : A -> Go W B) w a w' t :
  m w = Returns a w' t -> (m ≫= f) w = after t (f a w').
Proof. intros H. unfold mbind, Go_bind. now rewrite H. Qed.

Lemma bind_quiet {W A B} (m : Go W A) (f : A -> Go W B) w a w' :
  m w = Returns a w' [] -> (m ≫= f) w = f a w'.
Proof. intros H. rewrite (bind_Returns _ _ _ _ _ _ H). apply after_nil. Qed.

Lemma len_nil {A} : len (@nil A) = 0.
Proof. reflexivity. Qed.

Lemma at_index_lookup {A} (l : list A) (j : nat) :
  at_index l (Z.of_nat j) = l !! j.
Proof.
  unfold at_index, len.
  destruct (decide (j < length l)%nat) as [Hlt|Hge].
  - rewrite (proj2 (Z.leb_le _ _)) by lia.
    rewrite (proj2 (Z.ltb_lt _ _)) by lia.
    simpl. now rewrite Nat2Z.id.
  - rewrite (proj2 (Z.ltb_ge _ _)) by lia.
    rewrite andb_false_r. symmetry. apply lookup_ge_None. lia.
Qed.

(** ** Properties of the paged list generator *)

Module model_properties.
Import github model.

Section Paged.
Context {W GithubType ItemType : Type}.
Implicit Types (pages : listing GithubType ItemType).
Implicit Types (g : PagedListGenerator GithubType ItemType).
Implicit Types (rest : list (GithubType * ItemType)).

Lemma fullPages_lookup pages i p its :
  fullPages pages = true -> pages !! i = Some (p, its) ->
  (S i < length pages)%nat -> its <> [].
Proof.
  revert i. induction pages as [|[q l] tl IH]; intros i Hf Hl Hi; [done|].
  destruct tl as [|x tl']; [simpl in Hi; lia|].
  simpl in Hf. apply andb_true_iff in Hf as [Hne Hf].
  destruct i as [|i].
  - simpl in Hl. injection Hl as -> ->.
    intros ->. now rewrite len_nil in Hne.
  - simpl in Hl. apply (IH i); [exact Hf | exact Hl | simpl in *; lia].
Qed.

Lemma tagged_drop pages i p its :
  pages !! i = Some (p, its) ->
  tagged (drop i pages) = map (pair p) its ++ tagged (drop (S i) pages).
Proof.
  intros H. rewrite (drop_S _ _ _ H). reflexivity.
Qed.

(** Where a generator stands in a listing: [rest] is what it has yet to
    yield. *)
Inductive position pages : PagedListGenerator GithubType ItemType ->
    list (GithubType * ItemType) -> Prop :=
| position_fresh g :
    index g = 0 -> nextPage g = 0 -> items g = [] ->
    endOfList g = false -> lastPage g = false ->
    position pages g (tagged pages)
| position_page g (i j : nat) p its :
    pages !! i = Some (p, its) ->
    page g = Some p -> items g = its -> index g = Z.of_nat j ->
    (j <= length its)%nat ->
    lastPage g = bool_decide (S i = length pages) ->
    nextPage g = (if lastPage g then 0 else Z.of_nat i + 2) ->
    endOfList g = (len its <=? index g) && lastPage g ->
    position pages g (map (pair p) (drop j its) ++ tagged (drop (S i) pages))
| position_end g :
    endOfList g = true -> position pages g [].

(** After [getNextPage], a generator that was not at its end either holds
    the next item under its index or has reached the end of the last
    page. *)
Inductive loaded pages : PagedListGenerator GithubType ItemType ->
    list (GithubType * ItemType) -> Prop :=
| loaded_item g (i j : nat) p its it :
    pages !! i = Some (p, its) -> its !! j = Some it ->
    page g = Some p -> items g = its -> index g = Z.of_nat j ->
    lastPage g = bool_decide (S i = length pages) ->
    nextPage g = (if lastPage g then 0 else Z.of_nat i + 2) ->
    endOfList g = false ->
    loaded pages g
      ((p, it) :: map (pair p) (drop (S j) its) ++ tagged (drop (S i) pages))
| loaded_end g :
    endOfList g = true ->
    (len (items g) <=? index g) && lastPage g = true ->
    loaded pages g [].

Lemma serve_lookup pages o p its (w : W) :
  pages !! pageIndex o = Some (p, its) ->
  serve pages o w =
  Returns (Some p, its,
           Some {| NextPage := if bool_decide (S (pageIndex o) < length pages)%nat
                               then Z.of_nat (pageIndex o) + 2 else 0 |},
           None) w [].
Proof. intros H. unfold serve. now rewrite H. Qed.

Lemma serve_beyond pages o (w : W) :
  pages !! pageIndex o = None ->
  serve pages o w = Returns (None, [], Some {| NextPage := 0 |}, None) w [].
Proof. intros H. unfold serve. now rewrite H. Qed.

Lemma loaded_fetched pages (i : nat) p its o :
  fullPages pages = true ->
  pages !! i = Some (p, its) ->
  loaded pages
    {| index := 0;
       nextPage := (if bool_decide (S i < length pages)%nat
                    then Z.of_nat i + 2 else 0);
       page := Some p; items := its; opts := o;
       endOfList := (len its <=? 0) &&
         ((if bool_decide (S i < length pages)%nat
           then Z.of_nat i + 2 else 0) =? 0);
       lastPage := ((if bool_decide (S i < length pages)%nat
                     then Z.of_nat i + 2 else 0) =? 0) |}
    (tagged (drop i pages)).
Proof.
  intros Hf Hl.
  pose proof (lookup_lt_Some _ _ _ Hl) as Hlt.
  rewrite (tagged_drop _ _ _ _ Hl).
  case_bool_decide as Hn.
  - (* a further page exists: this one has an item *)
    destruct its as [|it its'] eqn:E;
      [exfalso; eapply fullPages_lookup; eauto|].
    replace (Z.of_nat i + 2 =? 0) with false by (symmetry; apply Z.eqb_neq; lia).
    simpl map. simpl app.
    eapply (loaded_item pages _ i 0 p (it :: its') it); simpl; try done.
    rewrite bool_decide_eq_false_2; [done | lia].
  - (* the last page *)
    assert (S i = length pages) as Hlast by lia.
    replace (drop (S i) pages) with (@nil (GithubType * list ItemType))
      by (symmetry; apply drop_ge; lia).
    simpl tagged. rewrite app_nil_r.
    destruct its as [|it its'].
    + simpl. apply loaded_end; reflexivity.
    + simpl map.
      replace (map (pair p) its') with
        (map (pair p) (drop 1 (it :: its')) ++
         tagged (drop (S i) pages)).
      2:{ replace (drop (S i) pages) with (@nil (GithubType * list ItemType))
            by (symmetry; apply drop_ge; lia).
          simpl. now rewrite app_nil_r, drop_0. }
      eapply (loaded_item pages _ i 0 p (it :: its') it); simpl; try done.
      now rewrite bool_decide_eq_true_2.
Qed.

Lemma getNextPage_serve pages g rest (w : W) :
  fullPages pages = true ->
  position pages g rest -> endOfList g = false ->
  exists g', getNextPage (serve pages) g w = Returns (g', None) w [] /\
             loaded pages g' rest.
Proof.
  intros Hf Hp He. destruct Hp as [g H1 H2 H3 H4 H5 | g i j p its Hl Hpg Hit Hix Hj Hlast Hnext Heol | g Hend ].
  - (* nothing fetched yet: page 0 is asked for *)
    unfold getNextPage. rewrite H5, H3, H1, H2. simpl.
    destruct (pages !! 0%nat) as [[p its]|] eqn:E0.
    + erewrite bind_quiet by (apply serve_lookup; exact E0).
      simpl. eexists. split; [reflexivity|].
      change (pageIndex {| Page := 0; PerPage := PerPage (opts g) |}) with 0%nat.
      change (tagged pages) with (tagged (drop 0 pages)).
      now apply loaded_fetched.
    + erewrite bind_quiet by (apply serve_beyond; exact E0).
      simpl. eexists. split; [reflexivity|].
      destruct pages; [|done]. simpl. now apply loaded_end.
  - pose proof (lookup_lt_Some _ _ _ Hl) as Hlt.
    unfold getNextPage. rewrite Hlast, Hit, Hix.
    case_bool_decide as Hn; simpl.
    + (* on the last page: nothing to fetch *)
      rewrite Hlast, andb_true_r, Hix, He in Heol.
      symmetry in Heol. apply Z.leb_gt in Heol. unfold len in Heol.
      destruct (its !! j) as [it|] eqn:Ej;
        [|apply lookup_ge_None in Ej; lia].
      eexists. split; [reflexivity|].
      rewrite (drop_S _ _ _ Ej). simpl.
      eapply loaded_item; eauto.
      rewrite Hlast. symmetry. now apply bool_decide_eq_true_2.
    + destruct (len its <=? Z.of_nat j) eqn:Ecmp.
      * (* page used up: the following page is asked for *)
        apply Z.leb_le in Ecmp. unfold len in Ecmp.
        assert (j = length its) as -> by lia.
        rewrite drop_all. simpl app.
        rewrite Hnext, Hlast.
        assert (pageIndex {| Page := Z.of_nat i + 2; PerPage := PerPage (opts g) |} = S i) as Hpi
          by (unfold pageIndex; simpl; lia).
        destruct (pages !! S i) as [[p' its']|] eqn:E1;
          [|apply lookup_ge_None in E1; lia].
        erewrite bind_quiet by (apply serve_lookup; rewrite Hpi; exact E1).
        simpl. eexists. split; [reflexivity|]. rewrite Hpi.
        now apply loaded_fetched.
      * apply Z.leb_gt in Ecmp. unfold len in Ecmp.
        destruct (its !! j) as [it|] eqn:Ej;
          [|apply lookup_ge_None in Ej; lia].
        eexists. split; [reflexivity|].
        rewrite (drop_S _ _ _ Ej). simpl.
        eapply loaded_item; eauto.
        rewrite Hlast. symmetry. now apply bool_decide_eq_false_2.
  - congruence.
Qed.

Lemma loaded_position pages g rest :
  loaded pages g rest -> position pages g rest.
Proof.
  intros [g' i j p its it Hl Hj Hpg Hit Hix Hlast Hnext He | g' He Hg].
  - pose proof (lookup_lt_Some _ _ _ Hj) as Hlt.
    change ((p, it) :: map (pair p) (drop (S j) its) ++ tagged (drop (S i) pages))
      with (map (pair p) (it :: drop (S j) its) ++ tagged (drop (S i) pages)).
    rewrite <- (drop_S _ _ _ Hj).
    eapply position_page; eauto; [lia|].
    rewrite He, Hix. symmetry. apply andb_false_iff. left.
    apply Z.leb_gt. unfold len. lia.
  - now apply position_end.
Qed.

Lemma position_at_end pages g rest :
  position pages g rest -> endOfList g = true -> rest = [].
Proof.
  intros [g' H1 H2 H3 H4 H5 | g' i j p its Hl Hpg Hit Hix Hj Hlast Hnext Heol
         | g' Hend] He; [congruence | | done].
  rewrite He in Heol. symmetry in Heol.
  apply andb_true_iff in Heol as [Hle Hl'].
  rewrite Hix in Hle. apply Z.leb_le in Hle. unfold len in Hle.
  rewrite Hlast in Hl'. apply bool_decide_eq_true_1 in Hl'.
  rewrite drop_ge by lia. rewrite (drop_ge pages) by lia. reflexivity.
Qed.

Lemma HasNext_serve pages g rest (w : W) :
  fullPages pages = true -> position pages g rest ->
  exists g',
    position pages g' rest /\
    HasNext (serve pages) g w =
    Returns (g', match rest with [] => false | _ :: _ => true end) w [].
Proof.
  intros Hf Hp. unfold HasNext.
  destruct (endOfList g) eqn:He; simpl.
  - pose proof (position_at_end _ _ _ Hp He) as ->.
    exists g. split; [exact Hp|reflexivity].
  - destruct (getNextPage_serve pages g rest w Hf Hp He) as (g' & Hg & Hl).
    rewrite (bind_quiet _ _ _ _ _ Hg). simpl.
    exists g'. split; [now apply loaded_position|].
    destruct Hl as [g' i j p its it _ _ _ _ _ _ _ He' | g' He' _];
      unfold mret, Go_ret; now rewrite He'.
Qed.

Lemma Next_serve pages g rest (w : W) :
  fullPages pages = true -> position pages g rest ->
  exists g',
    position pages g' (tail rest) /\
    Next (serve pages) g w =
    Returns (g', match rest with
                 | [] => (None, None, Some EndOfList)
                 | (p, it) :: _ => (Some p, Some it, None)
                 end) w [].
Proof.
  intros Hf Hp. unfold Next.
  destruct (endOfList g) eqn:He; simpl.
  - pose proof (position_at_end _ _ _ Hp He) as ->. now exists g.
  - destruct (getNextPage_serve pages g rest w Hf Hp He) as (g1 & Hg & Hl).
    rewrite (bind_quiet _ _ _ _ _ Hg). simpl.
    destruct Hl as [g1 i j p its it Hl Hj Hpg Hit Hix Hlast Hnext He1
                   | g1 He1 Hguard].
    + pose proof (lookup_lt_Some _ _ _ Hj) as Hlt.
      assert ((len (items g1) <=? index g1) = false) as Hcmp
        by (rewrite Hit, Hix; apply Z.leb_gt; unfold len; lia).
      rewrite Hcmp. simpl.
      rewrite Hit, Hix, at_index_lookup, Hj, Hpg.
      eexists. split; [|reflexivity].
      simpl tail. apply (position_page pages _ i (S j) p its); simpl; try done.
      lia.
    + rewrite Hguard. eexists. split; [|reflexivity].
      now apply position_end.
Qed.

Lemma drive_serve pages calls : forall g rest (w : W),
  fullPages pages = true -> position pages g rest ->
  exists g', drive (serve pages) calls g w =
             Returns (g', answers rest calls) w [].
Proof.
  induction calls as [|[|] calls IH]; intros g rest w Hf Hp.
  - exists g. reflexivity.
  - destruct (HasNext_serve pages g rest w Hf Hp) as (g1 & Hp1 & Hh).
    destruct (IH g1 rest w Hf Hp1) as (g2 & Hd).
    exists g2. simpl drive.
    rewrite (bind_quiet _ _ _ _ _ Hh). simpl.
    rewrite (bind_quiet _ _ _ _ _ Hd). simpl.
    now destruct rest.
  - destruct (Next_serve pages g rest w Hf Hp) as (g1 & Hp1 & Hn).
    destruct (IH g1 (tail rest) w Hf Hp1) as (g2 & Hd).
    exists g2. simpl drive.
    rewrite (bind_quiet _ _ _ _ _ Hn). simpl.
    rewrite (bind_quiet _ _ _ _ _ Hd). simpl.
    now destruct rest as [|[p it] rest'].
Qed.

(** What [answers] says of a caller that only calls [Next], more often
    than there are items: every item once, in order, then [EndOfList] each
    time. *)
Lemma answers_only_Next rest (k : nat) :
  answers rest (replicate (length rest + k) CallNext) =
  map (fun x => SawNext (Some (fst x), Some (snd x), None)) rest ++
  replicate k (SawNext (None, None, Some EndOfList)).
Proof.
  induction rest as [|[p it] rest IH]; simpl.
  - induction k as [|k IHk]; simpl; [done|]. now rewrite IHk.
  - now rewrite IH.
Qed.

End Paged.

Section Fetching.
Context {W GithubType ItemType : Type}.
Variable Retrieve : ListOptions -> Go W (retrieved GithubType ItemType).
Implicit Types (g : PagedListGenerator GithubType ItemType).

(** A generator that is not at its end, has no further item in its page
    and is not on the last page fetches: this is the call it makes. *)
Definition fetchOf g : ListOptions :=
  {| Page := nextPage g; PerPage := PerPage (opts g) |}.

Lemma getNextPage_error g pg its res e (w w1 : W) t1 :
  lastPage g = false -> len (items g) <= index g ->
  Retrieve (fetchOf g) w = Returns (pg, its, res, Some e) w1 t1 ->
  getNextPage Retrieve g w =
  Returns ({| index := 0; nextPage := nextPage g; page := pg; items := its;
              opts := fetchOf g; endOfList := endOfList g;
              lastPage := lastPage g |}, Some e) w1 t1.
Proof.
  intros Hl Hi Hr. unfold getNextPage. rewrite Hl.
  rewrite (proj2 (Z.leb_le _ _) Hi). simpl.
  fold (fetchOf g). rewrite (bind_Returns _ _ _ _ _ _ Hr). simpl.
  now rewrite app_nil_r.
Qed.

Lemma Next_error g pg its res e (w w1 : W) t1 :
  endOfList g = false -> lastPage g = false -> len (items g) <= index g ->
  Retrieve (fetchOf g) w = Returns (pg, its, res, Some e) w1 t1 ->
  exists g1,
    Next Retrieve g w = Returns (g1, (None, None, Some e)) w1 t1.
Proof.
  intros He Hl Hi Hr. unfold Next. rewrite He.
  rewrite (bind_Returns _ _ _ _ _ _ (getNextPage_error _ _ _ _ _ _ _ _ Hl Hi Hr)).
  simpl. rewrite app_nil_r. eauto.
Qed.

Lemma getNextPage_fetched g pg its r (w w1 : W) t1 :
  lastPage g = false -> len (items g) <= index g ->
  Retrieve (fetchOf g) w = Returns (pg, its, Some r, None) w1 t1 ->
  getNextPage Retrieve g w =
  Returns ({| index := 0; nextPage := NextPage r; page := pg; items := its;
              opts := fetchOf g;
              endOfList := (len its <=? 0) && (NextPage r =? 0);
              lastPage := (NextPage r =? 0) |}, None) w1 t1.
Proof.
  intros Hl Hi Hr. unfold getNextPage. rewrite Hl.
  rewrite (proj2 (Z.leb_le _ _) Hi). simpl.
  fold (fetchOf g). rewrite (bind_Returns _ _ _ _ _ _ Hr). simpl.
  now rewrite app_nil_r.
Qed.

(** The first fetch of a new generator, when it finds an empty last page:
    [Next] of src/unnamed/part_005 answers [EndOfList]. *)
Lemma Next_empty_first_page pg (w w1 : W) t1 :
  Retrieve (fetchOf new) w =
    Returns (pg, [], Some {| NextPage := 0 |}, None) w1 t1 ->
  exists g1,
    Next Retrieve new w = Returns (g1, (None, None, Some EndOfList)) w1 t1 /\
    endOfList g1 = true.
Proof.
  intros Hr. unfold Next. change (endOfList new) with false. cbv iota.
  rewrite (bind_Returns _ _ _ _ _ _
             (getNextPage_fetched new _ _ _ _ _ _ eq_refl (Z.le_refl 0) Hr)).
  simpl. rewrite app_nil_r. eauto.
Qed.

(** The same call on [Next] of src/unnamed/part_006 runs into the index. *)
Lemma Next_part_006_empty_first_page pg (w w1 : W) t1 :
  Retrieve (fetchOf new) w =
    Returns (pg, [], Some {| NextPage := 0 |}, None) w1 t1 ->
  Next_part_006 Retrieve new w = Panics IndexOutOfRange.
Proof.
  intros Hr. unfold Next_part_006. change (endOfList new) with false.
  cbv iota.
  now rewrite (bind_Returns _ _ _ _ _ _
             (getNextPage_fetched new _ _ _ _ _ _ eq_refl (Z.le_refl 0) Hr)).
Qed.

End Fetching.

Import examples.

(** C3, as amended.  For every listing cut into pages of which all but the
    last hold an item, and every sequence of [HasNext] and [Next] calls on
    a new generator over it: no call panics, the [Next] calls return the
    items in their order, each with its page, and once all are returned
    every [Next] returns [EndOfList]; [HasNext] answers whether an item is
    left. *)
Theorem paged_generator_yields_listing {W GithubType ItemType}
    (pages : listing GithubType ItemType) (calls : list method) (w : W) :
  fullPages pages = true ->
  exists g',
    drive (serve pages) calls new w =
    Returns (g', answers (tagged pages) calls) w [].
Proof.
  intros Hf. apply drive_serve; [exact Hf|].
  now apply position_fresh.
Qed.

Lemma paged_generator_yields_listing_witness :
  fullPages twoPages = true /\
  exists g',
    drive (serve twoPages)
          [CallNext; CallHasNext; CallHasNext; CallNext; CallNext;
           CallNext; CallHasNext] new tt =
    Returns (g', [SawNext (Some "page 1", Some "a", None);
                  SawHasNext true; SawHasNext true;
                  SawNext (Some "page 1", Some "b", None);
                  SawNext (Some "page 2", Some "c", None);
                  SawNext (None, None, Some EndOfList);
                  SawHasNext false]) tt [].
Proof.
  split; [reflexivity|].
  apply (paged_generator_yields_listing twoPages
           [CallNext; CallHasNext; CallHasNext; CallNext; CallNext;
            CallNext; CallHasNext] tt).
  reflexivity.
Defined.

(** C3 as stated fails on a listing with an empty page in the middle: the
    second [Next] fetches the empty page and indexes into it. *)
Lemma paged_generator_empty_middle_page :
  tagged gapped = [("page 1", "a"); ("page 3", "b")] /\
  drive (W:=unit) (serve gapped) [CallNext; CallNext] new tt =
  Panics IndexOutOfRange.
Proof. split; reflexivity. Qed.

(** C4, as amended.  When the page fetch of a generator fails: [Next]
    returns the error of the fetch.  [HasNext] returns no error but [true];
    when the failed fetch came with no items, as every fetch function of
    the program does, the [Next] after it fetches the same page again and
    returns the error of that fetch when it fails as well. *)
Theorem fetch_error_reaches_Next {W GithubType ItemType}
    (Retrieve : ListOptions -> Go W (retrieved GithubType ItemType))
    (g : PagedListGenerator GithubType ItemType) pg its res e (w w1 : W) t1 :
  endOfList g = false -> lastPage g = false -> len (items g) <= index g ->
  Retrieve (fetchOf g) w = Returns (pg, its, res, Some e) w1 t1 ->
  (exists g1, Next Retrieve g w = Returns (g1, (None, None, Some e)) w1 t1) /\
  (exists g1,
     HasNext Retrieve g w = Returns (g1, true) w1 t1 /\
     (its = [] ->
      forall pg2 its2 res2 e2 w2 t2,
        Retrieve (fetchOf g) w1 = Returns (pg2, its2, res2, Some e2) w2 t2 ->
        exists g2,
          Next Retrieve g1 w1 = Returns (g2, (None, None, Some e2)) w2 t2)).
Proof.
  intros He Hl Hi Hr. split; [now apply (Next_error Retrieve g pg its res)|].
  pose proof (getNextPage_error Retrieve _ _ _ _ _ _ _ _ Hl Hi Hr) as Hg.
  eexists. split.
  - unfold HasNext. rewrite He. simpl.
    rewrite (bind_Returns _ _ _ _ _ _ Hg). simpl.
    rewrite He, app_nil_r. reflexivity.
  - intros -> pg2 its2 res2 e2 w2 t2 Hr2.
    eapply Next_error; simpl; eauto.
    unfold len. simpl. lia.
Qed.

Lemma fetch_error_reaches_Next_witness :
  (exists g1, Next broken new tt =
              Returns (g1, (None, None, Some (Errorf "connection refused")))
                      tt []) /\
  (exists g1,
     HasNext broken new tt = Returns (g1, true) tt [] /\
     (@nil string = [] ->
      forall pg2 its2 res2 e2 w2 t2,
        broken (fetchOf g1) tt = Returns (pg2, its2, res2, Some e2) w2 t2 ->
        exists g2,
          Next broken g1 tt = Returns (g2, (None, None, Some e2)) w2 t2)).
Proof.
  apply (fetch_error_reaches_Next broken new None [] None
           (Errorf "connection refused") tt tt []);
    [reflexivity | reflexivity | unfold len; simpl; lia | reflexivity].
Defined.

(** C4 as stated fails when the fetch that failed inside [HasNext]
    succeeds when [Next] repeats it: [HasNext] answers [true], [Next]
    returns an item and no error, and no caller has seen the failure. *)
Lemma fetch_error_in_HasNext_dropped :
  flaky (fetchOf (new : PagedListGenerator string string)) 0%nat =
    Returns (None, [], None, Some (Errorf "connection reset")) 1%nat [] /\
  exists g1 g2,
    HasNext flaky new 0%nat = Returns (g1, true) 1%nat [] /\
    Next flaky g1 1%nat =
    Returns (g2, (Some "page 1", Some "a", None)) 2%nat [].
Proof. split; [reflexivity|]. do 2 eexists. split; reflexivity. Qed.

(** The tests of the repository pass on the model: [TestGenerator] counts
    6 items, [TestGeneratorEmptyList] counts none and then gets [EndOfList]
    from [Next]. *)
Example TestGenerator :
  exists g r, countItems 10 TestGenerator_Retrieve ListGenerator_new 0 0 =
              Returns (g, 6) r [].
Proof. do 2 eexists. vm_compute. reflexivity. Qed.

Example TestGeneratorEmptyList :
  exists g,
    countItems 10 TestGeneratorEmptyList_Retrieve ListGenerator_new 0 0 =
      Returns (g, 0) 0 [] /\
    exists g', ListGenerator_Next TestGeneratorEmptyList_Retrieve g 0 =
               Returns (g', (None, Some EndOfList)) 0 [].
Proof.
  eexists. split; [vm_compute; reflexivity|].
  eexists. vm_compute. reflexivity.
Qed.

(** C10.  A new generator whose first fetch finds an empty last page, with
    [Next] called first: [Next] of src/unnamed/part_005 returns [EndOfList]
    and the generator is at its end; [Next] of src/unnamed/part_006, which
    the claim names as well, indexes into the empty slice and panics. *)
Theorem Next_on_empty_first_page {W GithubType ItemType}
    (Retrieve : ListOptions -> Go W (retrieved GithubType ItemType))
    pg (w w1 : W) t1 :
  Retrieve (fetchOf (new : PagedListGenerator GithubType ItemType)) w =
    Returns (pg, [], Some {| NextPage := 0 |}, None) w1 t1 ->
  (exists g1,
     Next Retrieve new w = Returns (g1, (None, None, Some EndOfList)) w1 t1 /\
     endOfList g1 = true) /\
  Next_part_006 Retrieve new w = Panics IndexOutOfRange.
Proof.
  intros Hr. split.
  - now apply (Next_empty_first_page Retrieve pg).
  - now apply (Next_part_006_empty_first_page Retrieve pg w w1 t1).
Qed.

Lemma Next_on_empty_first_page_witness :
  (exists g1,
     Next (W:=unit) (serve emptyPage) new tt =
       Returns (g1, (None, None, Some EndOfList)) tt [] /\
     endOfList g1 = true) /\
  Next_part_006 (W:=unit) (serve emptyPage) new tt = Panics IndexOutOfRange.
Proof.
  apply (Next_on_empty_first_page (serve emptyPage) (Some "page 1") tt tt []).
  reflexivity.
Defined.

End model_properties.

(** ** Properties of package renovatepr *)

Module renovatepr_properties.
Import github model renovatepr examples.

Lemma perform_Returns {W T} (client : platform W) (c : call T) (w w' : W) r :
  client T c w = (r, w') -> perform client c w = Returns r w' [Called c].
Proof. intros H. unfold perform. now rewrite H. Qed.

(** *** The check results *)

Lemma seedChecks_dom checks (m : gmap string string) :
  dom (seedChecks checks m) = dom m ∪ list_to_set (requiredContext <$> checks).
Proof.
  unfold seedChecks. revert m.
  induction checks as [|c checks IH]; intros m; simpl.
  - set_solver.
  - rewrite IH, dom_insert_L. set_solver.
Qed.

(** The pass over the check runs overwrites, and adds no key. *)
Lemma foldCheckRuns_dom checks (m : gmap string string) :
  dom (foldCheckRuns checks m) = dom m.
Proof.
  unfold foldCheckRuns. revert m.
  induction checks as [|c checks IH]; intros m; simpl; [done|].
  rewrite IH. destruct (m !! runContext c) eqn:E; [|done].
  rewrite dom_insert_L. apply elem_of_dom_2 in E. set_solver.
Qed.

(** The pass over the statuses adds the context of every status. *)
Lemma foldStatuses_dom statuses (m : gmap string string) :
  dom (foldStatuses statuses m) = dom m ∪ list_to_set (context <$> statuses).
Proof.
  unfold foldStatuses. revert m.
  induction statuses as [|s statuses IH]; intros m; simpl.
  - set_solver.
  - rewrite lookup_insert_eq, insert_insert_eq, IH, dom_insert_L. set_solver.
Qed.

Definition isFailed (entry : string * string) : bool :=
  String.eqb (snd entry) "failed".

Definition isPending (entry : string * string) : bool :=
  negb (String.eqb (snd entry) "success") &&
  negb (String.eqb (snd entry) "failed").

Lemma scanResults_flags entries failedCheck missingCheck :
  fold_left scanResult entries (failedCheck, missingCheck) =
  (failedCheck || existsb isFailed entries,
   missingCheck || existsb isPending entries).
Proof.
  revert failedCheck missingCheck.
  induction entries as [|[k c] entries IH]; intros f mi; simpl.
  - now rewrite !orb_false_r.
  - unfold scanResult at 2, isFailed at 1, isPending at 1. simpl.
    destruct (String.eqb_spec c "success") as [->|Hs]; simpl.
    + rewrite IH. reflexivity.
    + destruct (String.eqb_spec c "failed") as [->|Hf]; simpl; rewrite IH.
      * now rewrite orb_true_r.
      * now rewrite orb_true_r.
Qed.

Lemma existsb_entries (P : string * string -> bool)
    (m : gmap string string) entries :
  entries ≡ₚ map_to_list m ->
  existsb P entries = true <-> exists k c, m !! k = Some c /\ P (k, c) = true.
Proof.
  intros Hp. rewrite existsb_exists. split.
  - intros ([k c] & Hin & HP). exists k, c. split; [|done].
    apply elem_of_map_to_list. rewrite <- Hp. now apply list_elem_of_In.
  - intros (k & c & Hm & HP). exists (k, c). split; [|done].
    apply list_elem_of_In. rewrite Hp. now apply elem_of_map_to_list.
Qed.

(** C2.  Whatever the order in which the last loop of [checkStatusChecks]
    visits the mapping: if some key maps to "failed" the result is
    [ErrFailedCheck]; otherwise, if some key maps to anything but "success",
    or the mapping is empty, the result is [ErrMissingCheck]; otherwise
    (the mapping is not empty and every key maps to "success") the result
    is nil. *)
Theorem classify_verdict (checkResults : gmap string string)
    (entries : list (string * string)) :
  entries ≡ₚ map_to_list checkResults ->
  ((exists k, checkResults !! k = Some "failed") ->
   classify checkResults entries = Some ErrFailedCheck) /\
  (~ (exists k, checkResults !! k = Some "failed") ->
   (exists k c, checkResults !! k = Some c /\ c <> "success") \/
   checkResults = ∅ ->
   classify checkResults entries = Some ErrMissingCheck) /\
  (checkResults <> ∅ ->
   (forall k c, checkResults !! k = Some c -> c = "success") ->
   classify checkResults entries = None).
Proof.
  intros Hp. unfold classify. rewrite scanResults_flags. simpl.
  assert ((Z.of_nat (size checkResults) =? 0) = true <-> checkResults = ∅)
    as HE.
  { rewrite Z.eqb_eq. split.
    - intros H. apply map_size_empty_iff. lia.
    - intros ->. now rewrite map_size_empty. }
  split; [|split].
  - intros (k & Hk).
    rewrite (proj2 (existsb_entries isFailed _ _ Hp)); [done|].
    exists k, "failed". now split.
  - intros Hnf Hm.
    destruct (existsb isFailed entries) eqn:EF.
    { exfalso. apply Hnf.
      apply (existsb_entries isFailed _ _ Hp) in EF as (k & c & Hk & Hc).
      exists k. unfold isFailed in Hc. simpl in Hc.
      apply String.eqb_eq in Hc. now subst. }
    destruct Hm as [(k & c & Hk & Hc) | ->].
    + rewrite (proj2 (existsb_entries isPending _ _ Hp)); [done|].
      exists k, c. split; [done|].
      unfold isPending. simpl. apply andb_true_iff. split.
      * apply negb_true_iff, String.eqb_neq. exact Hc.
      * apply negb_true_iff, String.eqb_neq. intros ->.
        apply Hnf. now exists k.
    + rewrite (proj2 HE) by done. now rewrite orb_true_r.
  - intros Hne Hall.
    destruct (existsb isFailed entries) eqn:EF.
    { apply (existsb_entries isFailed _ _ Hp) in EF as (k & c & Hk & Hc).
      unfold isFailed in Hc. simpl in Hc. apply String.eqb_eq in Hc.
      apply Hall in Hk. congruence. }
    destruct (existsb isPending entries) eqn:EP.
    { apply (existsb_entries isPending _ _ Hp) in EP as (k & c & Hk & Hc).
      unfold isPending in Hc. simpl in Hc.
      apply andb_true_iff in Hc as [Hc _].
      apply negb_true_iff, String.eqb_neq in Hc.
      apply Hall in Hk. congruence. }
    destruct (Z.of_nat (size checkResults) =? 0) eqn:ES; [|done].
    exfalso. apply Hne. now apply HE.
Qed.

Lemma classify_verdict_witness :
  classify {["build" := "success"]} (map_to_list {["build" := "success"]}) =
  None.
Proof.
  apply (classify_verdict {["build" := "success"]}
           (map_to_list {["build" := "success"]})).
  - reflexivity.
  - apply insert_non_empty.
  - intros k c [_ <-]%lookup_singleton_Some. reflexivity.
Defined.

(** What [checkStatusChecks] returns once its three fetches have
    succeeded: the classification of the seeded mapping after the two
    passes. *)
Lemma checkStatusChecks_classifies {W} (client : platform W)
    (org repo : string) (fuel : nat) (base : string) (activePr : PullRequest)
    (w w1 w2 w3 : W) rc statuses checks t2 t3 :
  client _ (Repositories_GetRequiredStatusChecks base) w =
    ((Some rc, None), w1) ->
  checkStatuses client org repo fuel activePr 0 w1 =
    Returns (statuses, None) w2 t2 ->
  checkCheckRuns client org repo fuel activePr w2 =
    Returns (checks, None) w3 t3 ->
  let checkResults :=
    foldCheckRuns checks (foldStatuses statuses (seedChecks (Checks rc) ∅)) in
  checkStatusChecks client org repo fuel base activePr w =
  Returns (classify checkResults (map_to_list checkResults)) w3
          (Called (Repositories_GetRequiredStatusChecks base) :: t2 ++ t3).
Proof.
  intros H1 H2 H3 checkResults. unfold checkStatusChecks.
  rewrite (bind_Returns _ _ _ _ _ _ (perform_Returns _ _ _ _ _ H1)). simpl.
  rewrite (bind_Returns _ _ _ _ _ _ H2). simpl.
  rewrite (bind_Returns _ _ _ _ _ _ H3). simpl.
  now rewrite app_nil_r.
Qed.

(** C1 on the loop over the statuses.  That loop adds the context of
    every status to the mapping, required or not, while the loop over the
    check runs adds no key.  With the required check "build" and a status
    of the context "lint", the mapping ends with the keys "build" and
    "lint"; on a branch that requires no check, one successful status makes
    [checkStatusChecks] return nil. *)
Theorem foldStatuses_adds_keys :
  (forall statuses (m : gmap string string),
     dom (foldStatuses statuses m) =
     dom m ∪ list_to_set (context <$> statuses)) /\
  (forall checks (m : gmap string string), dom (foldCheckRuns checks m) = dom m) /\
  (let lint := {| appId := None; context := "lint"; conclusion := "success" |} in
   let seeded :=
     seedChecks [{| check_Context := "build"; check_AppID := None |}] ∅ in
   let checkResults := foldCheckRuns [] (foldStatuses [lint] seeded) in
   map_to_list seeded = [("build", "missing")] /\
   map_to_list checkResults = [("build", "missing"); ("lint", "success")]) /\
  checkStatusChecks (scripted unrequired) "owner" "repo" 3 "main" prB [prB] =
  Returns None [prB]
    [Called (Repositories_GetRequiredStatusChecks "main");
     Called (Repositories_GetCombinedStatus "abc123"
               {| Page := 0; PerPage := 0 |});
     Called (Checks_ListCheckRunsForRef "abc123" {| Page := 0; PerPage := 0 |})].
Proof.
  split; [exact foldStatuses_dom|]. split; [exact foldCheckRuns_dom|].
  split; [split|]; vm_compute; reflexivity.
Qed.


(** *** chooseActivePr *)

Lemma chooseActivePr_fold renovatePrs (activePr : option PullRequest) :
  fold_left (fun activePr pr => if GetMergeable pr then Some pr else activePr)
            renovatePrs activePr =
  match last (List.filter GetMergeable renovatePrs) with
  | Some pr => Some pr
  | None => activePr
  end.
Proof.
  revert activePr. induction renovatePrs as [|pr prs IH]; intros a; [done|].
  simpl. rewrite IH. destruct (GetMergeable pr); [|done].
  destruct (List.filter GetMergeable prs) as [|q l] eqn:E; [done|].
  change (last (pr :: q :: l)) with (last (q :: l)).
  destruct (last (q :: l)) eqn:El; [done|].
  now apply last_None in El.
Qed.

(** C6.  On a non-empty list [chooseActivePr] returns the last pull request
    in list order whose [GetMergeable] holds, and the first pull request of
    the list when there is none; when the loop over the open pull requests
    has kept none of them, [mergeStep] returns [(false, nil)] having made
    no further call. *)
Theorem chooseActivePr_selects :
  (forall first others,
     chooseActivePr (first :: others) =
     Some (default first (last (List.filter GetMergeable (first :: others))))) /\
  (forall W (client : platform W) org repo defaultBranch fuel w w1 t1,
     renovatePrs_loop client defaultBranch fuel ListGenerator_new [] w =
       Returns ([], None) w1 t1 ->
     mergeStep client org repo defaultBranch fuel w =
       Returns (false, None) w1 t1).
Proof.
  split.
  - intros first others. unfold chooseActivePr.
    rewrite chooseActivePr_fold.
    now destruct (last (List.filter GetMergeable (first :: others))).
  - intros W client org repo defaultBranch fuel w w1 t1 H.
    unfold mergeStep. rewrite (bind_Returns _ _ _ _ _ _ H). simpl.
    now rewrite app_nil_r.
Qed.

Lemma chooseActivePr_selects_witness :
  chooseActivePr [prA; prB; prC] = Some prC /\
  chooseActivePr [prA] = Some prA /\
  mergeStep (scripted green) "owner" "repo" "main" 2 [] =
    Returns (false, None) []
      [Called (PullRequests_List
                 {| list_State := "open"; list_Base := "main";
                    list_Sort := "created";
                    list_ListOptions := {| Page := 0; PerPage := 0 |} |})].
Proof.
  split; [|split].
  - apply (proj1 chooseActivePr_selects prA [prB; prC]).
  - apply (proj1 chooseActivePr_selects prA []).
  - apply (proj2 chooseActivePr_selects _ (scripted green)). reflexivity.
Defined.

(** *** mergePr *)

(** C7.  [mergePr] first gets the pull request again.  If that fails it
    returns the error; if what it got is not rebaseable it returns an error
    and the platform has seen the one [Get] call only.  Otherwise it makes
    one [Merge] call, with the squash method and the title of the pull
    request as commit title: on a response it returns nil exactly when the
    response says merged, and otherwise an error that ends with the message
    of the response. *)
Theorem mergePr_merges_rebaseable {W} (client : platform W)
    (activePr : PullRequest) (w w1 : W) refreshed err :
  client _ (PullRequests_Get (Number activePr)) w = ((refreshed, err), w1) ->
  let get := Called (PullRequests_Get (Number activePr)) in
  let merge :=
    PullRequests_Merge (GetNumber refreshed) (GetState refreshed)
      {| MergeMethod := "squash"; CommitTitle := GetTitle refreshed |} in
  let unable tail :=
    Errorf ("unable to merge " +:+ itoa (GetNumber refreshed) +:+
            " via squash method" +:+ tail) in
  match err with
  | Some e => mergePr client activePr w = Returns (Some e) w1 [get]
  | None =>
    if GetRebaseable refreshed then
      forall w2 response err2,
        client _ merge w1 = ((response, err2), w2) ->
        exists result,
          mergePr client activePr w = Returns result w2 [get; Called merge] /\
          match response, err2 with
          | Some r, _ =>
            (result = None <-> GetMerged r = true) /\
            (GetMerged r = false ->
             result = Some (unable (": " +:+ Message r)))
          | None, Some e => result = Some (unable (": " +:+ Error e))
          | None, None => result = None
          end
    else
      mergePr client activePr w =
      Returns (Some (unable ", it is not rebaseable")) w1 [get]
  end.
Proof.
  intros Hget get merge unable. unfold mergePr.
  rewrite (bind_Returns _ _ _ _ _ _ (perform_Returns _ _ _ _ _ Hget)).
  simpl. destruct err as [e|]; [reflexivity|].
  destruct (GetRebaseable refreshed) eqn:Hr; simpl.
  - intros w2 response err2 Hmerge.
    rewrite (bind_Returns _ _ _ _ _ _ (perform_Returns _ _ _ _ _ Hmerge)).
    simpl. destruct response as [r|].
    + destruct (GetMerged r) eqn:Hm; simpl.
      * eexists. split; [reflexivity|]. split; [done|]. discriminate.
      * eexists. split; [reflexivity|]. split; [split; discriminate|].
        intros _. reflexivity.
    + destruct err2 as [e|]; simpl.
      * eexists. split; reflexivity.
      * eexists. split; reflexivity.
  - reflexivity.
Qed.


Lemma mergePr_merges_rebaseable_witness :
  exists result,
    mergePr (scripted green) prB [prB] =
    Returns result []
      [Called (PullRequests_Get 2);
       Called (PullRequests_Merge 2 "open"
                 {| MergeMethod := "squash";
                    CommitTitle := "Update dependency" |})] /\
    (result = None <-> true = true) /\
    (true = false ->
     result = Some (Errorf ("unable to merge 2 via squash method: " +:+
                            "Pull Request successfully merged"))).
Proof.
  apply (mergePr_merges_rebaseable (scripted green) prB [prB] [prB]
           (Some prB) None eq_refl []
           (Some {| Merged := Some true;
                    Message := "Pull Request successfully merged" |}) None).
  reflexivity.
Defined.

(** *** approvePr *)

(** C9.  When no review of the pull request is approved and [CreateReview]
    returns no error, [approvePr] returns nil whatever [SubmitReview]
    returns: the error tested after the submit call is the one
    [CreateReview] returned. *)
Theorem approvePr_drops_submit_error {W} (client : platform W)
    (org repo : string) (fuel : nat) (activePr : PullRequest)
    (w w1 w2 w3 : W) t1 lgtmReview submitted :
  approvePr_loop client fuel activePr ListGenerator_new false w =
    Returns (false, None) w1 t1 ->
  client _ (PullRequests_CreateReview (Number activePr)
              (lgtmRequest activePr)) w1 = ((lgtmReview, None), w2) ->
  client _ (PullRequests_SubmitReview (Number activePr) (GetID lgtmReview)
              (lgtmRequest activePr)) w2 = (submitted, w3) ->
  approvePr client org repo fuel activePr w =
  Returns None w3
    (t1 ++ [Called (PullRequests_CreateReview (Number activePr)
                      (lgtmRequest activePr));
            Called (PullRequests_SubmitReview (Number activePr)
                      (GetID lgtmReview) (lgtmRequest activePr))]).
Proof.
  intros Hloop Hcreate Hsubmit. unfold approvePr.
  rewrite (bind_Returns _ _ _ _ _ _ Hloop). simpl.
  rewrite (bind_Returns _ _ _ _ _ _ (perform_Returns _ _ _ _ _ Hcreate)).
  simpl.
  rewrite (bind_Returns _ _ _ _ _ _ (perform_Returns _ _ _ _ _ Hsubmit)).
  reflexivity.
Qed.

Lemma approvePr_drops_submit_error_witness :
  approvePr (scripted unsubmitted) "owner" "repo" 3 prB [prB] =
  Returns None [prB]
    [Called (PullRequests_ListReviews 2 {| Page := 0; PerPage := 0 |});
     Called (PullRequests_CreateReview 2 (lgtmRequest prB));
     Called (PullRequests_SubmitReview 2 7 (lgtmRequest prB))].
Proof.
  apply (approvePr_drops_submit_error (scripted unsubmitted) "owner" "repo"
           3 prB [prB] [prB] [prB] [prB]
           [Called (PullRequests_ListReviews 2 {| Page := 0; PerPage := 0 |})]
           (Some {| review_ID := 7; review_State := "PENDING" |})
           (None, Some (Errorf "422 Unprocessable Entity")));
    reflexivity.
Defined.


(** *** mergeStep, phase by phase *)

Lemma chosen_nonempty prs activePr :
  chooseActivePr prs = Some activePr -> (len prs =? 0) = false.
Proof. now destruct prs. Qed.

Section Step.
Context {W : Type}.
Variable client : platform W.
Variables org repo defaultBranch : string.
Variable fuel : nat.

Let step : Go W (bool * option error) :=
  mergeStep client org repo defaultBranch fuel.

Lemma mergeStep_listing_error (w w1 : W) prs e t1 :
  renovatePrs_loop client defaultBranch fuel ListGenerator_new [] w =
    Returns (prs, Some e) w1 t1 ->
  step w = Returns (false, Some e) w1 t1.
Proof.
  intros H. unfold step, mergeStep.
  rewrite (bind_Returns _ _ _ _ _ _ H). simpl. now rewrite app_nil_r.
Qed.

Variables (w w1 : W) (prs : list PullRequest) (t1 : list event).
Variable activePr : PullRequest.
Hypothesis listed :
  renovatePrs_loop client defaultBranch fuel ListGenerator_new [] w =
    Returns (prs, None) w1 t1.
Hypothesis chosen : chooseActivePr prs = Some activePr.

Lemma mergeStep_gating_error e (w2 : W) t2 :
  approveWorkflowRuns client fuel activePr w1 = Returns (Some e) w2 t2 ->
  step w = Returns (true, Some e) w2 (t1 ++ t2).
Proof.
  intros H. unfold step, mergeStep.
  rewrite (bind_Returns _ _ _ _ _ _ listed). simpl.
  rewrite (chosen_nonempty _ _ chosen), chosen.
  rewrite (bind_Returns _ _ _ _ _ _ H). simpl. now rewrite app_nil_r.
Qed.

Lemma mergeStep_check_error e (w2 w3 : W) t2 t3 :
  approveWorkflowRuns client fuel activePr w1 = Returns None w2 t2 ->
  checkStatusChecks client org repo fuel defaultBranch activePr w2 =
    Returns (Some e) w3 t3 ->
  step w = Returns (bool_decide (e = ErrMissingCheck), Some e) w3
                   (t1 ++ t2 ++ t3).
Proof.
  intros H2 H3. unfold step, mergeStep.
  rewrite (bind_Returns _ _ _ _ _ _ listed). simpl.
  rewrite (chosen_nonempty _ _ chosen), chosen.
  rewrite (bind_Returns _ _ _ _ _ _ H2). simpl.
  rewrite (bind_Returns _ _ _ _ _ _ H3). simpl.
  destruct (decide (Some e = Some ErrMissingCheck)) as [Heq|Hne]; simpl.
  - injection Heq as ->. now rewrite app_nil_r.
  - rewrite bool_decide_eq_false_2 by congruence. now rewrite app_nil_r.
Qed.

Lemma mergeStep_approve_error e (w2 w3 w4 : W) t2 t3 t4 :
  approveWorkflowRuns client fuel activePr w1 = Returns None w2 t2 ->
  checkStatusChecks client org repo fuel defaultBranch activePr w2 =
    Returns None w3 t3 ->
  approvePr client org repo fuel activePr w3 = Returns (Some e) w4 t4 ->
  step w = Returns (true, Some e) w4 (t1 ++ t2 ++ t3 ++ t4).
Proof.
  intros H2 H3 H4. unfold step, mergeStep.
  rewrite (bind_Returns _ _ _ _ _ _ listed). simpl.
  rewrite (chosen_nonempty _ _ chosen), chosen.
  rewrite (bind_Returns _ _ _ _ _ _ H2). simpl.
  rewrite (bind_Returns _ _ _ _ _ _ H3). simpl.
  rewrite (bind_Returns _ _ _ _ _ _ H4). simpl. now rewrite app_nil_r.
Qed.

Lemma mergeStep_merge_result r (w2 w3 w4 w5 : W) t2 t3 t4 t5 :
  approveWorkflowRuns client fuel activePr w1 = Returns None w2 t2 ->
  checkStatusChecks client org repo fuel defaultBranch activePr w2 =
    Returns None w3 t3 ->
  approvePr client org repo fuel activePr w3 = Returns None w4 t4 ->
  mergePr client activePr w4 = Returns r w5 t5 ->
  step w = Returns (true, r) w5 (t1 ++ t2 ++ t3 ++ t4 ++ t5).
Proof.
  intros H2 H3 H4 H5. unfold step, mergeStep.
  rewrite (bind_Returns _ _ _ _ _ _ listed). simpl.
  rewrite (chosen_nonempty _ _ chosen), chosen.
  rewrite (bind_Returns _ _ _ _ _ _ H2). simpl.
  rewrite (bind_Returns _ _ _ _ _ _ H3). simpl.
  rewrite (bind_Returns _ _ _ _ _ _ H4). simpl.
  rewrite (bind_Returns _ _ _ _ _ _ H5). simpl. now rewrite app_nil_r.
Qed.

End Step.

(** *** One turn of the loop of MergePRs *)

Section Turn.
Context {W : Type}.
Variable step : Go W (bool * option error).
Variables (n : nat) (i errCount : Z) (err0 : option error).
Hypothesis inside : i < 100 /\ errCount < 10.

Lemma inside_cond : (i <? 100) && (errCount <? 10) = true.
Proof.
  destruct inside as [Hi He].
  now rewrite (proj2 (Z.ltb_lt _ _) Hi), (proj2 (Z.ltb_lt _ _) He).
Qed.

Lemma MergePRs_loop_stop (w w' : W) err t :
  step w = Returns (false, err) w' t ->
  MergePRs_loop step (S n) i errCount err0 w =
  Returns err w' (Iteration i :: t).
Proof.
  intros H. simpl. rewrite inside_cond.
  unfold mbind at 1, Go_bind at 1, emit.
  rewrite (bind_Returns _ _ _ _ _ _ H). simpl. now rewrite app_nil_r.
Qed.

Lemma MergePRs_loop_retry (w w' : W) e t :
  step w = Returns (true, Some e) w' t ->
  MergePRs_loop step (S n) i errCount err0 w =
  after (Iteration i :: t ++ [Slept 2])
        (MergePRs_loop step n (i + 1) (errCount + 1) (Some e) w').
Proof.
  intros H. simpl. rewrite inside_cond.
  unfold mbind at 1, Go_bind at 1, emit.
  rewrite (bind_Returns _ _ _ _ _ _ H). simpl.
  unfold mbind at 1, Go_bind at 1.
  rewrite !after_after. reflexivity.
Qed.

Lemma MergePRs_loop_merged (w w' : W) t :
  step w = Returns (true, None) w' t ->
  MergePRs_loop step (S n) i errCount err0 w =
  after (Iteration i :: t) (MergePRs_loop step n (i + 1) 0 None w').
Proof.
  intros H. simpl. rewrite inside_cond.
  unfold mbind at 1, Go_bind at 1, emit.
  rewrite (bind_Returns _ _ _ _ _ _ H). simpl.
  rewrite !after_after. reflexivity.
Qed.

End Turn.

Lemma MergePRs_loop_exit {W} (step : Go W (bool * option error))
    n i errCount err (w : W) :
  100 <= i \/ 10 <= errCount ->
  MergePRs_loop step (S n) i errCount err w = Returns err w [].
Proof.
  intros H. simpl.
  assert ((i <? 100) && (errCount <? 10) = false) as ->; [|done].
  apply andb_false_iff. destruct H; [left|right]; apply Z.ltb_ge; lia.
Qed.


(** *** The loop of MergePRs as a whole *)

Section Loop.
Context {W : Type}.
Variable step : Go W (bool * option error).

(** [runs w history w']: calling [step] again and again from [w] gives
    these answers and events in turn, and leaves the world [w']. *)
Inductive runs : W -> list ((bool * option error) * list event) -> W -> Prop :=
| runs_nil w : runs w [] w
| runs_cons w r t w1 rest w2 :
    step w = Returns r w1 t -> runs w1 rest w2 ->
    runs w ((r, t) :: rest) w2.

(** A step that has more to do and returned an error. *)
Definition failed (r : bool * option error) : bool :=
  match snd r with Some _ => true | None => false end.

Fixpoint leading (rs : list (bool * option error)) : nat :=
  match rs with
  | r :: rs' => if failed r then S (leading rs') else O
  | [] => O
  end.

(** How many failed steps in a row the answers end with. *)
Definition streak (rs : list (bool * option error)) : nat :=
  leading (rev rs).

(** After steps with these answers the loop goes no further: the last
    step had no more to do, or 99 steps are done, or the last 10 steps
    failed. *)
Definition halts (rs : list (bool * option error)) : bool :=
  from_option (fun r => negb (fst r)) false (last rs) ||
  (99 <=? length rs)%nat || (10 <=? streak rs)%nat.

(** The loop halts after these answers and after no shorter run of
    them. *)
Definition stops_at (rs : list (bool * option error)) : bool :=
  halts rs && forallb (fun j => negb (halts (take j rs))) (seq 0 (length rs)).

(** What [MergePRs] returns: the error of the last step. *)
Definition final (rs : list (bool * option error)) : option error :=
  from_option snd None (last rs).

(** The events of a run that starts with iteration [i]. *)
Fixpoint log (i : Z) (history : list ((bool * option error) * list event))
  : list event :=
  match history with
  | [] => []
  | (r, t) :: rest =>
    Iteration i :: t ++
    (if fst r && failed r then [Slept 2] else []) ++ log (i + 1) rest
  end.

Lemma streak_snoc rs r :
  streak (rs ++ [r]) = if failed r then S (streak rs) else O.
Proof. unfold streak. now rewrite rev_app_distr. Qed.

Lemma halts_false rs :
  halts rs = false ->
  (length rs < 99)%nat /\ (streak rs < 10)%nat /\
  (forall r, last rs = Some r -> fst r = true).
Proof.
  unfold halts. intros H.
  apply orb_false_iff in H as [H H3]. apply orb_false_iff in H as [H1 H2].
  apply Nat.leb_gt in H2, H3. repeat split; [lia..|].
  intros r Hr. rewrite Hr in H1. cbn [from_option] in H1.
  now apply negb_false_iff in H1.
Qed.

Lemma halts_snoc_more rs r :
  fst r = true -> halts (rs ++ [r]) = true ->
  (98 <= length rs)%nat \/ (10 <= streak (rs ++ [r]))%nat.
Proof.
  unfold halts. intros Hr H. rewrite last_snoc in H.
  cbn [from_option] in H. rewrite Hr in H. cbn [negb orb] in H.
  rewrite length_app in H.
  apply orb_true_iff in H as [H|H]; apply Nat.leb_le in H;
    cbn [length] in H; lia.
Qed.

Lemma stops_at_spec rs :
  stops_at rs = true <->
  halts rs = true /\ forall j, (j < length rs)%nat -> halts (take j rs) = false.
Proof.
  unfold stops_at. rewrite andb_true_iff, forallb_forall.
  split; intros [H1 H2]; (split; [exact H1|]).
  - intros j Hj. apply negb_true_iff, H2, in_seq. lia.
  - intros j Hj. apply in_seq in Hj. apply negb_true_iff, H2. lia.
Qed.

Lemma loop_history todo : forall past n (w w' : W) err0,
  runs w todo w' -> todo <> [] -> (length todo < n)%nat ->
  (forall j, (j < length todo)%nat ->
             halts (past ++ take j (map fst todo)) = false) ->
  halts (past ++ map fst todo) = true ->
  MergePRs_loop step n (Z.of_nat (length past) + 1) (Z.of_nat (streak past))
                err0 w =
  Returns (final (map fst todo)) w' (log (Z.of_nat (length past) + 1) todo).
Proof.
  induction todo as [|[[hasMore err] t] rest IH];
    intros past n w w' err0 Hruns Hne Hn Hgo Hstop; [done|].
  inversion Hruns as [|? ? ? w1 ? ? Hstep Hrest]; subst.
  destruct n as [|n]; [simpl in Hn; lia|].
  pose proof (Hgo O ltac:(simpl; lia)) as H0.
  simpl in H0. rewrite app_nil_r in H0.
  apply halts_false in H0 as (Hlen & Hstreak & _).
  assert (Z.of_nat (length past) + 1 < 100 /\ Z.of_nat (streak past) < 10)
    as Hin by lia.
  assert (forall j, (j < length rest)%nat ->
            halts ((past ++ [(hasMore, err)]) ++ take j (map fst rest)) = false)
    as Hgo'.
  { intros j Hj. rewrite <- app_assoc. apply (Hgo (S j)). simpl. lia. }
  assert (halts ((past ++ [(hasMore, err)]) ++ map fst rest) = true) as Hstop'
    by (now rewrite <- app_assoc).
  assert (Z.of_nat (length past) + 1 + 1 =
          Z.of_nat (length (past ++ [(hasMore, err)])) + 1) as Hi
    by (rewrite length_app; simpl; lia).
  destruct hasMore.
  - destruct err as [e|].
    + rewrite (MergePRs_loop_retry step n _ _ err0 Hin _ _ _ _ Hstep).
      destruct rest as [|x rest'].
      * inversion Hrest; subst. simpl in Hstop.
        apply halts_snoc_more in Hstop as [Hs|Hs]; [| |done].
        -- destruct n as [|n]; [simpl in Hn; lia|].
           rewrite MergePRs_loop_exit by lia. simpl.
           now rewrite !app_nil_r.
        -- destruct n as [|n]; [simpl in Hn; lia|].
           rewrite streak_snoc in Hs. simpl in Hs.
           rewrite MergePRs_loop_exit by lia. simpl.
           now rewrite !app_nil_r.
      * rewrite Hi.
        replace (Z.of_nat (streak past) + 1)
          with (Z.of_nat (streak (past ++ [(true, Some e)])))
          by (rewrite streak_snoc; simpl; lia).
        rewrite (IH _ n w1 w' (Some e) Hrest); try done; [|simpl in *; lia].
        simpl. rewrite <- Hi. now rewrite <- !app_assoc.
    + rewrite (MergePRs_loop_merged step n _ _ err0 Hin _ _ _ Hstep).
      destruct rest as [|x rest'].
      * inversion Hrest; subst. simpl in Hstop.
        apply halts_snoc_more in Hstop as [Hs|Hs]; [| |done].
        -- destruct n as [|n]; [simpl in Hn; lia|].
           rewrite MergePRs_loop_exit by lia. simpl.
           now rewrite !app_nil_r.
        -- rewrite streak_snoc in Hs. simpl in Hs. lia.
      * rewrite Hi.
        change 0 with (Z.of_nat O).
        replace O with (streak (past ++ [(true, None)]))
          by (now rewrite streak_snoc).
        rewrite (IH _ n w1 w' None Hrest); try done; [|simpl in *; lia].
        simpl. now rewrite <- Hi.
  - rewrite (MergePRs_loop_stop step n _ _ err0 Hin _ _ _ _ Hstep).
    destruct rest as [|x rest'].
    + inversion Hrest; subst. simpl. now rewrite app_nil_r.
    + exfalso. pose proof (Hgo 1%nat ltac:(simpl; lia)) as H1.
      simpl in H1. apply halts_false in H1 as (_ & _ & H1).
      specialize (H1 (false, err)). rewrite last_snoc in H1.
      now specialize (H1 eq_refl).
Qed.

Lemma snoc_app {A} (l1 l2 : list A) (x : A) :
  l1 ++ x :: l2 = (l1 ++ [x]) ++ l2.
Proof. now rewrite <- app_assoc. Qed.

Lemma steps_exist :
  (forall w, exists r w' t, step w = Returns r w' t) ->
  forall m past (w : W),
    halts past = false -> (length past + m = 99)%nat ->
    exists todo w',
      runs w todo w' /\ todo <> [] /\
      (forall j, (j < length todo)%nat ->
                 halts (past ++ take j (map fst todo)) = false) /\
      halts (past ++ map fst todo) = true.
Proof.
  intros Htotal. induction m as [|m IH]; intros past w Hd Hm.
  - apply halts_false in Hd as (Hlen & _). lia.
  - destruct (Htotal w) as (r & w1 & t & Hstep).
    destruct (halts (past ++ [r])) eqn:Hh.
    + exists [(r, t)], w1. repeat split.
      * eapply runs_cons; [exact Hstep | apply runs_nil].
      * done.
      * intros j Hj. simpl in Hj. assert (j = O) as -> by lia.
        simpl. now rewrite app_nil_r.
      * exact Hh.
    + destruct (IH (past ++ [r]) w1 Hh) as (todo & w' & Hr & _ & Hgo & Hstop).
      { rewrite length_app. simpl. lia. }
      exists ((r, t) :: todo), w'. repeat split.
      * eapply runs_cons; eauto.
      * done.
      * intros [|j] Hj; simpl.
        -- now rewrite app_nil_r.
        -- rewrite snoc_app. apply Hgo. simpl in Hj. lia.
      * simpl. now rewrite snoc_app.
Qed.

End Loop.


Lemma runs_app {W} (step : Go W (bool * option error)) (w w1 w2 : W) h1 h2 :
  runs step w h1 w1 -> runs step w1 h2 w2 -> runs step w (h1 ++ h2) w2.
Proof.
  induction 1 as [|? ? ? ? ? ? Hstep _ IH]; intros H2; [exact H2|].
  simpl. eapply runs_cons; eauto.
Qed.

Lemma halts_merges k :
  (k < 99)%nat -> halts (replicate k (true, None)) = false.
Proof.
  intros Hk. unfold halts. rewrite length_replicate.
  rewrite (proj2 (Nat.leb_gt _ _) Hk), orb_false_r.
  assert (streak (replicate k (true, None)) = O) as ->.
  { unfold streak.
    destruct (rev (replicate k (true, @None error))) as [|p l] eqn:E; [done|].
    assert (In p (rev (replicate k (true, @None error)))) as Hp
      by (rewrite E; now left).
    apply in_rev, list_elem_of_In, elem_of_replicate_inv in Hp. now subst. }
  rewrite orb_false_r.
  destruct k as [|k]; [done|].
  now rewrite replicate_S_end, last_snoc.
Qed.

Lemma stops_at_merges k :
  (k < 99)%nat ->
  stops_at (replicate k (true, None) ++ [(false, None)]) = true.
Proof.
  intros Hk. apply stops_at_spec. split.
  - unfold halts. now rewrite last_snoc.
  - intros j Hj. rewrite length_app, length_replicate in Hj. simpl in Hj.
    rewrite take_app_le by (rewrite length_replicate; lia).
    rewrite take_replicate. apply halts_merges. lia.
Qed.

Lemma stops_at_bound rs : stops_at rs = true -> (1 <= length rs <= 99)%nat.
Proof.
  intros [Hh Hgo]%stops_at_spec. split.
  - destruct rs; [discriminate Hh | simpl; lia].
  - destruct (decide (length rs <= 99)%nat) as [|Hgt]; [done|].
    specialize (Hgo 99%nat ltac:(lia)).
    apply halts_false in Hgo as (Hlen & _).
    rewrite length_take in Hlen. lia.
Qed.

(** C8.  The loop of [MergePRs], for any step function.  (1) Whenever the
    steps return, the loop returns, after a run of steps that halts the
    loop for the first time: the last step had no more to do, or it was
    the 99th, or it was the 10th failed step in a row; a merged step ends
    such a row.  (2) [MergePRs] then returns the error of the last step,
    having slept after each failed step.  (3) Such a run has at most 99
    steps.  (4) A step that has no more to do ends the loop at once: after
    one step when it is the first, so with [ErrFailedCheck] on a failed
    verdict (5), and with no error when, after up to 98 merges, no pull
    request is left (6). *)
Theorem MergePRs_terminates :
  (forall W (step : Go W (bool * option error)),
     (forall w, exists r w' t, step w = Returns r w' t) ->
     forall w, exists history w',
       runs step w history w' /\ stops_at (map fst history) = true) /\
  (forall W (step : Go W (bool * option error)) w history w',
     runs step w history w' -> stops_at (map fst history) = true ->
     MergePRs_loop step 100 1 0 None w =
     Returns (final (map fst history)) w' (log 1 history)) /\
  (forall rs, stops_at rs = true -> (1 <= length rs <= 99)%nat) /\
  (forall W (step : Go W (bool * option error)) w w' t err,
     step w = Returns (false, err) w' t ->
     MergePRs_loop step 100 1 0 None w = Returns err w' (Iteration 1 :: t)) /\
  (forall W (client : platform W) org repo defaultBranch fuel
          w w1 w2 w3 prs activePr t1 t2 t3,
     renovatePrs_loop client defaultBranch fuel ListGenerator_new [] w =
       Returns (prs, None) w1 t1 ->
     chooseActivePr prs = Some activePr ->
     approveWorkflowRuns client fuel activePr w1 = Returns None w2 t2 ->
     checkStatusChecks client org repo fuel defaultBranch activePr w2 =
       Returns (Some ErrFailedCheck) w3 t3 ->
     MergePRs client org repo defaultBranch fuel w =
     Returns (Some ErrFailedCheck) w3 (Iteration 1 :: t1 ++ t2 ++ t3)) /\
  (forall W (step : Go W (bool * option error)) w merges w' t w'',
     runs step w merges w' -> (length merges <= 98)%nat ->
     Forall (fun m => fst m = (true, None)) merges ->
     step w' = Returns (false, None) w'' t ->
     MergePRs_loop step 100 1 0 None w =
     Returns None w'' (log 1 (merges ++ [((false, None), t)]))).
Proof.
  assert (forall W (step : Go W (bool * option error)) w history w',
            runs step w history w' -> stops_at (map fst history) = true ->
            MergePRs_loop step 100 1 0 None w =
            Returns (final (map fst history)) w' (log 1 history)) as Hrun.
  { intros W step w history w' Hruns Hstop.
    pose proof (stops_at_bound _ Hstop) as [Hlo Hhi].
    rewrite length_map in Hlo, Hhi.
    apply stops_at_spec in Hstop as [Hh Hgo].
    apply (loop_history step history [] 100 w w' None Hruns).
    - intros ->. simpl in Hlo. lia.
    - lia.
    - intros j Hj. apply Hgo. rewrite length_map. exact Hj.
    - exact Hh. }
  assert (forall W (step : Go W (bool * option error)) w w' t err,
            step w = Returns (false, err) w' t ->
            MergePRs_loop step 100 1 0 None w =
            Returns err w' (Iteration 1 :: t)) as Hone.
  { intros W step w w' t err Hstep.
    apply MergePRs_loop_stop; [lia | exact Hstep]. }
  split; [|split; [exact Hrun|split; [exact stops_at_bound|split;
    [exact Hone|split]]]].
  - intros W step Htotal w.
    destruct (steps_exist step Htotal 99 [] w eq_refl eq_refl)
      as (todo & w' & Hruns & Hne & Hgo & Hstop).
    exists todo, w'. split; [exact Hruns|].
    apply stops_at_spec. split; [exact Hstop|].
    intros j Hj. apply (Hgo j). now rewrite length_map in Hj.
  - intros W client org repo defaultBranch fuel w w1 w2 w3 prs activePr
           t1 t2 t3 Hlist Hchosen Hgate Hcheck.
    apply Hone.
    apply (mergeStep_check_error client org repo defaultBranch fuel
             w w1 prs t1 activePr Hlist Hchosen ErrFailedCheck w2 w3 t2 t3
             Hgate Hcheck).
  - intros W step w merges w' t w'' Hruns Hlen Hall Hstep.
    assert (map fst merges = replicate (length merges) (true, None)) as Hm.
    { clear -Hall. induction Hall as [|[r e] l Hr _ IH]; [done|].
      simpl in Hr. simpl. now rewrite Hr, IH. }
    rewrite (Hrun W step w (merges ++ [((false, None), t)]) w'').
    + unfold final. rewrite map_app. cbn [map fst].
      rewrite last_snoc. reflexivity.
    + eapply runs_app; [exact Hruns|].
      eapply runs_cons; [exact Hstep | apply runs_nil].
    + rewrite map_app, Hm. cbn [map fst].
      apply stops_at_merges. lia.
Qed.


Lemma MergePRs_terminates_witness :
  MergePRs (scripted pending) "owner" "repo" "main" 3 [prB] =
  Returns (Some ErrMissingCheck) [prB]
    (log 1 (replicate 10 ((true, Some ErrMissingCheck), pendingEvents))).
Proof.
  unfold MergePRs.
  apply (proj1 (proj2 MergePRs_terminates) _
           (mergeStep (scripted pending) "owner" "repo" "main" 3) [prB]
           (replicate 10 ((true, Some ErrMissingCheck), pendingEvents)) [prB]).
  - repeat (eapply runs_cons; [reflexivity|]). apply runs_nil.
  - reflexivity.
Defined.

(** A failed required check: the run ends with [ErrFailedCheck] after its
    first iteration, the approval and the merge are never reached. *)
Example failed_check_ends_run :
  MergePRs (scripted red) "owner" "repo" "main" 3 [prB] =
  Returns (Some ErrFailedCheck) [prB] (Iteration 1 :: pendingEvents).
Proof. vm_compute. reflexivity. Qed.

(** C5, as amended.  What a step does with the first error of its phases,
    and the loop with the answer of the step.  An error from approving
    workflow runs, from approving the pull request or from merging is
    returned with [true]: the loop sleeps and goes on with the next
    iteration.  From the check phase [ErrMissingCheck] alone is returned
    with [true]; any other error of that phase, [ErrFailedCheck] or an
    error of the client, is returned with [false], as is an error while
    listing the pull requests: the loop returns it at once. *)
Theorem mergeStep_error_handling {W} (client : platform W)
    (org repo defaultBranch : string) (fuel : nat) :
  let step := mergeStep client org repo defaultBranch fuel in
  let listing :=
    renovatePrs_loop client defaultBranch fuel ListGenerator_new [] in
  (forall w w1 prs t1 e,
     listing w = Returns (prs, Some e) w1 t1 ->
     step w = Returns (false, Some e) w1 t1) /\
  (forall w w1 prs t1 activePr,
     listing w = Returns (prs, None) w1 t1 ->
     chooseActivePr prs = Some activePr ->
     (forall e w2 t2,
        approveWorkflowRuns client fuel activePr w1 = Returns (Some e) w2 t2 ->
        step w = Returns (true, Some e) w2 (t1 ++ t2)) /\
     (forall w2 t2,
        approveWorkflowRuns client fuel activePr w1 = Returns None w2 t2 ->
        (forall e w3 t3,
           checkStatusChecks client org repo fuel defaultBranch activePr w2 =
             Returns (Some e) w3 t3 ->
           step w = Returns (bool_decide (e = ErrMissingCheck), Some e) w3
                            (t1 ++ t2 ++ t3)) /\
        (forall w3 t3,
           checkStatusChecks client org repo fuel defaultBranch activePr w2 =
             Returns None w3 t3 ->
           (forall e w4 t4,
              approvePr client org repo fuel activePr w3 =
                Returns (Some e) w4 t4 ->
              step w = Returns (true, Some e) w4 (t1 ++ t2 ++ t3 ++ t4)) /\
           (forall w4 t4 err w5 t5,
              approvePr client org repo fuel activePr w3 =
                Returns None w4 t4 ->
              mergePr client activePr w4 = Returns err w5 t5 ->
              step w = Returns (true, err) w5
                               (t1 ++ t2 ++ t3 ++ t4 ++ t5))))) /\
  (forall n i errCount err0 w w' t,
     i < 100 /\ errCount < 10 ->
     (forall e,
        step w = Returns (true, Some e) w' t ->
        MergePRs_loop step (S n) i errCount err0 w =
        after (Iteration i :: t ++ [Slept 2])
              (MergePRs_loop step n (i + 1) (errCount + 1) (Some e) w')) /\
     (forall err,
        step w = Returns (false, err) w' t ->
        MergePRs_loop step (S n) i errCount err0 w =
        Returns err w' (Iteration i :: t))).
Proof.
  intros step listing. split; [|split].
  - intros w w1 prs t1 e H. eapply mergeStep_listing_error; eauto.
  - intros w w1 prs t1 activePr Hlist Hchosen. split.
    { intros e w2 t2 H2. eapply mergeStep_gating_error; eauto. }
    intros w2 t2 H2. split.
    { intros e w3 t3 H3. eapply mergeStep_check_error; eauto. }
    intros w3 t3 H3. split.
    { intros e w4 t4 H4. eapply mergeStep_approve_error; eauto. }
    intros w4 t4 err w5 t5 H4 H5. eapply mergeStep_merge_result; eauto.
  - intros n i errCount err0 w w' t Hin. split.
    + intros e H. now apply MergePRs_loop_retry.
    + intros err H. now apply MergePRs_loop_stop.
Qed.

Lemma mergeStep_error_handling_witness :
  mergeStep (scripted pending) "owner" "repo" "main" 3 [prB] =
  Returns (true, Some ErrMissingCheck) [prB] pendingEvents.
Proof.
  destruct (mergeStep_error_handling (scripted pending) "owner" "repo" "main" 3)
    as (_ & Hphases & _).
  destruct (Hphases [prB] [prB] [prB]
              [Called (PullRequests_List
                         {| list_State := "open"; list_Base := "main";
                            list_Sort := "created";
                            list_ListOptions :=
                              {| Page := 0; PerPage := 0 |} |})]
              prB eq_refl eq_refl) as (_ & Hgated).
  destruct (Hgated [prB]
              [Called (Actions_ListRepositoryWorkflowRuns
                         {| runs_Event := "pull_request";
                            runs_Status := "action_required";
                            runs_Branch := "renovate/dep";
                            runs_ListOptions :=
                              {| Page := 0; PerPage := 0 |} |})]
              eq_refl) as (Hcheck & _).
  apply (Hcheck ErrMissingCheck [prB]
           [Called (Repositories_GetRequiredStatusChecks "main");
            Called (Repositories_GetCombinedStatus "abc123"
                      {| Page := 0; PerPage := 0 |});
            Called (Checks_ListCheckRunsForRef "abc123"
                      {| Page := 0; PerPage := 0 |})]).
  reflexivity.
Defined.

(** C5 as stated fails on an error of the client in the check phase: the
    step returns it with [false], and [MergePRs] returns it after this one
    iteration, without sleeping. *)
Lemma check_phase_client_error_ends_run :
  mergeStep (scripted outage) "owner" "repo" "main" 3 [prB] =
    Returns (false, Some (Errorf "502 Bad Gateway")) [prB]
      [Called (PullRequests_List
                 {| list_State := "open"; list_Base := "main";
                    list_Sort := "created";
                    list_ListOptions := {| Page := 0; PerPage := 0 |} |});
       Called (Actions_ListRepositoryWorkflowRuns
                 {| runs_Event := "pull_request";
                    runs_Status := "action_required";
                    runs_Branch := "renovate/dep";
                    runs_ListOptions := {| Page := 0; PerPage := 0 |} |});
       Called (Repositories_GetRequiredStatusChecks "main")] /\
  MergePRs (scripted outage) "owner" "repo" "main" 3 [prB] =
    Returns (Some (Errorf "502 Bad Gateway")) [prB]
      [Iteration 1;
       Called (PullRequests_List
                 {| list_State := "open"; list_Base := "main";
                    list_Sort := "created";
                    list_ListOptions := {| Page := 0; PerPage := 0 |} |});
       Called (Actions_ListRepositoryWorkflowRuns
                 {| runs_Event := "pull_request";
                    runs_Status := "action_required";
                    runs_Branch := "renovate/dep";
                    runs_ListOptions := {| Page := 0; PerPage := 0 |} |});
       Called (Repositories_GetRequiredStatusChecks "main")].
Proof. split; reflexivity. Qed.

End renovatepr_properties.

(** ** More on the paged list generator *)

Module model_extras.
Import github model model_properties.

(** *** What holds for every fetch function *)

Section AnyRetrieve.
Context {W GithubType ItemType : Type}.
Variable Retrieve : ListOptions -> Go W (retrieved GithubType ItemType).
Implicit Types (g : PagedListGenerator GithubType ItemType).

(** What a generator at its end answers to a call. *)
Definition atEnd (c : method) : seen GithubType ItemType :=
  match c with
  | CallHasNext => SawHasNext false
  | CallNext => SawNext (None, None, Some EndOfList)
  end.

(** X1.  Once [endOfList] is set, whatever the fetch function and whatever
    the calls: no call fetches, none changes the generator or the world,
    [HasNext] answers [false] and [Next] returns [EndOfList]. *)
Theorem end_is_final g (calls : list method) (w : W) :
  endOfList g = true ->
  drive Retrieve calls g w = Returns (g, atEnd <$> calls) w [].
Proof.
  intros He. induction calls as [|[|] calls IH]; [reflexivity| |].
  - simpl drive.
    assert (HasNext Retrieve g w = Returns (g, false) w []) as H
      by (unfold HasNext; now rewrite He).
    rewrite (bind_quiet _ _ _ _ _ H). simpl.
    now rewrite (bind_quiet _ _ _ _ _ IH).
  - simpl drive.
    assert (Next Retrieve g w = Returns (g, (None, None, Some EndOfList)) w [])
      as H by (unfold Next; now rewrite He).
    rewrite (bind_quiet _ _ _ _ _ H). simpl.
    now rewrite (bind_quiet _ _ _ _ _ IH).
Qed.

(** X2.  While the page in hand has an item under the index, [HasNext]
    answers [true] without fetching and leaves the generator as it is, as
    often as it is called, and [Next] returns that item with the page in
    hand, without fetching, and moves the index by one. *)
Theorem no_fetch_within_page g it (w : W) :
  endOfList g = false -> at_index (items g) (index g) = Some it ->
  HasNext Retrieve g w = Returns (g, true) w [] /\
  exists g',
    Next Retrieve g w = Returns (g', (page g, Some it, None)) w [] /\
    index g' = index g + 1 /\ items g' = items g /\ page g' = page g /\
    nextPage g' = nextPage g /\ lastPage g' = lastPage g.
Proof.
  intros He Hit.
  assert ((len (items g) <=? index g) = false) as Hcmp.
  { unfold at_index in Hit.
    destruct ((0 <=? index g) && (index g <? len (items g))) eqn:E;
      [|discriminate].
    apply andb_true_iff in E as [_ E]. apply Z.ltb_lt in E.
    apply Z.leb_gt. lia. }
  assert (getNextPage Retrieve g w = Returns (g, None) w []) as Hg.
  { unfold getNextPage. now rewrite Hcmp, andb_false_r. }
  split.
  - unfold HasNext. rewrite He. simpl.
    rewrite (bind_quiet _ _ _ _ _ Hg). simpl. now rewrite He.
  - unfold Next. rewrite He.
    rewrite (bind_quiet _ _ _ _ _ Hg). simpl.
    rewrite Hcmp. simpl. rewrite Hit. eexists. split; [reflexivity|].
    now simpl.
Qed.

Lemma HasNext_after_getNextPage g g' err (w w1 : W) t1 :
  endOfList g = false ->
  getNextPage Retrieve g w = Returns (g', err) w1 t1 ->
  HasNext Retrieve g w = Returns (g', negb (endOfList g')) w1 t1.
Proof.
  intros He Hg. unfold HasNext. rewrite He. simpl.
  rewrite (bind_Returns _ _ _ _ _ _ Hg). simpl. now rewrite app_nil_r.
Qed.

(** X3.  A fetch that brings an empty page: when it is the last page,
    [HasNext] answers [false], [Next] returns [EndOfList], and either one
    sets [endOfList]; when a further page is announced, [HasNext] answers
    [true] although no item is in hand, and [Next] indexes into the empty
    page and panics. *)
Theorem fetched_empty_page g pg r (w w1 : W) t1 :
  endOfList g = false -> lastPage g = false -> len (items g) <= index g ->
  Retrieve (fetchOf g) w = Returns (pg, [], Some r, None) w1 t1 ->
  if NextPage r =? 0 then
    (exists g1, HasNext Retrieve g w = Returns (g1, false) w1 t1 /\
                endOfList g1 = true) /\
    (exists g1, Next Retrieve g w =
                  Returns (g1, (None, None, Some EndOfList)) w1 t1 /\
                endOfList g1 = true)
  else
    (exists g1, HasNext Retrieve g w = Returns (g1, true) w1 t1) /\
    Next Retrieve g w = Panics IndexOutOfRange.
Proof.
  intros He Hl Hi Hr.
  pose proof (getNextPage_fetched Retrieve g pg [] r w w1 t1 Hl Hi Hr) as Hg.
  rewrite (HasNext_after_getNextPage _ _ _ _ _ _ He Hg).
  unfold Next. rewrite He.
  rewrite (bind_Returns _ _ _ _ _ _ Hg). simpl.
  destruct (NextPage r =? 0) eqn:E; simpl; rewrite ?app_nil_r.
  - split; eexists; (split; [reflexivity|]); reflexivity.
  - split; [eexists|]; reflexivity.
Qed.

End AnyRetrieve.

Lemma end_is_final_witness :
  drive examples.broken [CallNext; CallHasNext; CallNext]
        (with_endOfList true new) tt =
  Returns (with_endOfList true new,
           [SawNext (None, None, Some EndOfList); SawHasNext false;
            SawNext (None, None, Some EndOfList)]) tt [].
Proof.
  apply (end_is_final examples.broken (with_endOfList true new)
           [CallNext; CallHasNext; CallNext] tt).
  reflexivity.
Defined.

(** A generator in the middle of the one page ["a"; "b"], with a further
    page announced. *)
Definition midPage : PagedListGenerator string string :=
  {| index := 1; nextPage := 2; page := Some "page 1"; items := ["a"; "b"];
     opts := {| Page := 0; PerPage := 0 |};
     endOfList := false; lastPage := false |}.

Lemma no_fetch_within_page_witness :
  HasNext examples.broken midPage tt = Returns (midPage, true) tt [] /\
  exists g',
    Next examples.broken midPage tt =
      Returns (g', (Some "page 1", Some "b", None)) tt [] /\
    index g' = 2 /\ items g' = ["a"; "b"] /\ page g' = Some "page 1" /\
    nextPage g' = 2 /\ lastPage g' = false.
Proof.
  apply (no_fetch_within_page examples.broken midPage "b" tt); reflexivity.
Defined.

Lemma fetched_empty_page_witness :
  (exists g1, HasNext (W:=unit) (serve examples.gapped)
                (with_index 2 midPage) tt = Returns (g1, true) tt []) /\
  Next (W:=unit) (serve examples.gapped) (with_index 2 midPage) tt =
    Panics IndexOutOfRange.
Proof.
  apply (fetched_empty_page (serve examples.gapped) (with_index 2 midPage)
           (Some "page 2") {| NextPage := 3 |} tt tt []);
    [reflexivity | reflexivity | unfold len; simpl; lia | reflexivity].
Defined.

(** *** A fetch function that serves a listing

    [serves Retrieve pages fetching]: asked for a page of [pages],
    whatever the world, [Retrieve] returns the page object and the items of
    that page and announces the next one; it may change the world, and the
    events it leaves all satisfy [fetching]. *)
Section Served.
Context {W GithubType ItemType : Type}.
Variable Retrieve : ListOptions -> Go W (retrieved GithubType ItemType).
Variable pages : listing (option GithubType) ItemType.
Variable fetching : event -> bool.
Implicit Types (g : PagedListGenerator GithubType ItemType).
Implicit Types (rest : list (option GithubType * ItemType)).

Definition nextOf (n : nat) : Z :=
  if bool_decide (S n < length pages)%nat then Z.of_nat n + 2 else 0.

Definition serves : Prop :=
  pages <> [] /\
  forall n p its o (w : W),
    pages !! n = Some (p, its) -> pageIndex o = n ->
    exists w' t,
      Retrieve o w =
        Returns (p, its, Some {| NextPage := nextOf n |}, None) w' t /\
      forallb fetching t = true.

(** Where a generator stands in the listing: [rest] is what it has yet to
    yield. *)
Inductive standing : PagedListGenerator GithubType ItemType ->
    list (option GithubType * ItemType) -> Prop :=
| standing_fresh g :
    index g = 0 -> nextPage g = 0 -> items g = [] ->
    endOfList g = false -> lastPage g = false ->
    standing g (tagged pages)
| standing_page g (i j : nat) p its :
    pages !! i = Some (p, its) ->
    page g = p -> items g = its -> index g = Z.of_nat j ->
    (j <= length its)%nat ->
    lastPage g = bool_decide (S i = length pages) ->
    nextPage g = (if lastPage g then 0 else Z.of_nat i + 2) ->
    endOfList g = (len its <=? index g) && lastPage g ->
    standing g (map (pair p) (drop j its) ++ tagged (drop (S i) pages))
| standing_end g :
    endOfList g = true -> standing g [].

(** After [getNextPage]: the next item is under the index, or the last
    page is used up. *)
Inductive ready : PagedListGenerator GithubType ItemType ->
    list (option GithubType * ItemType) -> Prop :=
| ready_item g (i j : nat) p its it :
    pages !! i = Some (p, its) -> its !! j = Some it ->
    page g = p -> items g = its -> index g = Z.of_nat j ->
    lastPage g = bool_decide (S i = length pages) ->
    nextPage g = (if lastPage g then 0 else Z.of_nat i + 2) ->
    endOfList g = false ->
    ready g ((p, it) :: map (pair p) (drop (S j) its) ++
             tagged (drop (S i) pages))
| ready_end g :
    endOfList g = true ->
    (len (items g) <=? index g) && lastPage g = true ->
    ready g [].

Hypothesis served : serves.
Hypothesis full : fullPages pages = true.

Lemma ready_fetched (i : nat) p its o :
  pages !! i = Some (p, its) ->
  ready {| index := 0; nextPage := nextOf i; page := p; items := its;
           opts := o;
           endOfList := (len its <=? 0) && (nextOf i =? 0);
           lastPage := (nextOf i =? 0) |}
        (tagged (drop i pages)).
Proof.
  intros Hl. pose proof (lookup_lt_Some _ _ _ Hl) as Hlt.
  rewrite (tagged_drop _ _ _ _ Hl). unfold nextOf.
  case_bool_decide as Hn.
  - destruct its as [|it its'] eqn:E;
      [exfalso; eapply fullPages_lookup; eauto|].
    replace (Z.of_nat i + 2 =? 0) with false
      by (symmetry; apply Z.eqb_neq; lia).
    simpl map. simpl app.
    apply (ready_item _ i 0 p (it :: its') it); simpl; try done.
    rewrite bool_decide_eq_false_2; [done | lia].
  - assert (S i = length pages) as Hlast by lia.
    replace (drop (S i) pages)
      with (@nil (option GithubType * list ItemType))
      by (symmetry; apply drop_ge; lia).
    simpl tagged. rewrite app_nil_r.
    destruct its as [|it its'].
    + simpl. apply ready_end; reflexivity.
    + simpl map.
      replace (map (pair p) its') with
        (map (pair p) (drop 1 (it :: its')) ++ tagged (drop (S i) pages)).
      2:{ replace (drop (S i) pages)
            with (@nil (option GithubType * list ItemType))
            by (symmetry; apply drop_ge; lia).
          simpl. now rewrite app_nil_r, drop_0. }
      apply (ready_item _ i 0 p (it :: its') it); simpl; try done.
      now rewrite bool_decide_eq_true_2.
Qed.

Lemma getNextPage_served g rest (w : W) :
  standing g rest -> endOfList g = false ->
  exists g' w' t,
    getNextPage Retrieve g w = Returns (g', None) w' t /\
    ready g' rest /\ forallb fetching t = true.
Proof.
  destruct served as [Hne Hserve].
  intros Hp He.
  destruct Hp as [g H1 H2 H3 H4 H5
                 | g i j p its Hl Hpg Hit Hix Hj Hlast Hnext Heol | g Hend ].
  - unfold getNextPage. rewrite H5, H3, H1, H2. simpl.
    destruct (pages !! 0%nat) as [[p its]|] eqn:E0;
      [|destruct pages; [done | discriminate E0]].
    destruct (Hserve 0%nat p its {| Page := 0; PerPage := PerPage (opts g) |}
                w E0 eq_refl) as (w' & t & Hr & Ht).
    rewrite (bind_Returns _ _ _ _ _ _ Hr). simpl. rewrite app_nil_r.
    do 3 eexists. split; [reflexivity|]. split; [|exact Ht].
    change (tagged pages) with (tagged (drop 0 pages)).
    now apply ready_fetched.
  - pose proof (lookup_lt_Some _ _ _ Hl) as Hlt.
    unfold getNextPage. rewrite Hlast, Hit, Hix.
    case_bool_decide as Hn; simpl.
    + rewrite Hlast, andb_true_r, Hix, He in Heol.
      symmetry in Heol. apply Z.leb_gt in Heol. unfold len in Heol.
      destruct (its !! j) as [it|] eqn:Ej;
        [|apply lookup_ge_None in Ej; lia].
      exists g, w, []. split; [reflexivity|]. split; [|done].
      rewrite (drop_S _ _ _ Ej). simpl.
      eapply ready_item; eauto.
      rewrite Hlast. symmetry. now apply bool_decide_eq_true_2.
    + destruct (len its <=? Z.of_nat j) eqn:Ecmp.
      * apply Z.leb_le in Ecmp. unfold len in Ecmp.
        assert (j = length its) as -> by lia.
        rewrite drop_all. simpl app.
        rewrite Hnext, Hlast.
        destruct (pages !! S i) as [[p' its']|] eqn:E1;
          [|apply lookup_ge_None in E1; lia].
        destruct (Hserve (S i) p' its'
                    {| Page := Z.of_nat i + 2; PerPage := PerPage (opts g) |}
                    w E1) as (w' & t & Hr & Ht).
        { unfold pageIndex. simpl. lia. }
        rewrite (bind_Returns _ _ _ _ _ _ Hr). simpl. rewrite app_nil_r.
        do 3 eexists. split; [reflexivity|]. split; [|exact Ht].
        now apply ready_fetched.
      * apply Z.leb_gt in Ecmp. unfold len in Ecmp.
        destruct (its !! j) as [it|] eqn:Ej;
          [|apply lookup_ge_None in Ej; lia].
        exists g, w, []. split; [reflexivity|]. split; [|done].
        rewrite (drop_S _ _ _ Ej). simpl.
        eapply ready_item; eauto.
        rewrite Hlast. symmetry. now apply bool_decide_eq_false_2.
  - congruence.
Qed.

Lemma ready_standing g rest : ready g rest -> standing g rest.
Proof.
  intros [g' i j p its it Hl Hj Hpg Hit Hix Hlast Hnext He | g' He Hg].
  - pose proof (lookup_lt_Some _ _ _ Hj) as Hlt.
    change ((p, it) :: map (pair p) (drop (S j) its) ++
            tagged (drop (S i) pages))
      with (map (pair p) (it :: drop (S j) its) ++ tagged (drop (S i) pages)).
    rewrite <- (drop_S _ _ _ Hj).
    eapply standing_page; eauto; [lia|].
    rewrite He, Hix. symmetry. apply andb_false_iff. left.
    apply Z.leb_gt. unfold len. lia.
  - now apply standing_end.
Qed.

Lemma standing_at_end g rest :
  standing g rest -> endOfList g = true -> rest = [].
Proof.
  intros [g' H1 H2 H3 H4 H5 | g' i j p its Hl Hpg Hit Hix Hj Hlast Hnext Heol
         | g' Hend] He; [congruence | | done].
  rewrite He in Heol. symmetry in Heol.
  apply andb_true_iff in Heol as [Hle Hl'].
  rewrite Hix in Hle. apply Z.leb_le in Hle. unfold len in Hle.
  rewrite Hlast in Hl'. apply bool_decide_eq_true_1 in Hl'.
  rewrite drop_ge by lia. rewrite (drop_ge pages) by lia. reflexivity.
Qed.

Lemma HasNext_served g rest (w : W) :
  standing g rest ->
  exists g' w' t,
    HasNext Retrieve g w =
      Returns (g', match rest with [] => false | _ :: _ => true end) w' t /\
    standing g' rest /\ forallb fetching t = true.
Proof.
  intros Hp. unfold HasNext.
  destruct (endOfList g) eqn:He; simpl.
  - pose proof (standing_at_end _ _ Hp He) as ->.
    exists g, w, []. split; [reflexivity|]. now split.
  - destruct (getNextPage_served g rest w Hp He) as (g' & w' & t & Hg & Hl & Ht).
    rewrite (bind_Returns _ _ _ _ _ _ Hg). simpl. rewrite app_nil_r.
    exists g', w', t. split; [|split; [now apply ready_standing | exact Ht]].
    destruct Hl as [g' i j p its it _ _ _ _ _ _ _ He' | g' He' _];
      now rewrite He'.
Qed.

Lemma Next_served g rest (w : W) :
  standing g rest ->
  exists g' w' t,
    Next Retrieve g w =
      Returns (g', match rest with
                   | [] => (None, None, Some EndOfList)
                   | (p, it) :: _ => (p, Some it, None)
                   end) w' t /\
    standing g' (tail rest) /\ forallb fetching t = true.
Proof.
  intros Hp. unfold Next.
  destruct (endOfList g) eqn:He; simpl.
  - pose proof (standing_at_end _ _ Hp He) as ->. now exists g, w, [].
  - destruct (getNextPage_served g rest w Hp He) as (g1 & w' & t & Hg & Hl & Ht).
    rewrite (bind_Returns _ _ _ _ _ _ Hg). simpl.
    destruct Hl as [g1 i j p its it Hl Hj Hpg Hit Hix Hlast Hnext He1
                   | g1 He1 Hguard].
    + pose proof (lookup_lt_Some _ _ _ Hj) as Hlt.
      assert ((len (items g1) <=? index g1) = false) as Hcmp
        by (rewrite Hit, Hix; apply Z.leb_gt; unfold len; lia).
      rewrite Hcmp. simpl.
      rewrite Hit, Hix, at_index_lookup, Hj, Hpg. simpl. rewrite app_nil_r.
      do 3 eexists. split; [reflexivity|]. split; [|exact Ht].
      simpl tail. apply (standing_page _ i (S j) p its); simpl; try done.
      lia.
    + rewrite Hguard. simpl. rewrite app_nil_r.
      do 3 eexists. split; [reflexivity|]. split; [|exact Ht].
      now apply standing_end.
Qed.

End Served.

(** *** [ListGenerator] over a fetch function that serves lists of items *)

Section ListServed.
Context {W ItemType : Type}.
Variable Retrieve :
  ListOptions -> Go W (list ItemType * option Response * option error).
Variable lists : list (list ItemType).
Variable fetching : event -> bool.

(** The pages the hidden generator sees: no page object. *)
Definition bare : listing (option string) ItemType :=
  (fun its => (None, its)) <$> lists.

Definition servesLists : Prop :=
  lists <> [] /\
  forall n its o (w : W),
    lists !! n = Some its -> pageIndex o = n ->
    exists w' t,
      Retrieve o w = Returns (its, Some {| NextPage := nextOf bare n |}, None)
                             w' t /\
      forallb fetching t = true.

Lemma tagged_bare : tagged bare = (fun it => (None, it)) <$> concat lists.
Proof.
  unfold bare. generalize lists. intros l.
  induction l as [|its l IH]; [done|].
  simpl. rewrite fmap_app. f_equal. exact IH.
Qed.

Hypothesis served : servesLists.

Lemma ListGenerator_serves : serves (ListGenerator_Retrieve Retrieve) bare fetching.
Proof.
  destruct served as [Hne Hs]. split.
  - unfold bare. now destruct lists.
  - intros n p its o w Hl Hn. unfold bare in Hl.
    apply list_lookup_fmap_Some_1 in Hl as (its' & Heq & E).
    injection Heq as -> ->.
    destruct (Hs n its' o w E Hn) as (w' & t & Hr & Ht).
    exists w', t. split; [|exact Ht].
    unfold ListGenerator_Retrieve.
    rewrite (bind_Returns _ _ _ _ _ _ Hr). simpl. now rewrite app_nil_r.
Qed.

Hypothesis full : fullPages bare = true.

Lemma ListGenerator_HasNext_served (g : ListGenerator ItemType) rest (w : W) :
  standing bare (ListGenerator_init g) rest ->
  exists g' w' t,
    ListGenerator_HasNext Retrieve g w =
      Returns (g', match rest with [] => false | _ :: _ => true end) w' t /\
    standing bare (ListGenerator_init g') rest /\ forallb fetching t = true.
Proof.
  intros Hp.
  destruct (HasNext_served _ _ _ ListGenerator_serves full _ _ w Hp)
    as (p & w' & t & Hh & Hp' & Ht).
  exists {| pg := Some p |}, w', t. split; [|now split].
  unfold ListGenerator_HasNext.
  rewrite (bind_Returns _ _ _ _ _ _ Hh). simpl. now rewrite app_nil_r.
Qed.

Lemma ListGenerator_Next_served (g : ListGenerator ItemType) rest (w : W) :
  standing bare (ListGenerator_init g) rest ->
  exists g' w' t,
    ListGenerator_Next Retrieve g w =
      Returns (g', match rest with
                   | [] => (None, Some EndOfList)
                   | (_, it) :: _ => (Some it, None)
                   end) w' t /\
    standing bare (ListGenerator_init g') (tail rest) /\
    forallb fetching t = true.
Proof.
  intros Hp.
  destruct (Next_served _ _ _ ListGenerator_serves full _ _ w Hp)
    as (p & w' & t & Hh & Hp' & Ht).
  exists {| pg := Some p |}, w', t. split; [|now split].
  unfold ListGenerator_Next.
  rewrite (bind_Returns _ _ _ _ _ _ Hh).
  destruct rest as [|[q it] rest']; simpl; now rewrite app_nil_r.
Qed.

Lemma ListGenerator_new_standing :
  standing bare (ListGenerator_init ListGenerator_new) (tagged bare).
Proof. now apply standing_fresh. Qed.

End ListServed.

(** *** A fetch that fails, first thing, twice in a row *)

Section Failing.
Context {W : Type}.

Lemma first_fetch_fails {GithubType ItemType}
    (Retrieve : ListOptions -> Go W (retrieved GithubType ItemType))
    pg res e pg2 res2 e2 (w w1 w2 : W) t1 t2 :
  Retrieve {| Page := 0; PerPage := 0 |} w =
    Returns (pg, [], res, Some e) w1 t1 ->
  Retrieve {| Page := 0; PerPage := 0 |} w1 =
    Returns (pg2, [], res2, Some e2) w2 t2 ->
  exists g1 g2,
    HasNext Retrieve new w = Returns (g1, true) w1 t1 /\
    Next Retrieve g1 w1 = Returns (g2, (None, None, Some e2)) w2 t2.
Proof.
  intros H1 H2.
  pose proof (getNextPage_error Retrieve new pg [] res e w w1 t1
                eq_refl (Z.le_refl 0) H1) as Hg.
  eexists. 
  destruct (Next_error Retrieve
              {| index := 0; nextPage := 0; page := pg; items := [];
                 opts := {| Page := 0; PerPage := 0 |}; endOfList := false;
                 lastPage := false |} pg2 [] res2 e2 w1 w2 t2
              eq_refl eq_refl (Z.le_refl 0) H2) as (g2 & Hn).
  exists g2. split; [|exact Hn].
  exact (HasNext_after_getNextPage Retrieve new _ _ w w1 t1 eq_refl Hg).
Qed.

Lemma ListGenerator_first_fetch_fails {ItemType}
    (Retrieve :
       ListOptions -> Go W (list ItemType * option Response * option error))
    res e res2 e2 (w w1 w2 : W) t1 t2 :
  Retrieve {| Page := 0; PerPage := 0 |} w =
    Returns ([], res, Some e) w1 t1 ->
  Retrieve {| Page := 0; PerPage := 0 |} w1 =
    Returns ([], res2, Some e2) w2 t2 ->
  exists g1 g2,
    ListGenerator_HasNext Retrieve ListGenerator_new w =
      Returns (g1, true) w1 t1 /\
    ListGenerator_Next Retrieve g1 w1 = Returns (g2, (None, Some e2)) w2 t2.
Proof.
  intros H1 H2.
  destruct (first_fetch_fails (ListGenerator_Retrieve Retrieve)
              None res e None res2 e2 w w1 w2 t1 t2) as (p1 & p2 & Hh & Hn).
  - unfold ListGenerator_Retrieve.
    rewrite (bind_Returns _ _ _ _ _ _ H1). simpl. now rewrite app_nil_r.
  - unfold ListGenerator_Retrieve.
    rewrite (bind_Returns _ _ _ _ _ _ H2). simpl. now rewrite app_nil_r.
  - exists {| pg := Some p1 |}, {| pg := Some p2 |}. split.
    + unfold ListGenerator_HasNext.
      change (ListGenerator_init ListGenerator_new)
        with (new : PagedListGenerator string ItemType).
      rewrite (bind_Returns _ _ _ _ _ _ Hh). simpl. now rewrite app_nil_r.
    + unfold ListGenerator_Next.
      change (ListGenerator_init {| pg := Some p1 |}) with p1.
      rewrite (bind_Returns _ _ _ _ _ _ Hn). simpl. now rewrite app_nil_r.
Qed.

End Failing.
End model_extras.

(** ** More on package renovatepr: its loops over the listings of the
    platform, and the check results *)

Module renovatepr_extras.
Import github model renovatepr examples.
Import model_properties model_extras renovatepr_properties.

(** The events that are calls of one kind. *)
Definition calls (kind : forall T, call T -> bool) (e : event) : bool :=
  match e with
  | Called c => kind _ c
  | _ => false
  end.

Definition isList T (c : call T) : bool :=
  match c with PullRequests_List _ => true | _ => false end.

Definition isListReviews T (c : call T) : bool :=
  match c with PullRequests_ListReviews _ _ => true | _ => false end.

Definition isRequiredChecks T (c : call T) : bool :=
  match c with Repositories_GetRequiredStatusChecks _ => true | _ => false end.

Definition isCombinedStatus T (c : call T) : bool :=
  match c with Repositories_GetCombinedStatus _ _ => true | _ => false end.

Definition isCheckRuns T (c : call T) : bool :=
  match c with Checks_ListCheckRunsForRef _ _ => true | _ => false end.

Definition isWorkflowRuns T (c : call T) : bool :=
  match c with Actions_ListRepositoryWorkflowRuns _ => true | _ => false end.

(** The three calls that read the checks of a commit. *)
Definition isCheckQuery T (c : call T) : bool :=
  isRequiredChecks T c || isCombinedStatus T c || isCheckRuns T c.

(** The events that are not calls of the given kind. *)
Definition others (kind : forall T, call T -> bool) (t : list event)
  : list event :=
  List.filter (fun e => negb (calls kind e)) t.

Definition byRenovate (pr : PullRequest) : bool :=
  String.eqb (Login pr) "renovate-bot".

(** All items of a listing, in order. *)
Definition itemsOf {G I} (pages : listing G I) : list I :=
  concat (snd <$> pages).

(** The run result [checkStatuses] makes of a status. *)
Definition ofStatus (s : RepoStatus) : runResult :=
  {| appId := None; context := status_Context s;
     conclusion := status_State s |}.

(** The conclusion [checkCheckRuns] takes for a check run: its
    conclusion, or its status while it has none. *)
Definition concluded (r : CheckRun) : string :=
  if String.eqb (run_Conclusion r) "" then run_Status r else run_Conclusion r.

Definition ofCheckRun (r : CheckRun) : runResult :=
  {| appId := default None (run_App r); context := run_Name r;
     conclusion := concluded r |}.

Definition hasApp (r : CheckRun) : bool :=
  match run_App r with Some _ => true | None => false end.

Definition isApproved (review : PullRequestReview) : bool :=
  String.eqb (review_State review) "APPROVED".

(** The run is one of the head commit of the pull request. *)
Definition ofHead (activePr : PullRequest) (r : WorkflowRun) : bool :=
  String.eqb (wf_HeadSHA r) (HeadSHA activePr).

Definition approveURL (r : WorkflowRun) : string := wf_URL r +:+ "/approve".

(** The two calls that approve a run. *)
Definition approval (r : WorkflowRun) : list event :=
  [Called (NewRequest "POST" (approveURL r));
   Called (Do "POST" (approveURL r))].

(** The last element of [l] filed under the key [k]. *)
Definition lastWith {A} (key : A -> string) (k : string) (l : list A)
  : option A :=
  last (List.filter (fun x => String.eqb (key x) k) l).

(** Some required check has the key [k]. *)
Definition requires (required : list RequiredStatusCheck) (k : string)
  : bool :=
  existsb (fun c => String.eqb (requiredContext c) k) required.

(** The request [mergeStep] lists the open pull requests with. *)
Definition listRequest (defaultBranch : string) (o : ListOptions)
  : call (list PullRequest * option Response * option error) :=
  PullRequests_List
    {| list_Sort := "created"; list_State := "open";
       list_Base := defaultBranch; list_ListOptions := o |}.

(** *** Platforms to try the statements on *)

(** The scripted repository with some of its answers replaced. *)
Definition overridden (s : script) (answer : forall T, call T -> option T)
  : platform (list PullRequest) :=
  fun T c w =>
    match answer T c with
    | Some r => (r, w)
    | None => scripted s T c w
    end.

(** The open pull requests come in the pages [lists]. *)
Definition listPaged (lists : list (list PullRequest)) T (c : call T)
  : option T :=
  match c in call T return option T with
  | PullRequests_List o =>
    let n := pageIndex (list_ListOptions o) in
    Some (default [] (lists !! n),
          Some {| NextPage := nextOf (bare lists) n |}, None)
  | _ => None
  end.

(** The platform answers no listing of pull requests. *)
Definition failList (e : error) T (c : call T) : option T :=
  match c in call T return option T with
  | PullRequests_List _ => Some ([], None, Some e)
  | _ => None
  end.

(** The platform answers no request for the combined status. *)
Definition failStatuses (e : error) T (c : call T) : option T :=
  match c in call T return option T with
  | Repositories_GetCombinedStatus _ _ => Some (None, None, Some e)
  | _ => None
  end.

(** The platform takes no review. *)
Definition failCreate (e : error) T (c : call T) : option T :=
  match c in call T return option T with
  | PullRequests_CreateReview _ _ => Some (None, Some e)
  | _ => None
  end.

(** The platform refuses what [Do] sends. *)
Definition refuseDo (e : error) T (c : call T) : option T :=
  match c in call T return option T with
  | Do _ _ => Some (Some e)
  | _ => None
  end.

Definition human (number : Z) : PullRequest :=
  {| Number := number; NodeID := None; Title := "Fix typo";
     State := "open"; Login := "octocat"; HeadRef := "typo";
     HeadSHA := "def456"; Mergeable := Some true; Rebaseable := Some true |}.

Definition run (sha url : string) : WorkflowRun :=
  {| wf_HeadSHA := sha; wf_URL := url |}.

Definition checkRun (name status conclusion0 : string) (app : option (option Z))
  : CheckRun :=
  {| run_Name := name; run_Status := status; run_Conclusion := conclusion0;
     run_App := app |}.

(** A busy pull request: workflow runs of two commits wait for approval,
    a status and check runs of an app report, a review is approved. *)
Definition busy : script :=
  {| workflowRuns := [run "abc123" "https://api/runs/1";
                      run "000000" "https://api/runs/2";
                      run "abc123" "https://api/runs/3"];
     requiredChecks :=
       (Some {| Checks := [{| check_Context := "build";
                              check_AppID := None |};
                           {| check_Context := "test";
                              check_AppID := Some 15368 |}] |}, None);
     statuses := [{| status_Context := "build"; status_State := "pending" |};
                  {| status_Context := "build"; status_State := "success" |}];
     checkRuns := [checkRun "test" "in_progress" "" (Some (Some 15368));
                   checkRun "test" "completed" "success" (Some (Some 15368));
                   checkRun "lint" "completed" "failed" (Some (Some 15368))];
     reviews := [{| review_ID := 5; review_State := "COMMENTED" |};
                 {| review_ID := 6; review_State := "APPROVED" |}];
     created := created green;
     submitted := submitted green;
     mergeAnswer := mergeAnswer green |}.

(** A check run comes without its app. *)
Definition appless : script :=
  {| workflowRuns := workflowRuns green;
     requiredChecks := requiredChecks green;
     statuses := statuses green;
     checkRuns := [checkRun "test" "completed" "success" (Some (Some 15368));
                   checkRun "lint" "completed" "success" None;
                   checkRun "docs" "completed" "success" (Some None)];
     reviews := reviews green;
     created := created green;
     submitted := submitted green;
     mergeAnswer := mergeAnswer green |}.

(** Open pull requests on two pages, two of them by renovate-bot. *)
Definition mixed : list (list PullRequest) :=
  [[prA; human 7]; [human 8; prB]].

(** Open pull requests on two pages, none by renovate-bot. *)
Definition strangers : list (list PullRequest) := [[human 7]; [human 8]].

(** *** Events *)

Lemma others_none kind t : forallb (calls kind) t = true -> others kind t = [].
Proof.
  unfold others. induction t as [|e t IH]; [done|]. simpl.
  intros [He Ht]%andb_true_iff. rewrite He. simpl. auto.
Qed.

Lemma others_app kind (t1 t2 : list event) :
  others kind (t1 ++ t2) = others kind t1 ++ others kind t2.
Proof. apply List.filter_app. Qed.

Lemma approval_app r t :
  Called (NewRequest "POST" (approveURL r))
    :: Called (Do "POST" (approveURL r)) :: t = approval r ++ t.
Proof. reflexivity. Qed.

Lemma calls_weaken (kind kind' : forall T, call T -> bool) t :
  (forall T c, kind T c = true -> kind' T c = true) ->
  forallb (calls kind) t = true -> forallb (calls kind') t = true.
Proof.
  intros Hk. induction t as [|e t IH]; [done|]. simpl.
  intros [He Ht]%andb_true_iff. rewrite IH by done.
  destruct e; simpl in *; try done. now rewrite (Hk _ _ He).
Qed.

Lemma tagged_items {G I} (pages : listing G I) :
  snd <$> tagged pages = itemsOf pages.
Proof.
  unfold itemsOf. induction pages as [|[p its] pages IH]; [done|].
  simpl. rewrite fmap_app, IH. f_equal.
  rewrite <- list_fmap_compose. apply list_fmap_id.
Qed.

Lemma tagged_split {G I} (pages : listing G I) before (x : I) rest :
  itemsOf pages = before ++ x :: rest ->
  exists tb p tr,
    tagged pages = tb ++ (p, x) :: tr /\ snd <$> tb = before.
Proof.
  rewrite <- tagged_items. intros H.
  apply fmap_app_inv in H as (tb & tr & Hb & Hr & Ht).
  symmetry in Hr.
  apply fmap_cons_inv in Hr as ([p y] & tr' & Hx & _ & ->).
  simpl in Hx. subst. eauto.
Qed.

(** *** The listing loop of mergeStep *)

Section Listing.
Context {W : Type}.
Variable client : platform W.
Variables org repo defaultBranch : string.
Variable lists : list (list PullRequest).
Hypothesis served :
  servesLists (mergeStep_Retrieve client defaultBranch) lists (calls isList).
Hypothesis full : fullPages (bare lists) = true.

Lemma renovatePrs_loop_served rest :
  forall fuel (g : ListGenerator PullRequest) renovatePrs (w : W),
    standing (bare lists) (ListGenerator_init g) rest ->
    (length rest < fuel)%nat ->
    exists w' t,
      renovatePrs_loop client defaultBranch fuel g renovatePrs w =
        Returns (renovatePrs ++ List.filter byRenovate (snd <$> rest), None)
                w' t /\
      forallb (calls isList) t = true.
Proof.
  induction rest as [|[p pr] rest IH]; intros fuel g acc w Hp Hfuel;
    (destruct fuel as [|fuel]; [simpl in Hfuel; lia|]);
    destruct (ListGenerator_HasNext_served _ _ _ served full g _ w Hp)
      as (g1 & w1 & t1 & Hh & Hp1 & Ht1);
    simpl renovatePrs_loop; rewrite (bind_Returns _ _ _ _ _ _ Hh); simpl.
  - rewrite !app_nil_r. eauto.
  - destruct (ListGenerator_Next_served _ _ _ served full g1 _ w1 Hp1)
      as (g2 & w2 & t2 & Hn & Hp2 & Ht2).
    rewrite (bind_Returns _ _ _ _ _ _ Hn). simpl.
    destruct (IH fuel g2
                (if String.eqb (Login pr) "renovate-bot"
                 then acc ++ [pr] else acc) w2 Hp2)
      as (w3 & t3 & Hl & Ht3); [simpl in Hfuel; lia|].
    rewrite Hl. simpl. exists w3, (t1 ++ t2 ++ t3). split.
    + unfold byRenovate. simpl.
      destruct (String.eqb (Login pr) "renovate-bot");
        now rewrite <- ?app_assoc.
    + now rewrite !forallb_app, Ht1, Ht2, Ht3.
Qed.

(** X4.  When the client lists the open pull requests page by page (every
    page but the last holding a pull request), the listing loop of
    [mergeStep] gathers the pull requests whose author is renovate-bot, all
    of them and in the order of the listing, with no error, and calls
    nothing but [PullRequests.List]. *)
Theorem renovatePrs_loop_filters (fuel : nat) (w : W) :
  (length (concat lists) < fuel)%nat ->
  exists w' t,
    renovatePrs_loop client defaultBranch fuel ListGenerator_new [] w =
      Returns (List.filter byRenovate (concat lists), None) w' t /\
    forallb (calls isList) t = true.
Proof.
  intros Hfuel.
  destruct (renovatePrs_loop_served (tagged (bare lists)) fuel
              ListGenerator_new [] w) as (w' & t & Hl & Ht).
  - apply ListGenerator_new_standing.
  - now rewrite tagged_bare, length_fmap.
  - exists w', t. split; [|exact Ht]. rewrite Hl. simpl.
    rewrite tagged_bare, <- list_fmap_compose.
    now rewrite list_fmap_id.
Qed.

Lemma renovatePrs_loop_none (fuel : nat) (w : W) :
  (length (concat lists) < fuel)%nat ->
  List.filter byRenovate (concat lists) = [] ->
  exists w' t,
    renovatePrs_loop client defaultBranch fuel ListGenerator_new [] w =
      Returns ([], None) w' t /\
    forallb (calls isList) t = true.
Proof.
  intros Hfuel Hnone.
  destruct (renovatePrs_loop_served (tagged (bare lists)) fuel
              ListGenerator_new [] w) as (w' & t & Hl & Ht).
  - apply ListGenerator_new_standing.
  - now rewrite tagged_bare, length_fmap.
  - exists w', t. split; [|exact Ht]. rewrite Hl. simpl.
    rewrite tagged_bare, <- list_fmap_compose.
    now rewrite list_fmap_id, Hnone.
Qed.

Lemma mergeStep_none (fuel : nat) (w : W) :
  (length (concat lists) < fuel)%nat ->
  List.filter byRenovate (concat lists) = [] ->
  exists w' t,
    mergeStep client org repo defaultBranch fuel w =
      Returns (false, None) w' t /\
    forallb (calls isList) t = true.
Proof.
  intros Hfuel Hnone.
  destruct (renovatePrs_loop_none fuel w Hfuel Hnone) as (w' & t & Hl & Ht).
  exists w', t. split; [|exact Ht].
  unfold mergeStep. rewrite (bind_Returns _ _ _ _ _ _ Hl). simpl.
  now rewrite app_nil_r.
Qed.

(** X5.  With such a listing in which no pull request is by renovate-bot,
    [mergeStep] returns [(false, nil)], nothing more to do, and
    [MergePRs] returns nil after its first iteration: nothing was called
    but the listing, and the loop has not slept. *)
Theorem MergePRs_nothing_to_merge (fuel : nat) (w : W) :
  (length (concat lists) < fuel)%nat ->
  List.filter byRenovate (concat lists) = [] ->
  exists w' t,
    mergeStep client org repo defaultBranch fuel w =
      Returns (false, None) w' t /\
    MergePRs client org repo defaultBranch fuel w =
      Returns None w' (Iteration 1 :: t) /\
    forallb (calls isList) t = true.
Proof.
  intros Hfuel Hnone.
  destruct (mergeStep_none fuel w Hfuel Hnone) as (w' & t & Hs & Ht).
  exists w', t. split; [exact Hs|]. split; [|exact Ht].
  unfold MergePRs. apply MergePRs_loop_stop; [lia | exact Hs].
Qed.

End Listing.

Lemma listPaged_serves s lists base :
  lists <> [] ->
  servesLists (mergeStep_Retrieve (overridden s (listPaged lists)) base)
              lists (calls isList).
Proof.
  intros Hne. split; [done|]. intros n its o w Hl Hn.
  exists w, [Called (listRequest base o)].
  unfold mergeStep_Retrieve, perform, overridden, listPaged. simpl.
  rewrite Hn, Hl. split; reflexivity.
Qed.

Lemma renovatePrs_loop_filters_witness :
  exists w' t,
    renovatePrs_loop
      (overridden green (listPaged mixed))
      "main" 5 ListGenerator_new [] [] =
      Returns ([prA; prB], None) w' t /\
    forallb (calls isList) t = true.
Proof.
  apply (renovatePrs_loop_filters
           (overridden green (listPaged mixed))
           "main" mixed
           (listPaged_serves green mixed "main" ltac:(discriminate)) eq_refl
           5 []).
  simpl. lia.
Defined.

Lemma MergePRs_nothing_to_merge_witness :
  exists w' t,
    mergeStep (overridden green (listPaged strangers))
              "owner" "repo" "main" 3 [] =
      Returns (false, None) w' t /\
    MergePRs (overridden green (listPaged strangers))
             "owner" "repo" "main" 3 [] =
      Returns None w' (Iteration 1 :: t) /\
    forallb (calls isList) t = true.
Proof.
  apply (MergePRs_nothing_to_merge
           (overridden green (listPaged strangers))
           "owner" "repo" "main" strangers
           (listPaged_serves green strangers "main" ltac:(discriminate)) eq_refl
           3 []).
  - simpl. lia.
  - reflexivity.
Defined.

(** X6.  When the platform answers the listing of the open pull requests
    with an error, and does so again when asked again: [HasNext] drops the
    first error, [Next] repeats the request, and [mergeStep] returns
    [(false, err)] with the error of the second answer, after these two
    calls; [MergePRs] returns that error after its first iteration, without
    sleeping. *)
Theorem mergeStep_listing_fails {W} (client : platform W)
    (org repo defaultBranch : string) (fuel : nat)
    res e res2 e2 (w w1 w2 : W) :
  let request := listRequest defaultBranch {| Page := 0; PerPage := 0 |} in
  client _ request w = (([], res, Some e), w1) ->
  client _ request w1 = (([], res2, Some e2), w2) ->
  mergeStep client org repo defaultBranch (S fuel) w =
    Returns (false, Some e2) w2 [Called request; Called request] /\
  MergePRs client org repo defaultBranch (S fuel) w =
    Returns (Some e2) w2 [Iteration 1; Called request; Called request].
Proof.
  intros request H1 H2.
  destruct (ListGenerator_first_fetch_fails
              (mergeStep_Retrieve client defaultBranch) res e res2 e2
              w w1 w2 [Called request] [Called request]
              (perform_Returns _ _ _ _ _ H1) (perform_Returns _ _ _ _ _ H2))
    as (g1 & g2 & Hh & Hn).
  assert (mergeStep client org repo defaultBranch (S fuel) w =
          Returns (false, Some e2) w2 [Called request; Called request]) as Hs.
  { unfold mergeStep. simpl renovatePrs_loop.
    unfold mbind at 1, Go_bind at 1.
    rewrite (bind_Returns _ _ _ _ _ _ Hh). simpl.
    rewrite (bind_Returns _ _ _ _ _ _ Hn). reflexivity. }
  split; [exact Hs|].
  unfold MergePRs. apply MergePRs_loop_stop; [lia | exact Hs].
Qed.

Lemma mergeStep_listing_fails_witness :
  let request := listRequest "main" {| Page := 0; PerPage := 0 |} in
  let client := overridden green (failList (Errorf "503 Service Unavailable")) in
  mergeStep client "owner" "repo" "main" 1 [prB] =
    Returns (false, Some (Errorf "503 Service Unavailable")) [prB]
            [Called request; Called request] /\
  MergePRs client "owner" "repo" "main" 1 [prB] =
    Returns (Some (Errorf "503 Service Unavailable")) [prB]
            [Iteration 1; Called request; Called request].
Proof.
  apply (mergeStep_listing_fails
           (overridden green (failList (Errorf "503 Service Unavailable")))
           "owner" "repo" "main" 0 None (Errorf "503 Service Unavailable")
           None (Errorf "503 Service Unavailable") [prB] [prB] [prB]);
    reflexivity.
Defined.

(** *** checkStatuses and checkCheckRuns *)

Section Checks.
Context {W : Type}.
Variable client : platform W.
Variables org repo : string.
Variable activePr : PullRequest.

Section Statuses.
Variable pages : listing (option CombinedStatus) RepoStatus.
Hypothesis served :
  serves (checkStatuses_Retrieve client activePr) pages
         (calls isCombinedStatus).
Hypothesis full : fullPages pages = true.

Lemma checkStatuses_loop_served rest :
  forall fuel g results (w : W),
    standing pages g rest -> (length rest < fuel)%nat ->
    exists w' t,
      checkStatuses_loop client org repo fuel activePr g results w =
        Returns (results ++ (ofStatus <$> (snd <$> rest)), None) w' t /\
      forallb (calls isCombinedStatus) t = true.
Proof.
  induction rest as [|[p st] rest IH]; intros fuel g acc w Hp Hfuel;
    (destruct fuel as [|fuel]; [simpl in Hfuel; lia|]);
    destruct (HasNext_served _ _ _ served full g _ w Hp)
      as (g1 & w1 & t1 & Hh & Hp1 & Ht1);
    simpl checkStatuses_loop; rewrite (bind_Returns _ _ _ _ _ _ Hh); simpl.
  - rewrite !app_nil_r. eauto.
  - destruct (Next_served _ _ _ served full g1 _ w1 Hp1)
      as (g2 & w2 & t2 & Hn & Hp2 & Ht2).
    rewrite (bind_Returns _ _ _ _ _ _ Hn). simpl.
    destruct (IH fuel g2 (acc ++ [ofStatus st]) w2 Hp2)
      as (w3 & t3 & Hl & Ht3); [simpl in Hfuel; lia|].
    unfold ofStatus in Hl at 1. rewrite Hl. simpl.
    exists w3, (t1 ++ t2 ++ t3). split.
    + now rewrite <- app_assoc.
    + now rewrite !forallb_app, Ht1, Ht2, Ht3.
Qed.

(** X7.  When the platform serves the statuses of the head commit page by
    page, [checkStatuses] returns one run result for every status, in the
    order of the listing: no app id, the context and the state of the
    status; it returns no error and calls nothing but
    [Repositories.GetCombinedStatus]. *)
Theorem checkStatuses_lists_all (fuel : nat) (count : Z) (w : W) :
  (length (itemsOf pages) < fuel)%nat ->
  exists w' t,
    checkStatuses client org repo fuel activePr count w =
      Returns (ofStatus <$> itemsOf pages, None) w' t /\
    forallb (calls isCombinedStatus) t = true.
Proof.
  intros Hfuel. unfold checkStatuses.
  destruct (checkStatuses_loop_served (tagged pages) fuel new [] w)
    as (w' & t & Hl & Ht).
  - now apply standing_fresh.
  - now rewrite <- (length_fmap snd), tagged_items.
  - exists w', t. split; [|exact Ht]. rewrite Hl. simpl.
    now rewrite tagged_items.
Qed.

End Statuses.

Section CheckRuns.
Variable pages : listing (option ListCheckRunsResults) CheckRun.
Hypothesis served :
  serves (checkCheckRuns_Retrieve client activePr) pages (calls isCheckRuns).
Hypothesis full : fullPages pages = true.

Lemma checkCheckRuns_loop_served rest :
  forall fuel g results (w : W),
    standing pages g rest -> (length rest < fuel)%nat ->
    forallb hasApp (snd <$> rest) = true ->
    exists w' t,
      checkCheckRuns_loop client org repo fuel activePr g results w =
        Returns (results ++ (ofCheckRun <$> (snd <$> rest)), None) w' t /\
      forallb (calls isCheckRuns) t = true.
Proof.
  induction rest as [|[p run] rest IH]; intros fuel g acc w Hp Hfuel Happ;
    (destruct fuel as [|fuel]; [simpl in Hfuel; lia|]);
    destruct (HasNext_served _ _ _ served full g _ w Hp)
      as (g1 & w1 & t1 & Hh & Hp1 & Ht1);
    simpl checkCheckRuns_loop; rewrite (bind_Returns _ _ _ _ _ _ Hh); simpl.
  - rewrite !app_nil_r. eauto.
  - destruct (Next_served _ _ _ served full g1 _ w1 Hp1)
      as (g2 & w2 & t2 & Hn & Hp2 & Ht2).
    rewrite (bind_Returns _ _ _ _ _ _ Hn). simpl.
    simpl in Happ. apply andb_true_iff in Happ as [Hrun Happ].
    unfold hasApp in Hrun. destruct (run_App run) as [id|] eqn:Eid; [|done].
    destruct (IH fuel g2 (acc ++ [ofCheckRun run]) w2 Hp2)
      as (w3 & t3 & Hl & Ht3); [simpl in Hfuel; lia | exact Happ |].
    assert (Hrec : ofCheckRun run =
                   {| appId := id; context := run_Name run;
                      conclusion := concluded run |})
      by (unfold ofCheckRun; now rewrite Eid).
    rewrite Hrec in Hl at 1. unfold concluded in Hl at 1.
    rewrite Hl. simpl.
    exists w3, (t1 ++ t2 ++ t3). split.
    + now rewrite <- app_assoc.
    + now rewrite !forallb_app, Ht1, Ht2, Ht3.
Qed.

(** A check run without app: the loop panics when it reaches it. *)
Lemma checkCheckRuns_loop_panics before :
  forall fuel g results (w : W) run rest,
    standing pages g (before ++ run :: rest) ->
    (length before < fuel)%nat ->
    forallb hasApp (snd <$> before) = true -> hasApp (snd run) = false ->
    checkCheckRuns_loop client org repo fuel activePr g results w =
    Panics NilDereference.
Proof.
  induction before as [|[p r0] before IH];
    intros fuel g acc w [q run] rest Hp Hfuel Happ Hno;
    (destruct fuel as [|fuel]; [simpl in Hfuel; lia|]);
    destruct (HasNext_served _ _ _ served full g _ w Hp)
      as (g1 & w1 & t1 & Hh & Hp1 & Ht1);
    simpl checkCheckRuns_loop; rewrite (bind_Returns _ _ _ _ _ _ Hh); simpl;
    destruct (Next_served _ _ _ served full g1 _ w1 Hp1)
      as (g2 & w2 & t2 & Hn & Hp2 & Ht2);
    simpl in Hn; rewrite (bind_Returns _ _ _ _ _ _ Hn); simpl.
  - unfold hasApp in Hno. simpl in Hno.
    now destruct (run_App run).
  - simpl in Happ. apply andb_true_iff in Happ as [Hrun Happ].
    unfold hasApp in Hrun. destruct (run_App r0) as [id|] eqn:Eid; [|done].
    simpl in Hp2.
    now rewrite (IH fuel g2 _ w2 (q, run) rest Hp2 ltac:(simpl in Hfuel; lia)
                   Happ Hno).
Qed.

(** X8.  When the platform serves the check runs of the head commit page
    by page and every check run names its app, [checkCheckRuns] returns one
    run result for every check run, in the order of the listing: the id of
    the app, the name, and the conclusion of the run, or its status while
    the conclusion is empty; it returns no error and calls nothing but
    [Checks.ListCheckRunsForRef]. *)
Theorem checkCheckRuns_lists_all (fuel : nat) (w : W) :
  (length (itemsOf pages) < fuel)%nat ->
  forallb hasApp (itemsOf pages) = true ->
  exists w' t,
    checkCheckRuns client org repo fuel activePr w =
      Returns (ofCheckRun <$> itemsOf pages, None) w' t /\
    forallb (calls isCheckRuns) t = true.
Proof.
  intros Hfuel Happ. unfold checkCheckRuns.
  destruct (checkCheckRuns_loop_served (tagged pages) fuel new [] w)
    as (w' & t & Hl & Ht).
  - now apply standing_fresh.
  - now rewrite <- (length_fmap snd), tagged_items.
  - now rewrite tagged_items.
  - exists w', t. split; [|exact Ht]. rewrite Hl. simpl.
    now rewrite tagged_items.
Qed.

(** X9.  A check run that comes without its app makes [checkCheckRuns]
    panic when the loop reaches it, [status.GetApp()] being nil: no result
    and no error is returned, whatever the check runs before it. *)
Theorem checkCheckRuns_nil_app_panics (fuel : nat) (w : W) before r rest :
  itemsOf pages = before ++ r :: rest ->
  (length before < fuel)%nat ->
  forallb hasApp before = true -> hasApp r = false ->
  checkCheckRuns client org repo fuel activePr w = Panics NilDereference.
Proof.
  intros Hitems Hfuel Happ Hno.
  destruct (tagged_split _ _ _ _ Hitems) as (tb & p & tr & Ht & <-).
  unfold checkCheckRuns.
  apply (checkCheckRuns_loop_panics tb fuel new [] w (p, r) tr).
  - rewrite <- Ht. now apply standing_fresh.
  - now rewrite length_fmap in Hfuel.
  - exact Happ.
  - exact Hno.
Qed.

End CheckRuns.
End Checks.

Lemma scripted_serves_statuses s pr :
  serves (checkStatuses_Retrieve (scripted s) pr)
         [(Some {| Statuses := statuses s |}, statuses s)]
         (calls isCombinedStatus).
Proof.
  split; [done|]. intros [|n] p its o w Hl Hn; [|done].
  injection Hl as <- <-. eexists _, _. split; reflexivity.
Qed.

Lemma scripted_serves_checkRuns s pr :
  serves (checkCheckRuns_Retrieve (scripted s) pr)
         [(Some {| CheckRuns := checkRuns s |}, checkRuns s)]
         (calls isCheckRuns).
Proof.
  split; [done|]. intros [|n] p its o w Hl Hn; [|done].
  injection Hl as <- <-. eexists _, _. split; reflexivity.
Qed.

Lemma checkStatuses_lists_all_witness :
  exists w' t,
    checkStatuses (scripted busy) "owner" "repo" 3 prB 0 [prB] =
      Returns ([{| appId := None; context := "build";
                   conclusion := "pending" |};
                {| appId := None; context := "build";
                   conclusion := "success" |}], None) w' t /\
    forallb (calls isCombinedStatus) t = true.
Proof.
  apply (checkStatuses_lists_all (scripted busy) "owner" "repo" prB
           [(Some {| Statuses := statuses busy |}, statuses busy)]
           (scripted_serves_statuses busy prB) eq_refl 3 0 [prB]).
  simpl. lia.
Defined.

Lemma checkCheckRuns_lists_all_witness :
  exists w' t,
    checkCheckRuns (scripted busy) "owner" "repo" 4 prB [prB] =
      Returns ([{| appId := Some 15368; context := "test";
                   conclusion := "in_progress" |};
                {| appId := Some 15368; context := "test";
                   conclusion := "success" |};
                {| appId := Some 15368; context := "lint";
                   conclusion := "failed" |}], None) w' t /\
    forallb (calls isCheckRuns) t = true.
Proof.
  apply (checkCheckRuns_lists_all (scripted busy) "owner" "repo" prB
           [(Some {| CheckRuns := checkRuns busy |}, checkRuns busy)]
           (scripted_serves_checkRuns busy prB) eq_refl 4 [prB]).
  - simpl. lia.
  - reflexivity.
Defined.

Lemma checkCheckRuns_nil_app_panics_witness :
  checkCheckRuns (scripted appless) "owner" "repo" 4 prB [prB] =
  Panics NilDereference.
Proof.
  apply (checkCheckRuns_nil_app_panics (scripted appless) "owner" "repo" prB
           [(Some {| CheckRuns := checkRuns appless |}, checkRuns appless)]
           (scripted_serves_checkRuns appless prB) eq_refl 4 [prB]
           [checkRun "test" "completed" "success" (Some (Some 15368))]
           (checkRun "lint" "completed" "success" None)
           [checkRun "docs" "completed" "success" (Some None)]).
  - reflexivity.
  - simpl. lia.
  - reflexivity.
  - reflexivity.
Defined.

(** *** checkStatusChecks *)

Lemma lastWith_cons {A} (key : A -> string) k x l :
  lastWith key k (x :: l) =
  match lastWith key k l with
  | Some y => Some y
  | None => if String.eqb (key x) k then Some x else None
  end.
Proof.
  unfold lastWith. simpl.
  destruct (String.eqb (key x) k); [|now destruct (last _)].
  apply last_cons.
Qed.

Lemma seedChecks_lookup required (m : gmap string string) k :
  seedChecks required m !! k =
  if requires required k then Some "missing" else m !! k.
Proof.
  unfold seedChecks, requires. revert m.
  induction required as [|c required IH]; intros m; [done|].
  simpl. rewrite IH.
  destruct (existsb _ required); [now rewrite orb_true_r|].
  rewrite orb_false_r.
  destruct (String.eqb_spec (requiredContext c) k) as [->|Hne].
  - apply lookup_insert_eq.
  - now apply lookup_insert_ne.
Qed.

Lemma foldStatuses_lookup statuses (m : gmap string string) k :
  foldStatuses statuses m !! k =
  match lastWith context k statuses with
  | Some s => Some (conclusion s)
  | None => m !! k
  end.
Proof.
  unfold foldStatuses. revert m.
  induction statuses as [|s statuses IH]; intros m; [done|].
  simpl. rewrite IH, lastWith_cons, lookup_insert_eq, insert_insert_eq.
  destruct (lastWith context k statuses); [done|].
  destruct (String.eqb_spec (context s) k) as [->|Hne].
  - apply lookup_insert_eq.
  - now apply lookup_insert_ne.
Qed.

Lemma foldCheckRuns_lookup checks (m : gmap string string) k :
  foldCheckRuns checks m !! k =
  match m !! k with
  | Some c => Some (from_option conclusion c (lastWith runContext k checks))
  | None => None
  end.
Proof.
  unfold foldCheckRuns. revert m.
  induction checks as [|c checks IH]; intros m.
  - simpl. now destruct (m !! k).
  - simpl. rewrite IH, lastWith_cons.
    destruct (String.eqb_spec (runContext c) k) as [<-|Hne].
    + destruct (m !! runContext c) eqn:E.
      * rewrite lookup_insert_eq. now destruct (lastWith _ _ checks).
      * now rewrite E.
    + destruct (m !! runContext c) eqn:E.
      * rewrite lookup_insert_ne by done.
        destruct (m !! k); [|done]. now destruct (lastWith _ _ checks).
      * destruct (m !! k); [|done]. now destruct (lastWith _ _ checks).
Qed.

(** X10.  What the three loops of [checkStatusChecks] leave under a key:
    the key is there when a required check or a status has it; its value
    is the conclusion of the last check run filed under it, else the state
    of the last status, else "missing".  A check run files under its name
    followed by a slash and the id of its app. *)
Theorem checkResults_lookup required statuses checks k :
  foldCheckRuns checks (foldStatuses statuses (seedChecks required ∅)) !! k =
  match lastWith context k statuses with
  | Some s =>
    Some (from_option conclusion (conclusion s) (lastWith runContext k checks))
  | None =>
    if requires required k
    then Some (from_option conclusion "missing" (lastWith runContext k checks))
    else None
  end.
Proof.
  rewrite foldCheckRuns_lookup, foldStatuses_lookup, seedChecks_lookup.
  destruct (lastWith context k statuses); [done|].
  now destruct (requires required k).
Qed.

(** X11.  A required check that neither a status nor a check run reports
    keeps the pull request from being ready: whatever else is reported,
    and in whatever order the results are visited, the outcome is
    [ErrFailedCheck] or [ErrMissingCheck], never nil. *)
Theorem unreported_check_blocks required statuses checks k entries :
  let checkResults :=
    foldCheckRuns checks (foldStatuses statuses (seedChecks required ∅)) in
  requires required k = true ->
  lastWith context k statuses = None ->
  lastWith runContext k checks = None ->
  entries ≡ₚ map_to_list checkResults ->
  classify checkResults entries = Some ErrFailedCheck \/
  classify checkResults entries = Some ErrMissingCheck.
Proof.
  intros checkResults Hreq Hst Hrun Hp.
  assert (checkResults !! k = Some "missing") as Hk.
  { unfold checkResults.
    rewrite foldCheckRuns_lookup, foldStatuses_lookup, seedChecks_lookup.
    now rewrite Hst, Hreq, Hrun. }
  unfold classify. rewrite scanResults_flags. simpl.
  destruct (existsb isFailed entries); [now left|right].
  rewrite (proj2 (existsb_entries isPending _ _ Hp)); [done|].
  exists k, "missing". now split.
Qed.

Lemma unreported_check_blocks_witness :
  let checkResults :=
    foldCheckRuns (ofCheckRun <$> checkRuns busy)
      (foldStatuses [] (seedChecks [{| check_Context := "build";
                                       check_AppID := None |}] ∅)) in
  classify checkResults (map_to_list checkResults) = Some ErrFailedCheck \/
  classify checkResults (map_to_list checkResults) = Some ErrMissingCheck.
Proof.
  apply (unreported_check_blocks
           [{| check_Context := "build"; check_AppID := None |}] []
           (ofCheckRun <$> checkRuns busy) "build"); reflexivity.
Defined.

Section Checking.
Context {W : Type}.
Variable client : platform W.
Variables org repo base : string.
Variable activePr : PullRequest.
Variable rc : RequiredStatusChecks.
Variable statusPages : listing (option CombinedStatus) RepoStatus.
Variable runPages : listing (option ListCheckRunsResults) CheckRun.
Hypothesis protected :
  forall w : W, exists w',
    client _ (Repositories_GetRequiredStatusChecks base) w =
    ((Some rc, None), w').
Hypothesis servedStatuses :
  serves (checkStatuses_Retrieve client activePr) statusPages
         (calls isCombinedStatus).
Hypothesis fullStatuses : fullPages statusPages = true.
Hypothesis servedRuns :
  serves (checkCheckRuns_Retrieve client activePr) runPages
         (calls isCheckRuns).
Hypothesis fullRuns : fullPages runPages = true.

(** X12.  [checkStatusChecks] from the platform to the outcome.  When the
    platform names the required checks of the branch and serves the
    statuses and the check runs of the head commit, each with its app, the
    outcome is the classification of the check results made of all three:
    the required checks seeded, every status folded in, then every check
    run.  It only reads: it calls nothing but
    [Repositories.GetRequiredStatusChecks],
    [Repositories.GetCombinedStatus] and [Checks.ListCheckRunsForRef]. *)
Theorem checkStatusChecks_reads_and_classifies (fuel : nat) (w : W) :
  let checkResults :=
    foldCheckRuns (ofCheckRun <$> itemsOf runPages)
      (foldStatuses (ofStatus <$> itemsOf statusPages)
         (seedChecks (Checks rc) ∅)) in
  (length (itemsOf statusPages) < fuel)%nat ->
  (length (itemsOf runPages) < fuel)%nat ->
  forallb hasApp (itemsOf runPages) = true ->
  exists w' t,
    checkStatusChecks client org repo fuel base activePr w =
      Returns (classify checkResults (map_to_list checkResults)) w' t /\
    forallb (calls isCheckQuery) t = true.
Proof.
  intros checkResults Hf1 Hf2 Happ.
  destruct (protected w) as (w1 & H1).
  destruct (checkStatuses_loop_served client org repo activePr statusPages
              servedStatuses fullStatuses (tagged statusPages) fuel new []
              w1) as (w2 & t2 & H2 & Ht2);
    [now apply standing_fresh
    |now rewrite <- (length_fmap snd), tagged_items|].
  destruct (checkCheckRuns_loop_served client org repo activePr runPages
              servedRuns fullRuns (tagged runPages) fuel new [] w2)
    as (w3 & t3 & H3 & Ht3);
    [now apply standing_fresh
    |now rewrite <- (length_fmap snd), tagged_items
    |now rewrite tagged_items|].
  rewrite tagged_items in H2. rewrite tagged_items in H3.
  simpl in H2, H3.
  exists w3, (Called (Repositories_GetRequiredStatusChecks base) :: t2 ++ t3).
  split.
  - exact (checkStatusChecks_classifies client org repo fuel base activePr
             w w1 w2 w3 rc _ _ t2 t3 H1 H2 H3).
  - simpl. rewrite forallb_app.
    rewrite (calls_weaken isCombinedStatus isCheckQuery t2), 
            (calls_weaken isCheckRuns isCheckQuery t3); try done.
    + intros T c Hc. unfold isCheckQuery. rewrite Hc. apply orb_true_r.
    + intros T c Hc. unfold isCheckQuery. rewrite Hc.
      now rewrite orb_true_r.
Qed.

End Checking.

Lemma checkStatusChecks_reads_and_classifies_witness :
  exists w' t,
    checkStatusChecks (scripted busy) "owner" "repo" 4 "main" prB [prB] =
      Returns None w' t /\
    forallb (calls isCheckQuery) t = true.
Proof.
  apply (checkStatusChecks_reads_and_classifies (scripted busy)
           "owner" "repo" "main" prB
           {| Checks := [{| check_Context := "build"; check_AppID := None |};
                         {| check_Context := "test";
                            check_AppID := Some 15368 |}] |}
           [(Some {| Statuses := statuses busy |}, statuses busy)]
           [(Some {| CheckRuns := checkRuns busy |}, checkRuns busy)]
           (fun w => ex_intro _ w eq_refl)
           (scripted_serves_statuses busy prB) eq_refl
           (scripted_serves_checkRuns busy prB) eq_refl 4 [prB]).
  - simpl. lia.
  - simpl. lia.
  - reflexivity.
Defined.

(** X13.  When the platform answers the request for the statuses of the
    head commit with an error, and again when asked again,
    [checkStatusChecks] returns an error that starts with "can't list
    workflows: " and carries the second answer; the check runs are never
    asked for. *)
Theorem checkStatusChecks_statuses_fail {W} (client : platform W)
    (org repo base : string) (fuel : nat) (activePr : PullRequest)
    rc pg res e pg2 res2 e2 (w w1 w2 w3 : W) :
  let required := Repositories_GetRequiredStatusChecks base in
  let request :=
    Repositories_GetCombinedStatus (HeadSHA activePr)
                                   {| Page := 0; PerPage := 0 |} in
  client _ required w = ((Some rc, None), w1) ->
  client _ request w1 = ((pg, res, Some e), w2) ->
  client _ request w2 = ((pg2, res2, Some e2), w3) ->
  checkStatusChecks client org repo (S fuel) base activePr w =
  Returns (Some (Errorf ("can't list workflows: " +:+
                         describe org repo activePr e2)))
          w3 [Called required; Called request; Called request].
Proof.
  intros required request H0 H1 H2.
  destruct (first_fetch_fails (checkStatuses_Retrieve client activePr)
              None res e None res2 e2 w1 w2 w3
              [Called request] [Called request]) as (g1 & g2 & Hh & Hn).
  - unfold checkStatuses_Retrieve.
    now rewrite (bind_Returns _ _ _ _ _ _ (perform_Returns _ _ _ _ _ H1)).
  - unfold checkStatuses_Retrieve.
    now rewrite (bind_Returns _ _ _ _ _ _ (perform_Returns _ _ _ _ _ H2)).
  - unfold checkStatusChecks.
    rewrite (bind_Returns _ _ _ _ _ _ (perform_Returns _ _ _ _ _ H0)). simpl.
    unfold checkStatuses. simpl checkStatuses_loop.
    unfold mbind at 1, Go_bind at 1.
    rewrite (bind_Returns _ _ _ _ _ _ Hh). simpl.
    rewrite (bind_Returns _ _ _ _ _ _ Hn). reflexivity.
Qed.

Lemma checkStatusChecks_statuses_fail_witness :
  checkStatusChecks (overridden green (failStatuses (Errorf "timeout")))
                    "owner" "repo" 1 "main" prB [prB] =
  Returns (Some (Errorf ("can't list workflows: owner/repo 2 " +:+
                         "Update dependency timeout")))
    [prB]
    [Called (Repositories_GetRequiredStatusChecks "main");
     Called (Repositories_GetCombinedStatus "abc123"
               {| Page := 0; PerPage := 0 |});
     Called (Repositories_GetCombinedStatus "abc123"
               {| Page := 0; PerPage := 0 |})].
Proof.
  apply (checkStatusChecks_statuses_fail
           (overridden green (failStatuses (Errorf "timeout")))
           "owner" "repo" "main" 0 prB
           {| Checks := [{| check_Context := "build";
                            check_AppID := None |}] |}
           None None (Errorf "timeout") None None (Errorf "timeout")
           [prB] [prB] [prB] [prB]); reflexivity.
Defined.

(** *** approvePr *)

Section Approve.
Context {W : Type}.
Variable client : platform W.
Variables org repo : string.
Variable activePr : PullRequest.
Variable lists : list (list PullRequestReview).
Hypothesis served :
  servesLists (approvePr_Retrieve client activePr) lists
              (calls isListReviews).
Hypothesis full : fullPages (bare lists) = true.

Lemma approvePr_loop_served rest :
  forall fuel (rg : ListGenerator PullRequestReview) approved (w : W),
    standing (bare lists) (ListGenerator_init rg) rest ->
    (length rest < fuel)%nat ->
    exists w' t,
      approvePr_loop client fuel activePr rg approved w =
        Returns (approved || existsb isApproved (snd <$> rest), None) w' t /\
      forallb (calls isListReviews) t = true.
Proof.
  induction rest as [|[p review] rest IH]; intros fuel g acc w Hp Hfuel;
    (destruct fuel as [|fuel]; [simpl in Hfuel; lia|]);
    destruct (ListGenerator_HasNext_served _ _ _ served full g _ w Hp)
      as (g1 & w1 & t1 & Hh & Hp1 & Ht1);
    simpl approvePr_loop; rewrite (bind_Returns _ _ _ _ _ _ Hh); simpl.
  - rewrite orb_false_r, app_nil_r. eauto.
  - destruct (ListGenerator_Next_served _ _ _ served full g1 _ w1 Hp1)
      as (g2 & w2 & t2 & Hn & Hp2 & Ht2).
    rewrite (bind_Returns _ _ _ _ _ _ Hn). simpl.
    destruct (IH fuel g2
                (if String.eqb (review_State review) "APPROVED"
                 then true else acc) w2 Hp2)
      as (w3 & t3 & Hl & Ht3); [simpl in Hfuel; lia|].
    rewrite Hl. simpl. exists w3, (t1 ++ t2 ++ t3). split.
    + unfold isApproved at 2.
      destruct (String.eqb (review_State review) "APPROVED"); simpl;
        rewrite <- ?app_assoc, ?orb_true_r; reflexivity.
    + now rewrite !forallb_app, Ht1, Ht2, Ht3.
Qed.

Lemma approvePr_loop_all (fuel : nat) (w : W) :
  (length (concat lists) < fuel)%nat ->
  exists w' t,
    approvePr_loop client fuel activePr ListGenerator_new false w =
      Returns (existsb isApproved (concat lists), None) w' t /\
    forallb (calls isListReviews) t = true.
Proof.
  intros Hfuel.
  destruct (approvePr_loop_served (tagged (bare lists)) fuel
              ListGenerator_new false w) as (w' & t & Hl & Ht).
  - apply ListGenerator_new_standing.
  - now rewrite tagged_bare, length_fmap.
  - exists w', t. split; [|exact Ht]. rewrite Hl. simpl.
    rewrite tagged_bare, <- list_fmap_compose.
    now rewrite list_fmap_id.
Qed.

(** X14.  [approvePr] approves at most once.  When the platform serves the
    reviews of the pull request page by page and one of them is in the
    state "APPROVED", [approvePr] returns nil and has called nothing but
    [PullRequests.ListReviews]: it creates and submits no review. *)
Theorem approvePr_skips_approved (fuel : nat) (w : W) :
  (length (concat lists) < fuel)%nat ->
  existsb isApproved (concat lists) = true ->
  exists w' t,
    approvePr client org repo fuel activePr w = Returns None w' t /\
    forallb (calls isListReviews) t = true.
Proof.
  intros Hfuel Happ.
  destruct (approvePr_loop_all fuel w Hfuel) as (w' & t & Hl & Ht).
  rewrite Happ in Hl. exists w', t. split; [|exact Ht].
  unfold approvePr. rewrite (bind_Returns _ _ _ _ _ _ Hl). simpl.
  now rewrite app_nil_r.
Qed.

(** X15.  When no review served is in the state "APPROVED" and the
    platform answers [PullRequests.CreateReview] with an error,
    [approvePr] returns an error that starts with "can't create LGTM
    review: " and carries that answer; after the listing it has made this
    one call, with the approving request for the head commit, and it has
    submitted nothing. *)
Theorem approvePr_create_fails (fuel : nat) (w : W) review e :
  let create :=
    PullRequests_CreateReview (Number activePr) (lgtmRequest activePr) in
  (length (concat lists) < fuel)%nat ->
  existsb isApproved (concat lists) = false ->
  (forall w : W, exists w', client _ create w = ((review, Some e), w')) ->
  exists w' t,
    approvePr client org repo fuel activePr w =
      Returns (Some (Errorf ("can't create LGTM review: " +:+
                             describe org repo activePr e)))
              w' (t ++ [Called create]) /\
    forallb (calls isListReviews) t = true.
Proof.
  intros create Hfuel Happ Hcreate.
  destruct (approvePr_loop_all fuel w Hfuel) as (w1 & t & Hl & Ht).
  rewrite Happ in Hl. destruct (Hcreate w1) as (w2 & Hc).
  exists w2, t. split; [|exact Ht].
  unfold approvePr. rewrite (bind_Returns _ _ _ _ _ _ Hl). simpl.
  now rewrite (bind_Returns _ _ _ _ _ _ (perform_Returns _ _ _ _ _ Hc)).
Qed.

End Approve.

Lemma scripted_serves_reviews s (answer : forall T, call T -> option T) pr :
  (forall n o, answer _ (PullRequests_ListReviews n o) = None) ->
  servesLists (approvePr_Retrieve (overridden s answer) pr) [reviews s]
              (calls isListReviews).
Proof.
  intros Hans. split; [done|]. intros [|n] its o w Hl Hn; [|done].
  injection Hl as <-.
  exists w, [Called (PullRequests_ListReviews (Number pr) o)].
  unfold approvePr_Retrieve, perform, overridden. rewrite Hans.
  split; reflexivity.
Qed.

Lemma approvePr_skips_approved_witness :
  exists w' t,
    approvePr (overridden busy (fun _ _ => None)) "owner" "repo" 3 prB [prB] =
      Returns None w' t /\
    forallb (calls isListReviews) t = true.
Proof.
  apply (approvePr_skips_approved (overridden busy (fun _ _ => None))
           "owner" "repo" prB [reviews busy]
           (scripted_serves_reviews busy _ prB (fun _ _ => eq_refl)) eq_refl
           3 [prB]).
  - simpl. lia.
  - reflexivity.
Defined.

Lemma approvePr_create_fails_witness :
  exists w' t,
    approvePr (overridden green (failCreate (Errorf "403 Forbidden")))
              "owner" "repo" 3 prB [prB] =
      Returns (Some (Errorf ("can't create LGTM review: owner/repo 2 " +:+
                             "Update dependency 403 Forbidden")))
              w' (t ++ [Called (PullRequests_CreateReview 2
                                  (lgtmRequest prB))]) /\
    forallb (calls isListReviews) t = true.
Proof.
  apply (approvePr_create_fails
           (overridden green (failCreate (Errorf "403 Forbidden")))
           "owner" "repo" prB [reviews green]
           (scripted_serves_reviews green _ prB (fun _ _ => eq_refl)) eq_refl
           3 [prB] None (Errorf "403 Forbidden")).
  - simpl. lia.
  - reflexivity.
  - intros w. exists w. reflexivity.
Defined.

(** *** approveWorkflowRuns *)

Section Workflows.
Context {W : Type}.
Variable client : platform W.
Variable activePr : PullRequest.
Variable pages : listing (option WorkflowRuns) WorkflowRun.
Hypothesis served :
  serves (approveWorkflowRuns_Retrieve client activePr) pages
         (calls isWorkflowRuns).
Hypothesis full : fullPages pages = true.

(** The platform builds the request for [r] and accepts it. *)
Definition accepts (r : WorkflowRun) : Prop :=
  (forall w : W, exists w',
      client _ (NewRequest "POST" (approveURL r)) w = (None, w')) /\
  (forall w : W, exists w',
      client _ (Do "POST" (approveURL r)) w = (None, w')).

(** The platform builds the request for [r] and answers it with [e]. *)
Definition refuses (r : WorkflowRun) (e : error) : Prop :=
  (forall w : W, exists w',
      client _ (NewRequest "POST" (approveURL r)) w = (None, w')) /\
  (forall w : W, exists w',
      client _ (Do "POST" (approveURL r)) w = (Some e, w')).

Lemma approveWorkflowRuns_loop_served rest :
  forall fuel g (w : W),
    standing pages g rest -> (length rest < fuel)%nat ->
    Forall accepts (List.filter (ofHead activePr) (snd <$> rest)) ->
    exists w' t,
      approveWorkflowRuns_loop client fuel activePr g w = Returns None w' t /\
      others isWorkflowRuns t =
      flat_map approval (List.filter (ofHead activePr) (snd <$> rest)).
Proof.
  induction rest as [|[p r] rest IH]; intros fuel g w Hp Hfuel Hacc;
    (destruct fuel as [|fuel]; [simpl in Hfuel; lia|]);
    destruct (HasNext_served _ _ _ served full g _ w Hp)
      as (g1 & w1 & t1 & Hh & Hp1 & Ht1);
    simpl approveWorkflowRuns_loop;
    rewrite (bind_Returns _ _ _ _ _ _ Hh); simpl.
  - rewrite app_nil_r. exists w1, t1. split; [done|].
    now apply others_none.
  - destruct (Next_served _ _ _ served full g1 _ w1 Hp1)
      as (g2 & w2 & t2 & Hn & Hp2 & Ht2).
    rewrite (bind_Returns _ _ _ _ _ _ Hn). simpl.
    simpl in Hacc. fold (ofHead activePr r) in *.
    destruct (ofHead activePr r) eqn:Eh; simpl.
    + apply Forall_cons in Hacc as [[Hnew Hdo] Hacc].
      destruct (Hnew w2) as (w3 & Hnew3). destruct (Hdo w3) as (w4 & Hdo4).
      destruct (IH fuel g2 w4 Hp2) as (w5 & t5 & Hl & Ht5);
        [simpl in Hfuel; lia | exact Hacc |].
      fold (approveURL r).
      rewrite (bind_Returns _ _ _ _ _ _ (perform_Returns _ _ _ _ _ Hnew3)).
      simpl.
      rewrite (bind_Returns _ _ _ _ _ _ (perform_Returns _ _ _ _ _ Hdo4)).
      simpl. rewrite Hl. simpl.
      eexists _, _. split; [reflexivity|].
      rewrite ?approval_app.
      rewrite !others_app, (others_none _ _ Ht1), (others_none _ _ Ht2), ?Ht5.
      reflexivity.
    + destruct (IH fuel g2 w2 Hp2) as (w5 & t5 & Hl & Ht5);
        [simpl in Hfuel; lia | exact Hacc |].
      rewrite Hl. simpl. eexists _, _. split; [reflexivity|].
      rewrite ?approval_app.
      rewrite !others_app, (others_none _ _ Ht1), (others_none _ _ Ht2), ?Ht5.
      reflexivity.
Qed.

Lemma approveWorkflowRuns_loop_refused before :
  forall fuel g (w : W) run e rest,
    standing pages g (before ++ run :: rest) ->
    (length before < fuel)%nat ->
    Forall accepts (List.filter (ofHead activePr) (snd <$> before)) ->
    ofHead activePr (snd run) = true -> refuses (snd run) e ->
    exists w' t,
      approveWorkflowRuns_loop client fuel activePr g w =
        Returns (Some (Errorf ("Can't approve workflow: " +:+ Error e)))
                w' t /\
      others isWorkflowRuns t =
      flat_map approval (List.filter (ofHead activePr) (snd <$> before)) ++
      approval (snd run).
Proof.
  induction before as [|[p r] before IH];
    intros fuel g w [q run] e rest Hp Hfuel Hacc Hhead Hrefused;
    (destruct fuel as [|fuel]; [simpl in Hfuel; lia|]);
    destruct (HasNext_served _ _ _ served full g _ w Hp)
      as (g1 & w1 & t1 & Hh & Hp1 & Ht1);
    simpl approveWorkflowRuns_loop;
    rewrite (bind_Returns _ _ _ _ _ _ Hh); simpl;
    destruct (Next_served _ _ _ served full g1 _ w1 Hp1)
      as (g2 & w2 & t2 & Hn & Hp2 & Ht2);
    simpl in Hn; rewrite (bind_Returns _ _ _ _ _ _ Hn); simpl.
  - simpl in Hhead. fold (ofHead activePr run). rewrite Hhead. simpl.
    destruct Hrefused as [Hnew Hdo]. simpl in Hnew, Hdo.
    destruct (Hnew w2) as (w3 & Hnew3). destruct (Hdo w3) as (w4 & Hdo4).
    fold (approveURL run).
    rewrite (bind_Returns _ _ _ _ _ _ (perform_Returns _ _ _ _ _ Hnew3)).
    simpl.
    rewrite (bind_Returns _ _ _ _ _ _ (perform_Returns _ _ _ _ _ Hdo4)).
    simpl. eexists _, _. split; [reflexivity|].
    rewrite !others_app, (others_none _ _ Ht1), (others_none _ _ Ht2).
    reflexivity.
  - simpl in Hacc, Hp2. fold (ofHead activePr r) in *.
    destruct (ofHead activePr r) eqn:Eh; simpl.
    + apply Forall_cons in Hacc as [[Hnew Hdo] Hacc].
      destruct (Hnew w2) as (w3 & Hnew3). destruct (Hdo w3) as (w4 & Hdo4).
      destruct (IH fuel g2 w4 (q, run) e rest Hp2) as (w5 & t5 & Hl & Ht5);
        [simpl in Hfuel; lia | exact Hacc | exact Hhead | exact Hrefused |].
      fold (approveURL r).
      rewrite (bind_Returns _ _ _ _ _ _ (perform_Returns _ _ _ _ _ Hnew3)).
      simpl.
      rewrite (bind_Returns _ _ _ _ _ _ (perform_Returns _ _ _ _ _ Hdo4)).
      simpl. rewrite Hl. simpl.
      eexists _, _. split; [reflexivity|].
      rewrite ?approval_app.
      rewrite !others_app, (others_none _ _ Ht1), (others_none _ _ Ht2), ?Ht5.
      reflexivity.
    + destruct (IH fuel g2 w2 (q, run) e rest Hp2) as (w5 & t5 & Hl & Ht5);
        [simpl in Hfuel; lia | exact Hacc | exact Hhead | exact Hrefused |].
      rewrite Hl. simpl. eexists _, _. split; [reflexivity|].
      rewrite ?approval_app.
      rewrite !others_app, (others_none _ _ Ht1), (others_none _ _ Ht2), ?Ht5.
      reflexivity.
Qed.

(** X16.  When the platform serves the workflow runs that wait for
    approval page by page and accepts the approval of every run of the
    head commit of the pull request, [approveWorkflowRuns] returns nil,
    and what it has called besides the listing is, for each run of the
    head commit and in the order of the listing, [NewRequest] and [Do]
    with POST on the URL of the run followed by "/approve"; the runs of
    other commits are left alone. *)
Theorem approveWorkflowRuns_approves_head_runs (fuel : nat) (w : W) :
  (length (itemsOf pages) < fuel)%nat ->
  Forall accepts (List.filter (ofHead activePr) (itemsOf pages)) ->
  exists w' t,
    approveWorkflowRuns client fuel activePr w = Returns None w' t /\
    others isWorkflowRuns t =
    flat_map approval (List.filter (ofHead activePr) (itemsOf pages)).
Proof.
  intros Hfuel Hacc. unfold approveWorkflowRuns.
  rewrite <- tagged_items in Hfuel, Hacc |- *.
  apply approveWorkflowRuns_loop_served.
  - now apply standing_fresh.
  - now rewrite length_fmap in Hfuel.
  - exact Hacc.
Qed.

(** X17.  When the platform refuses the approval of a run of the head
    commit, having accepted those before it, [approveWorkflowRuns] returns
    an error that starts with "Can't approve workflow: " and carries the
    refusal, and stops there: the runs after it are not approved. *)
Theorem approveWorkflowRuns_stops_when_refused (fuel : nat) (w : W)
    before r rest e :
  itemsOf pages = before ++ r :: rest ->
  (length before < fuel)%nat ->
  Forall accepts (List.filter (ofHead activePr) before) ->
  ofHead activePr r = true -> refuses r e ->
  exists w' t,
    approveWorkflowRuns client fuel activePr w =
      Returns (Some (Errorf ("Can't approve workflow: " +:+ Error e))) w' t /\
    others isWorkflowRuns t =
    flat_map approval (List.filter (ofHead activePr) before) ++ approval r.
Proof.
  intros Hitems Hfuel Hacc Hhead Href.
  destruct (tagged_split _ _ _ _ Hitems) as (tb & p & tr & Ht & <-).
  unfold approveWorkflowRuns.
  apply (approveWorkflowRuns_loop_refused tb fuel new w (p, r) e tr).
  - rewrite <- Ht. now apply standing_fresh.
  - now rewrite length_fmap in Hfuel.
  - exact Hacc.
  - exact Hhead.
  - exact Href.
Qed.

End Workflows.

Lemma scripted_serves_workflowRuns s
    (answer : forall T, call T -> option T) pr :
  (forall o, answer _ (Actions_ListRepositoryWorkflowRuns o) = None) ->
  serves (approveWorkflowRuns_Retrieve (overridden s answer) pr)
         [(Some {| runs_WorkflowRuns := workflowRuns s |}, workflowRuns s)]
         (calls isWorkflowRuns).
Proof.
  intros Hans. split; [done|]. intros [|n] p its o w Hl Hn; [|done].
  injection Hl as <- <-.
  unfold approveWorkflowRuns_Retrieve, perform, overridden, mbind, Go_bind.
  rewrite Hans. eexists _, _. split; reflexivity.
Qed.

Lemma approveWorkflowRuns_approves_head_runs_witness :
  exists w' t,
    approveWorkflowRuns (overridden busy (fun _ _ => None)) 4 prB [prB] =
      Returns None w' t /\
    others isWorkflowRuns t =
    [Called (NewRequest "POST" "https://api/runs/1/approve");
     Called (Do "POST" "https://api/runs/1/approve");
     Called (NewRequest "POST" "https://api/runs/3/approve");
     Called (Do "POST" "https://api/runs/3/approve")].
Proof.
  apply (approveWorkflowRuns_approves_head_runs
           (overridden busy (fun _ _ => None)) prB
           [(Some {| runs_WorkflowRuns := workflowRuns busy |},
             workflowRuns busy)]
           (scripted_serves_workflowRuns busy _ prB (fun _ => eq_refl))
           eq_refl 4 [prB]).
  - simpl. lia.
  - repeat constructor; intros w; exists w; reflexivity.
Defined.

Lemma approveWorkflowRuns_stops_when_refused_witness :
  exists w' t,
    approveWorkflowRuns (overridden busy (refuseDo (Errorf "403 Forbidden")))
                        4 prB [prB] =
      Returns (Some (Errorf "Can't approve workflow: 403 Forbidden")) w' t /\
    others isWorkflowRuns t =
    [Called (NewRequest "POST" "https://api/runs/1/approve");
     Called (Do "POST" "https://api/runs/1/approve")].
Proof.
  apply (approveWorkflowRuns_stops_when_refused
           (overridden busy (refuseDo (Errorf "403 Forbidden"))) prB
           [(Some {| runs_WorkflowRuns := workflowRuns busy |},
             workflowRuns busy)]
           (scripted_serves_workflowRuns busy _ prB (fun _ => eq_refl))
           eq_refl 4 [prB]
           [] (run "abc123" "https://api/runs/1")
           [run "000000" "https://api/runs/2";
            run "abc123" "https://api/runs/3"]
           (Errorf "403 Forbidden")).
  - reflexivity.
  - simpl. lia.
  - constructor.
  - reflexivity.
  - split; intros w; exists w; reflexivity.
Defined.

End renovatepr_extras.

(** ** Package model: the cached data set (src/unnamed/part_004)

    [CachedDataSet.Get] over the operating system and the JSON coder it
    uses: [os.Stat], [os.Open], [os.Create], [Decode] into a new [Data] and
    [Encode], each a computation on the world, and the [Retrieve] field. *)

Module cache.

Section CachedDataSet.
Context {W Data File : Type}.

Variable os_Stat : string -> Go W (option error).
Variable os_Open : string -> Go W (option File * option error).
Variable os_Create : string -> Go W (option File * option error).
(** [json.NewDecoder(f).Decode(c.d)] on [c.d = new(Data)]: what [*c.d]
    holds afterwards, and the error. *)
Variable Decode : option File -> Go W (Data * option error).
Variable Encode : option File -> option Data -> Go W (option error).
(** The [Retrieve] field. *)
Variable Retrieve : Go W (option Data * option error).

(** The fields [Get] reads and writes. *)
Record CachedDataSet : Type := {
  FileName : string;
  d : option Data;
  err : option error
}.

Definition Get (c : CachedDataSet)
  : Go W (CachedDataSet * (option Data * option error)) :=
  if bool_decide (is_Some (d c)) || bool_decide (is_Some (err c))
  then mret (c, (d c, err c))
  else
    err0 ← os_Stat (FileName c);
    match err0 with
    | None =>
      '(f, err1) ← os_Open (FileName c);
      match err1 with
      | Some e => mret (c, (None, Some e))
      | None =>
        '(data, err2) ← Decode f;
        let c := {| FileName := FileName c; d := Some data; err := err c |} in
        match err2 with
        | Some e => mret (c, (d c, Some e))
        | None => mret (c, (d c, None))
        end
      end
    | Some _ =>
      '(data, e) ← Retrieve;
      let c := {| FileName := FileName c; d := data; err := e |} in
      '(f, err1) ← os_Create (FileName c);
      match err1 with
      | Some e => mret (c, (None, Some e))
      | None =>
        err2 ← Encode f (d c);
        match err2 with
        | Some e => mret (c, (d c, Some e))
        | None => mret (c, (d c, None))
        end
      end
    end.

(** A data set that holds [data] or [e] answers from memory. *)
Lemma Get_held (c : CachedDataSet) (w : W) :
  is_Some (d c) \/ is_Some (err c) ->
  Get c w = Returns (c, (d c, err c)) w [].
Proof.
  intros H. unfold Get.
  assert (bool_decide (is_Some (d c)) || bool_decide (is_Some (err c)) = true)
    as ->; [|done].
  apply orb_true_iff.
  destruct H; [left|right]; now apply bool_decide_eq_true_2.
Qed.

Lemma Get_fresh (c : CachedDataSet) :
  d c = None -> err c = None ->
  bool_decide (is_Some (d c)) || bool_decide (is_Some (err c)) = false.
Proof.
  intros -> ->. apply orb_false_iff.
  split; apply bool_decide_eq_false_2; intros [x Hx]; discriminate.
Qed.

(** X18.  A new data set whose file is not there: [Get] runs [Retrieve],
    creates the file, encodes the data into it and returns the data; every
    later [Get] returns the same data from memory, whatever has become of
    the file, and touches nothing. *)
Theorem Get_stores_and_remembers (c : CachedDataSet)
    (w w1 w2 w3 w4 : W) t1 t2 t3 t4 absent data f :
  d c = None -> err c = None ->
  os_Stat (FileName c) w = Returns (Some absent) w1 t1 ->
  Retrieve w1 = Returns (Some data, None) w2 t2 ->
  os_Create (FileName c) w2 = Returns (f, None) w3 t3 ->
  Encode f (Some data) w3 = Returns None w4 t4 ->
  exists c',
    Get c w = Returns (c', (Some data, None)) w4 (t1 ++ t2 ++ t3 ++ t4) /\
    forall w', Get c' w' = Returns (c', (Some data, None)) w' [].
Proof.
  intros Hd He Hstat Hret Hcreate Hencode.
  exists {| FileName := FileName c; d := Some data; err := None |}. split.
  - unfold Get. rewrite (Get_fresh c Hd He).
    rewrite (bind_Returns _ _ _ _ _ _ Hstat). simpl.
    rewrite (bind_Returns _ _ _ _ _ _ Hret). simpl.
    rewrite (bind_Returns _ _ _ _ _ _ Hcreate). simpl.
    rewrite (bind_Returns _ _ _ _ _ _ Hencode). simpl.
    now rewrite app_nil_r.
  - intros w'. apply (Get_held {| d := Some data |}). left. now eexists.
Qed.

(** X19.  When [Retrieve] fails, the [Get] that ran it does not say so: it
    writes what [Retrieve] returned to the file and returns it with a nil
    error.  Every later [Get] returns the error of [Retrieve]. *)
Theorem Get_reports_Retrieve_error_late (c : CachedDataSet)
    (w w1 w2 w3 w4 : W) t1 t2 t3 t4 absent data e f :
  d c = None -> err c = None ->
  os_Stat (FileName c) w = Returns (Some absent) w1 t1 ->
  Retrieve w1 = Returns (data, Some e) w2 t2 ->
  os_Create (FileName c) w2 = Returns (f, None) w3 t3 ->
  Encode f data w3 = Returns None w4 t4 ->
  exists c',
    Get c w = Returns (c', (data, None)) w4 (t1 ++ t2 ++ t3 ++ t4) /\
    forall w', Get c' w' = Returns (c', (data, Some e)) w' [].
Proof.
  intros Hd He Hstat Hret Hcreate Hencode.
  exists {| FileName := FileName c; d := data; err := Some e |}. split.
  - unfold Get. rewrite (Get_fresh c Hd He).
    rewrite (bind_Returns _ _ _ _ _ _ Hstat). simpl.
    rewrite (bind_Returns _ _ _ _ _ _ Hret). simpl.
    rewrite (bind_Returns _ _ _ _ _ _ Hcreate). simpl.
    rewrite (bind_Returns _ _ _ _ _ _ Hencode). simpl.
    now rewrite app_nil_r.
  - intros w'. apply (Get_held {| err := Some e |}). right. now eexists.
Qed.

(** X20.  A new data set whose file is there and opens: [Get] returns what
    decoding the file gives, data and error, and does not run [Retrieve].
    A decoding error is returned this once: every later [Get] returns the
    data the failed decoding left, with a nil error. *)
Theorem Get_reads_the_file (c : CachedDataSet)
    (w w1 w2 w3 : W) t1 t2 t3 f data err2 :
  d c = None -> err c = None ->
  os_Stat (FileName c) w = Returns None w1 t1 ->
  os_Open (FileName c) w1 = Returns (f, None) w2 t2 ->
  Decode f w2 = Returns (data, err2) w3 t3 ->
  exists c',
    Get c w = Returns (c', (Some data, err2)) w3 (t1 ++ t2 ++ t3) /\
    forall w', Get c' w' = Returns (c', (Some data, None)) w' [].
Proof.
  intros Hd He Hstat Hopen Hdecode.
  exists {| FileName := FileName c; d := Some data; err := None |}. split.
  - unfold Get. rewrite (Get_fresh c Hd He).
    rewrite (bind_Returns _ _ _ _ _ _ Hstat). simpl.
    rewrite (bind_Returns _ _ _ _ _ _ Hopen). simpl.
    rewrite (bind_Returns _ _ _ _ _ _ Hdecode). simpl.
    rewrite He. destruct err2; simpl; now rewrite app_nil_r.
  - intros w'. apply (Get_held {| d := Some data |}). left. now eexists.
Qed.

(** X21.  When the file cannot be created, [Get] returns the error of
    [os.Create] and no data, although [Retrieve] has returned the data;
    every later [Get] returns that data from memory with a nil error, and
    the file is never written. *)
Theorem Get_create_error_once (c : CachedDataSet)
    (w w1 w2 w3 : W) t1 t2 t3 absent data f e :
  d c = None -> err c = None ->
  os_Stat (FileName c) w = Returns (Some absent) w1 t1 ->
  Retrieve w1 = Returns (Some data, None) w2 t2 ->
  os_Create (FileName c) w2 = Returns (f, Some e) w3 t3 ->
  exists c',
    Get c w = Returns (c', (None, Some e)) w3 (t1 ++ t2 ++ t3) /\
    forall w', Get c' w' = Returns (c', (Some data, None)) w' [].
Proof.
  intros Hd He Hstat Hret Hcreate.
  exists {| FileName := FileName c; d := Some data; err := None |}. split.
  - unfold Get. rewrite (Get_fresh c Hd He).
    rewrite (bind_Returns _ _ _ _ _ _ Hstat). simpl.
    rewrite (bind_Returns _ _ _ _ _ _ Hret). simpl.
    rewrite (bind_Returns _ _ _ _ _ _ Hcreate). simpl.
    now rewrite app_nil_r.
  - intros w'. apply (Get_held {| d := Some data |}). left. now eexists.
Qed.

End CachedDataSet.

Arguments CachedDataSet : clear implicits.

(** *** A disk to try the statements on: the world maps the names of the
    files to their contents, the data are strings written as they are. *)

Definition disk : Type := gmap string string.

Definition stat (name : string) : Go disk (option error) :=
  fun w =>
    Returns (match w !! name with
             | Some _ => None
             | None => Some (Errorf "no such file or directory")
             end) w [].

Definition open (name : string) : Go disk (option string * option error) :=
  fun w =>
    Returns (match w !! name with
             | Some _ => (Some name, None)
             | None => (None, Some (Errorf "no such file or directory"))
             end) w [].

Definition create (name : string) : Go disk (option string * option error) :=
  fun w => Returns (Some name, None) (<[name := ""]> w) [].

(** A directory that takes no new file. *)
Definition createDenied (name : string)
  : Go disk (option string * option error) :=
  fun w => Returns (None, Some (Errorf "permission denied")) w [].

Definition decode (f : option string) : Go disk (string * option error) :=
  fun w =>
    Returns (match f ≫= (w !!.) with
             | Some "" => ("", Some (Errorf "EOF"))
             | Some s => (s, None)
             | None => ("", Some (Errorf "invalid argument"))
             end) w [].

Definition encode (f : option string) (data : option string)
  : Go disk (option error) :=
  fun w =>
    match f with
    | Some name => Returns None (<[name := default "null" data]> w) []
    | None => Returns (Some (Errorf "invalid argument")) w []
    end.

Definition fetched : Go disk (option string * option error) :=
  mret (Some "hi jonathan", None).

Definition unreachable : Go disk (option string * option error) :=
  mret (None, Some (Errorf "no route to host")).

Definition testMap : CachedDataSet string :=
  {| FileName := "test-map.json"; d := None; err := None |}.

Lemma Get_stores_and_remembers_witness :
  exists c',
    Get stat open create decode encode fetched testMap ∅ =
      Returns (c', (Some "hi jonathan", None))
              {["test-map.json" := "hi jonathan"]} [] /\
    forall w', Get stat open create decode encode fetched c' w' =
               Returns (c', (Some "hi jonathan", None)) w' [].
Proof.
  apply (Get_stores_and_remembers stat open create decode encode fetched
           testMap ∅ ∅ ∅ {["test-map.json" := ""]}
           {["test-map.json" := "hi jonathan"]} [] [] [] []
           (Errorf "no such file or directory") "hi jonathan"
           (Some "test-map.json")); reflexivity.
Defined.

Lemma Get_reports_Retrieve_error_late_witness :
  exists c',
    Get stat open create decode encode unreachable testMap ∅ =
      Returns (c', (None, None)) {["test-map.json" := "null"]} [] /\
    forall w', Get stat open create decode encode unreachable c' w' =
               Returns (c', (None, Some (Errorf "no route to host"))) w' [].
Proof.
  apply (Get_reports_Retrieve_error_late stat open create decode encode
           unreachable testMap ∅ ∅ ∅ {["test-map.json" := ""]}
           {["test-map.json" := "null"]} [] [] [] []
           (Errorf "no such file or directory") None
           (Errorf "no route to host") (Some "test-map.json"));
    reflexivity.
Defined.

Lemma Get_reads_the_file_witness :
  exists c',
    Get stat open create decode encode unreachable testMap
        {["test-map.json" := ""]} =
      Returns (c', (Some "", Some (Errorf "EOF")))
              {["test-map.json" := ""]} [] /\
    forall w', Get stat open create decode encode unreachable c' w' =
               Returns (c', (Some "", None)) w' [].
Proof.
  apply (Get_reads_the_file stat open create decode encode unreachable
           testMap {["test-map.json" := ""]} {["test-map.json" := ""]}
           {["test-map.json" := ""]} {["test-map.json" := ""]} [] [] []
           (Some "test-map.json") "" (Some (Errorf "EOF")));
    reflexivity.
Defined.

Lemma Get_create_error_once_witness :
  exists c',
    Get stat open createDenied decode encode fetched testMap ∅ =
      Returns (c', (None, Some (Errorf "permission denied"))) ∅ [] /\
    forall w', Get stat open createDenied decode encode fetched c' w' =
               Returns (c', (Some "hi jonathan", None)) w' [].
Proof.
  apply (Get_create_error_once stat open createDenied decode encode fetched
           testMap ∅ ∅ ∅ ∅ [] [] []
           (Errorf "no such file or directory") "hi jonathan" None
           (Errorf "permission denied")); reflexivity.
Defined.

End cache.
